(** * project_dumper: the classifier and the tree builder

    A shallow embedding of [src/project_dumper.py]: the rule tables, the
    schema heuristic [looks_like_schema_file], the ignore rules
    [is_ignored] and the directory walk [generate_tree], followed by the
    properties of the written specification that concern them.

    Conventions of the embedding.
    - A Python [str] is a [string]: the sequence of bytes of its UTF-8
      encoding.  Substring tests, [rfind] of a dot, counting separators and
      lexicographic comparison give the same answers on the bytes as on the
      code points.  [str.lower] is a parameter, known by what it does to
      ASCII strings and by leaving no ASCII capital letter.
    - A [pathlib.Path] is a POSIX path, kept as pathlib keeps it: a root
      and the list of the segments after it.
    - The filesystem is a function from paths to the outcome of [stat];
      [Path.is_file] reads that outcome as pathlib does: it answers
      [False] for a missing path and lets any other [OSError] pass.
    - Code that may raise lives in the [result] monad. *)

From Stdlib Require Import String Ascii List ZArith Bool Lia Permutation.
From Stdlib Require Import Sorted.
From Stdlib Require OrderedTypeEx DecimalString.
Import ListNotations.
Open Scope string_scope.
Open Scope bool_scope.

(** ** Strings *)

Module Str.

(** [c.lower()] for an ASCII character. *)
Definition lower_ascii (c : ascii) : ascii :=
  let n := N_of_ascii c in
  if ((65 <=? n) && (n <=? 90))%N then ascii_of_N (n + 32) else c.

(** [s.lower()] for a string of ASCII characters. *)
Fixpoint ascii_lower (s : string) : string :=
  match s with
  | EmptyString => EmptyString
  | String c s' => String (lower_ascii c) (ascii_lower s')
  end.

(** [s.isascii()] *)
Fixpoint is_ascii (s : string) : bool :=
  match s with
  | EmptyString => true
  | String c s' => (N_of_ascii c <? 128)%N && is_ascii s'
  end.

(** An ASCII capital letter. *)
Definition is_upper (c : ascii) : bool :=
  ((65 <=? N_of_ascii c) && (N_of_ascii c <=? 90))%N.

(** [s.lower()].  Python lowers a string by the case mappings of Unicode,
    which this development does not contain.  [lower] is any function that
    does what [str.lower] does on ASCII strings and, like it, leaves no
    ASCII capital letter in its result; every property below holds of every
    such function. *)
Class Lowering : Type := {
  lower : string -> string;
  lower_of_ascii : forall s, is_ascii s = true -> lower s = ascii_lower s;
  lower_no_capital :
    forall s c, In c (list_ascii_of_string (lower s)) -> is_upper c = false
}.

(** [key in s] on strings: [key] occurs in [s] as a substring. *)
Fixpoint contains (key s : string) : bool :=
  prefix key s ||
  match s with
  | EmptyString => false
  | String _ s' => contains key s'
  end.

(** [s.rfind(c)]: the index of the last occurrence of [c], or -1. *)
Fixpoint rfind (c : ascii) (s : string) : Z :=
  match s with
  | EmptyString => (-1)%Z
  | String a s' =>
      let r := rfind c s' in
      if (0 <=? r)%Z then (r + 1)%Z
      else if Ascii.eqb a c then 0%Z else (-1)%Z
  end.

(** [s[i:]] for [0 <= i]. *)
Fixpoint drop (i : nat) (s : string) : string :=
  match i, s with
  | O, _ => s
  | S _, EmptyString => EmptyString
  | S k, String _ s' => drop k s'
  end.

(** [s.count(c)] for a one-character [c]. *)
Fixpoint count (c : ascii) (s : string) : nat :=
  match s with
  | EmptyString => O
  | String a s' => (if Ascii.eqb a c then 1 else 0) + count c s'
  end.

(** [s.replace(old, '')].  Python removes the occurrences of [old] found
    scanning from the left, each search starting after the previous
    match; [skip] counts the characters of the current match still to be
    dropped.  With an empty [old] nothing is removed. *)
Fixpoint remove_from (old : string) (skip : nat) (s : string) : string :=
  match s with
  | EmptyString => EmptyString
  | String a s' =>
      match skip with
      | S k => remove_from old k s'
      | O =>
          match old with
          | EmptyString => String a (remove_from old O s')
          | String _ old' =>
              if prefix old s then remove_from old (String.length old') s'
              else String a (remove_from old O s')
          end
      end
  end.

Definition remove_all (old s : string) : string := remove_from old O s.

(** [c * n] *)
Fixpoint repeat (c : ascii) (n : nat) : string :=
  match n with
  | O => EmptyString
  | S k => String c (repeat c k)
  end.

(** [s.split(c)] for a one-character separator: never the empty list. *)
Fixpoint split (c : ascii) (s : string) : list string :=
  match s with
  | EmptyString => [EmptyString]
  | String a s' =>
      if Ascii.eqb a c then EmptyString :: split c s'
      else match split c s' with
           | [] => [String a EmptyString]
           | w :: ws => String a w :: ws
           end
  end.

(** [x in S] for a set of strings [S]. *)
Definition mem (x : string) (S : list string) : bool :=
  existsb (String.eqb x) S.

(** [sorted(l)] on strings.  Equal strings are indistinguishable, so every
    sorting algorithm returns the list Python's does. *)
Fixpoint insert_sorted (x : string) (l : list string) : list string :=
  match l with
  | [] => [x]
  | y :: l' => if String.leb x y then x :: l else y :: insert_sorted x l'
  end.

Fixpoint sorted (l : list string) : list string :=
  match l with
  | [] => []
  | x :: l' => insert_sorted x (sorted l')
  end.

End Str.

(** [str.lower] on ASCII strings: the instance at which the examples are
    computed. *)
#[global] Instance ascii_lowering : Str.Lowering | 100.
Proof.
  refine {| Str.lower := Str.ascii_lower |}.
  - intros s _. reflexivity.
  - intros s c. induction s as [|a s IH]; simpl; [intros []|].
    intros [<-|H]; [|apply IH; exact H].
    destruct a as [[] [] [] [] [] [] [] []]; reflexivity.
Defined.

(** ** Paths: [pathlib.PurePosixPath] and [os.path] *)

Definition sep : ascii := "/"%char.
Definition os_sep : string := "/".

(** A path is its root (["" ], ["/"] or ["//"]) and its segments. *)
Record Path : Type := mkPath { p_root : string; p_tail : list string }.

Module PathOps.

(** The root of a path string: two leading slashes exactly are kept as
    ["//"], any other number of leading slashes is ["/"]. *)
Definition root_of (s : string) : string :=
  match s with
  | String "/" (String "/" (String "/" _)) => "/"
  | String "/" (String "/" _) => "//"
  | String "/" _ => "/"
  | _ => ""
  end.

(** The segments of a path string: empty segments and ["."] are dropped. *)
Definition segments (s : string) : list string :=
  filter (fun x => negb (String.eqb x "") && negb (String.eqb x "."))
         (Str.split sep s).

(** [Path(s)] *)
Definition parse (s : string) : Path :=
  mkPath (root_of s) (segments s).

(** [p / key]: an absolute [key] replaces [p]. *)
Definition div (p : Path) (key : string) : Path :=
  match root_of key with
  | EmptyString => mkPath (p_root p) (p_tail p ++ segments key)
  | r => mkPath r (segments key)
  end.

(** [p.parts] *)
Definition parts (p : Path) : list string :=
  match p_root p with
  | EmptyString => p_tail p
  | r => r :: p_tail p
  end.

(** [p.name]: the last segment, [''] when there is none. *)
Definition name (p : Path) : string := last (p_tail p) "".

(** [p.suffix]: from the last dot of the name on, unless that dot opens
    or closes the name. *)
Definition suffix (p : Path) : string :=
  let nm := name p in
  let i := Str.rfind "."%char nm in
  if ((0 <? i) && (i <? Z.of_nat (String.length nm) - 1))%Z
  then Str.drop (Z.to_nat i) nm
  else "".

(** [str(p)] *)
Definition str (p : Path) : string :=
  match p_root p, p_tail p with
  | EmptyString, [] => "."
  | r, t => r ++ String.concat os_sep t
  end.

(** [os.path.join(a, b)] *)
Definition os_path_join (a b : string) : string :=
  if prefix os_sep b then b
  else if String.eqb a "" then b
  else if String.eqb (Str.drop (String.length a - 1) a) os_sep then a ++ b
  else a ++ os_sep ++ b.

(** [os.path.basename(s)]: what follows the last separator. *)
Definition basename (s : string) : string :=
  Str.drop (Z.to_nat (Str.rfind sep s + 1)) s.

End PathOps.

Notation "p // key" := (PathOps.div p key) (at level 40, left associativity).

(** ** Configuration: the rule tables *)

Definition IGNORED_DIRS : list string :=
  [ ".git"; "__pycache__"; "node_modules"; "venv"; ".venv";
    ".idea"; ".vscode"; "build"; "dist"; "docs";
    ".parcel-cache"; ".cache"; ".next"; ".husky"; ".pnpm-store";
    "coverage"; "tmp"; "temp"; ".terraform" ].

Definition IGNORED_EXTENSIONS : list string :=
  [ ".pyc"; ".pyo"; ".pyd"; ".so"; ".dll"; ".exe";
    ".png"; ".jpg"; ".jpeg"; ".gif"; ".bmp"; ".tiff"; ".ico";
    ".svg"; ".webp"; ".avif";
    ".zip"; ".tar"; ".gz"; ".rar"; ".7z";
    ".pdf";
    ".doc"; ".docx"; ".xls"; ".xlsx"; ".ppt"; ".pptx";
    ".db"; ".sqlite"; ".sqlite3";
    ".lock"; ".log";
    ".parquet"; ".h5"; ".hdf5"; ".pt"; ".onnx"; ".tif"; ".tiff";
    ".shp"; ".dbf"; ".nc" ].

Definition IGNORED_FILENAMES : list string :=
  [ "yarn.lock"; "pnpm-lock.yaml"; "package-lock.json";
    ".DS_Store"; ".env"; ".env.local"; ".env.production"; ".env.development";
    ".python-version"; ".tool-versions" ].

Definition MAX_FILE_SIZE_BYTES : Z := 2 * 1024 * 1024.

Definition ALLOWED_CODE_EXTENSIONS : list string :=
  [ ".py"; ".ts"; ".tsx"; ".js"; ".jsx"; ".java"; ".kt"; ".go";
    ".rs"; ".rb"; ".php"; ".c"; ".cc"; ".cpp"; ".h"; ".hpp";
    ".cs"; ".sql"; ".yml"; ".yaml"; ".toml"; ".ini"; ".cfg";
    ".prisma"; ".graphql"; ".gql"; ".md" ].

Definition SCHEMA_HINT_DIRS : list string :=
  [ "prisma"; "migrations"; "migration"; "db"; "database";
    "sql"; "schema"; "alembic"; "migrate"; "migrations_sql"; "liquibase"; "flyway" ].

Definition SCHEMA_HINT_NAMES : list string :=
  [ "schema.prisma"; "schema.sql"; "init.sql"; "migration.sql";
    "migration"; "migrations"; "entities"; "models"; "alembic.ini";
    "seeder"; "seed.sql"; "DDL.sql" ].

(** The set literals of [looks_like_schema_file] and [is_ignored]. *)
Definition ORM_DIRS : list string := [ "entities"; "entity"; "models"; "model" ].

Definition ORM_EXTENSIONS : list string :=
  [ ".ts"; ".js"; ".tsx"; ".jsx"; ".py"; ".rb"; ".java"; ".kt" ].

Definition BULK_DATA_EXTENSIONS : list string :=
  [ ".csv"; ".json"; ".jsonl"; ".ndjson"; ".geojson" ].

(** ** Exceptions *)

(** What Python code may raise: an [OSError] with its [errno], a
    [ValueError], or another exception. *)
Inductive exn : Type :=
| OSError (errno : Z)
| ValueError (msg : string)
| OtherException (msg : string).

(** A computation returns a value or raises. *)
Inductive result (A : Type) : Type :=
| Ok (a : A)
| Raise (e : exn).

Arguments Ok {A} a.
Arguments Raise {A} e.

Definition ret {A : Type} (a : A) : result A := Ok a.

Definition bind {A B : Type} (m : result A) (k : A -> result B) : result B :=
  match m with
  | Ok a => k a
  | Raise e => Raise e
  end.

(** [try: m  except Exception: h] *)
Definition try_except {A : Type} (m : result A) (h : exn -> result A) : result A :=
  match m with
  | Ok a => Ok a
  | Raise e => h e
  end.

Notation "x <- m ;; k" := (bind m (fun x => k))
  (at level 61, m at next level, right associativity).
Notation "' pat <- m ;; k" := (bind m (fun x => match x with pat => k end))
  (at level 61, pat pattern, m at next level, right associativity).

(** [for x in l: s = f(s, x)] *)
Fixpoint foldM {A S : Type} (f : S -> A -> result S) (l : list A) (s : S) : result S :=
  match l with
  | [] => ret s
  | x :: l' => s' <- f s x ;; foldM f l' s'
  end.

(** [[x for x in l if keep(x)]] *)
Fixpoint filterM {A : Type} (keep : A -> result bool) (l : list A) : result (list A) :=
  match l with
  | [] => ret []
  | x :: l' =>
      b <- keep x ;;
      r <- filterM keep l' ;;
      ret (if b then x :: r else r)
  end.

(** The computation returns, and what it returns satisfies [Q]. *)
Definition returns {A : Type} (m : result A) (Q : A -> Prop) : Prop :=
  match m with
  | Ok a => Q a
  | Raise _ => False
  end.

(** Whatever the computation returns satisfies [Q]. *)
Definition on_return {A : Type} (m : result A) (Q : A -> Prop) : Prop :=
  match m with
  | Ok a => Q a
  | Raise _ => True
  end.

(** ** The filesystem *)

(** What [os.stat] reports and the program reads: whether the path is a
    regular file ([S_ISREG(st_mode)]) and [st_size]. *)
Record stat_result : Type := mkStat { st_is_reg : bool; st_size : Z }.

(** The state of the filesystem: [stat], following symbolic links, succeeds
    or raises. *)
Definition FS : Type := Path -> result stat_result.

(** [path.stat()] *)
Definition stat (fs : FS) (path : Path) : result stat_result := fs path.

(** The error numbers [Path.is_file] takes for a missing path: pathlib's
    [_IGNORED_ERRNOS = (ENOENT, ENOTDIR, EBADF, ELOOP)], with the values these
    names have on Linux. *)
Definition ENOENT : Z := 2.
Definition ENOTDIR : Z := 20.
Definition EBADF : Z := 9.
Definition ELOOP : Z := 40.
Definition EACCES : Z := 13.
Definition EROFS : Z := 30.

Definition IGNORED_ERRNOS : list Z := [ENOENT; ENOTDIR; EBADF; ELOOP].

(** pathlib's [_ignore_error] *)
Definition ignore_error (errno : Z) : bool :=
  existsb (Z.eqb errno) IGNORED_ERRNOS.

(** [path.is_file()], as pathlib defines it in Python 3.11:
    [[
    try:
        return S_ISREG(self.stat().st_mode)
    except OSError as e:
        if not _ignore_error(e):
            raise
        return False
    except ValueError:
        return False
    ]]
    An [OSError] outside [IGNORED_ERRNOS] (a [PermissionError], say) and any
    exception that is neither an [OSError] nor a [ValueError] leave the
    method. *)
Definition is_file (fs : FS) (path : Path) : result bool :=
  try_except
    (st <- stat fs path ;; ret (st_is_reg st))
    (fun e => match e with
              | OSError errno => if ignore_error errno then ret false else Raise e
              | ValueError _ => ret false
              | OtherException _ => Raise e
              end).

(** ** The classifier *)

(** The loop [for key in keys: if key in name: return True], for the order
    [keys] in which the set is iterated. *)
Definition any_key_in (keys : list string) (name : string) : bool :=
  existsb (fun key => Str.contains key name) keys.

(** [looks_like_schema_file], iterating [SCHEMA_HINT_NAMES] in the order
    [keys]. *)
Definition looks_like_schema_file_iter {L : Str.Lowering}
    (keys : list string) (path : Path) : bool :=
  let name := Str.lower (PathOps.name path) in
  let parts := map Str.lower (PathOps.parts path) in
  if existsb (fun p => Str.mem p SCHEMA_HINT_DIRS) parts then true
  else if any_key_in keys name then true
  else if String.eqb (Str.lower (PathOps.suffix path)) ".sql" then true
  else if String.eqb (Str.lower (PathOps.suffix path)) ".prisma" then true
  else if existsb (fun seg => Str.mem seg parts) ORM_DIRS
       then Str.mem (Str.lower (PathOps.suffix path)) ORM_EXTENSIONS
  else false.

Definition looks_like_schema_file {L : Str.Lowering} (path : Path) : bool :=
  looks_like_schema_file_iter SCHEMA_HINT_NAMES path.

(** [is_large]: whatever [stat] raises is caught. *)
Definition is_large (fs : FS) (path : Path) : result bool :=
  try_except
    (st <- stat fs path ;; ret (MAX_FILE_SIZE_BYTES <? st_size st)%Z)
    (fun _ => ret false).

(** [is_ignored].  The two calls of [path.is_file()] are outside any [try]:
    what they raise leaves [is_ignored]. *)
Definition is_ignored {L : Str.Lowering}
    (fs : FS) (path : Path) (output_filename : string) : result bool :=
  if String.eqb (PathOps.name path) output_filename then ret true
  else if Str.mem (PathOps.name path) IGNORED_FILENAMES then ret true
  else if existsb (fun part => Str.mem part IGNORED_DIRS) (PathOps.parts path) then ret true
  else
    is_f <- is_file fs path ;;
    big <- (if is_f then is_large fs path else ret false) ;;
    if big then ret true
    else
      bulk <- (if Str.mem (Str.lower (PathOps.suffix path)) BULK_DATA_EXTENSIONS
               then if negb (looks_like_schema_file path) then ret true
                    else is_large fs path
               else ret false) ;;
      if bulk then ret true
      else
        is_f' <- is_file fs path ;;
        if is_f' && looks_like_schema_file path then ret false
        else if is_f'
                && negb (Str.mem (Str.lower (PathOps.suffix path)) ALLOWED_CODE_EXTENSIONS)
             then ret true
        else if Str.mem (Str.lower (PathOps.suffix path)) IGNORED_EXTENSIONS then ret true
        else ret false.

(** ** The directory walk: [os.walk] *)

#[local] Set Warnings "-register-all".

(** What [os.walk] finds under a directory.  [Scanned dirs files]: the
    directory could be listed; [dirs] are its entries that are directories
    (in the order the operating system yields them, each with what is found
    under it) and [files] the names of the other entries.  [NotWalked]: the
    walk yields nothing for this directory, because listing it fails or
    because it is a symbolic link, which the walk does not follow. *)
Inductive DirListing : Type :=
| Scanned (dirs : list (string * DirListing)) (files : list string)
| NotWalked.

Section Walk.

Context {S : Type}.

(** The body of the [for root, dirs, files in os.walk(...)] loop: from the
    state of the loop and the yielded triple, the new state and the content
    of the list [dirs] when the body ends.  The generator reads that same
    list object when it resumes. *)
Variable body : S -> string -> list string -> list string -> result (S * list string).

(** [os.walk(top, topdown=True)] driven by [body]: the triple of a directory
    is yielded before those of its subdirectories, and the walk goes down
    into the names left in [dirs], in their order.  A name that is not an
    entry of the directory cannot be listed and yields nothing. *)
Fixpoint os_walk (t : DirListing) (top : string) (st : S) {struct t} : result S :=
  match t with
  | NotWalked => ret st
  | Scanned children files =>
      '(st1, dirs') <- body st top (map fst children) files ;;
      foldM (fun s d =>
               (fix descend (cs : list (string * DirListing)) : result S :=
                  match cs with
                  | [] => ret s
                  | (n, sub) :: cs' =>
                      if String.eqb n d
                      then os_walk sub (PathOps.os_path_join top d) s
                      else descend cs'
                  end) children)
            dirs' st1
  end.

End Walk.

(** ** The tree builder *)

Definition nl : string := String (ascii_of_nat 10) "".

Definition DIR_MARK : string := "📂".
Definition FILE_MARK : string := "📄".
Definition SCHEMA_MARK : string := "🗄️".

(** The three accumulators of [generate_tree]. *)
Record walk_state : Type := mkState {
  tree_lines : list string;
  files_to_dump : list Path;
  schema_files : list Path
}.

Definition init_state : walk_state := mkState [] [] [].

(** [' ' * 4 * level] *)
Definition indent_of (level : nat) : string := Str.repeat " "%char (4 * level).

(** [root.replace(str(root_path), '').count(os.sep)] *)
Definition level_of (root_path : Path) (root : string) : nat :=
  Str.count sep (Str.remove_all (PathOps.str root_path) root).

(** One round of the loop [for f in sorted(files)]. *)
Definition visit_file {L : Str.Lowering}
    (fs : FS) (output_filename root : string) (sub_indent : string)
    (st : walk_state) (f : string) : result walk_state :=
  let file_path := PathOps.parse root // f in
  ign <- is_ignored fs file_path output_filename ;;
  if negb ign then
    let schema := looks_like_schema_file file_path in
    let mark := if schema then SCHEMA_MARK else FILE_MARK in
    ret (mkState (tree_lines st ++ [sub_indent ++ mark ++ " " ++ f])
                 (files_to_dump st ++ [file_path])
                 (if schema then schema_files st ++ [file_path] else schema_files st))
  else ret st.

(** The body of the loop over [os.walk]. *)
Definition visit {L : Str.Lowering} (fs : FS) (root_path : Path) (output_filename : string)
    (st : walk_state) (root : string) (dirs files : list string)
    : result (walk_state * list string) :=
  dirs' <- filterM (fun d => ign <- is_ignored fs (PathOps.parse root // d) output_filename ;;
                             ret (negb ign)) dirs ;;
  let level := level_of root_path root in
  let indent := indent_of level in
  let st1 :=
    if (0 <? level)%nat || String.eqb root (PathOps.str root_path) then
      let dir_name := PathOps.basename root in
      if negb (String.eqb dir_name "")
      then mkState (tree_lines st ++ [indent ++ DIR_MARK ++ " " ++ dir_name ++ "/"])
                   (files_to_dump st) (schema_files st)
      else st
    else st in
  let sub_indent := indent_of (level + 1) in
  st2 <- foldM (visit_file fs output_filename root sub_indent) (Str.sorted files) st1 ;;
  ret (st2, dirs').

(** The loop of [generate_tree], on the listing [tree] of [root_path]. *)
Definition generate_tree_loop {L : Str.Lowering}
    (fs : FS) (tree : DirListing) (root_path : Path)
    (output_filename : string) : result walk_state :=
  os_walk (visit fs root_path output_filename) tree (PathOps.str root_path) init_state.

Definition generate_tree {L : Str.Lowering} (fs : FS) (tree : DirListing) (root_path : Path)
    (output_filename : string) : result (string * list Path * list Path) :=
  st <- generate_tree_loop fs tree root_path output_filename ;;
  ret (String.concat nl (tree_lines st), files_to_dump st, schema_files st).

(** ** The program: [main] *)

(** [p.relative_to(other)]: the segments of [p] after those of [other];
    [ValueError] when [p] does not lie under [other]. *)
Fixpoint strip_prefix (pre l : list string) : option (list string) :=
  match pre, l with
  | [], _ => Some l
  | x :: pre', y :: l' => if String.eqb x y then strip_prefix pre' l' else None
  | _ :: _, [] => None
  end.

Definition relative_to (p other : Path) : result Path :=
  if String.eqb (p_root p) (p_root other) then
    match strip_prefix (p_tail other) (p_tail p) with
    | Some rest => Ok (mkPath "" rest)
    | None => Raise (ValueError "not in the subpath")
    end
  else Raise (ValueError "not in the subpath").

(** What [main] acts on: the lines still to be read from standard input,
    what was written to standard output, write by write, and the files
    opened for writing with what was written to them, the latest first. *)
Record World : Type := mkWorld {
  w_stdin : list string;
  w_stdout : list string;
  w_files : list (Path * string)
}.

(** What [main] reads from its surroundings: [stat], [Path.is_dir], what
    [os.walk] finds under a path, [Path.resolve], [Path.read_text], whether
    a file can be opened for writing, and [str(e)] for an exception. *)
Record Env : Type := mkEnv {
  env_stat : FS;
  env_is_dir : Path -> bool;
  env_scan : Path -> DirListing;
  env_resolve : Path -> Path;
  env_read_text : Path -> result string;
  env_open : Path -> result unit;
  env_str : exn -> string
}.

(** A command: from a world, a value or an exception, and the world left. *)
Definition IO (A : Type) : Type := World -> result A * World.

Definition io_ret {A : Type} (a : A) : IO A := fun w => (Ok a, w).

Definition io_bind {A B : Type} (m : IO A) (k : A -> IO B) : IO B :=
  fun w => match m w with
           | (Ok a, w') => k a w'
           | (Raise e, w') => (Raise e, w')
           end.

(** [try: m  except Exception as e: h(e)] *)
Definition io_try {A : Type} (m : IO A) (h : exn -> IO A) : IO A :=
  fun w => match m w with
           | (Ok a, w') => (Ok a, w')
           | (Raise e, w') => h e w'
           end.

(** A computation that only returns or raises. *)
Definition lift {A : Type} (r : result A) : IO A := fun w => (r, w).

Notation "x <~ m ;; k" := (io_bind m (fun x => k))
  (at level 61, m at next level, right associativity).
Notation "m ;;; k" := (io_bind m (fun _ => k))
  (at level 61, right associativity).

(** [for x in l: body(x)] *)
Fixpoint for_each {A : Type} (l : list A) (body : A -> IO unit) : IO unit :=
  match l with
  | [] => io_ret tt
  | x :: l' => body x ;;; for_each l' body
  end.

(** [input(prompt)]: the prompt goes to standard output and a line is read;
    [EOFError] when none is left. *)
Definition input (prompt : string) : IO string := fun w =>
  match w_stdin w with
  | [] => (Raise (OtherException "EOFError"),
           mkWorld [] (w_stdout w ++ [prompt]) (w_files w))
  | line :: rest => (Ok line, mkWorld rest (w_stdout w ++ [prompt]) (w_files w))
  end.

(** [print(s)] *)
Definition print (s : string) : IO unit := fun w =>
  (Ok tt, mkWorld (w_stdin w) (w_stdout w ++ [s ++ nl]) (w_files w)).

(** [open(path, "w", ...)]: the file is created empty, or the call raises. *)
Definition open_w (env : Env) (path : Path) : IO unit := fun w =>
  match env_open env path with
  | Ok _ => (Ok tt, mkWorld (w_stdin w) (w_stdout w) ((path, "") :: w_files w))
  | Raise e => (Raise e, w)
  end.

(** [f.write(s)] on the file opened last. *)
Definition f_write (s : string) : IO unit := fun w =>
  match w_files w with
  | (path, content) :: others =>
      (Ok tt, mkWorld (w_stdin w) (w_stdout w) ((path, content ++ s) :: others))
  | [] => (Ok tt, w)
  end.

(** [sorted(S)] for a set [S] given by a list of its elements. *)
Definition sorted_set (S : list string) : list string :=
  Str.sorted (nodup string_dec S).

(** [str(n)] for an integer. *)
Definition decimal (n : Z) : string :=
  DecimalString.NilZero.string_of_int (Z.to_int n).

Definition DIR_PROMPT : string :=
  "Please enter the path to the project directory (e.g., '.' for current): ".

Definition NAME_PROMPT : string :=
  "Enter the output file name (default: project_dump.txt): ".

Definition not_a_directory (project_dir_input : string) : string :=
  "❌ Error: The path '" ++ project_dir_input
  ++ "' is not a valid directory. Please try again.".

(** The loop [while True] of [main].  Every round reads a line, so [fuel]
    rounds are enough when fewer than [fuel] lines are left. *)
Fixpoint project_dir_loop (env : Env) (fuel : nat) : IO Path :=
  match fuel with
  | O => lift (Raise (OtherException "EOFError"))
  | S fuel' =>
      project_dir_input <~ input DIR_PROMPT ;;
      let project_path := PathOps.parse project_dir_input in
      if env_is_dir env project_path then io_ret project_path
      else print (not_a_directory project_dir_input) ;;; project_dir_loop env fuel'
  end.

Definition ask_project_dir (env : Env) : IO Path := fun w =>
  project_dir_loop env (S (List.length (w_stdin w))) w.

(** [output_filename_input if output_filename_input else "project_dump.txt"] *)
Definition output_filename_of (output_filename_input : string) : string :=
  if String.eqb output_filename_input "" then "project_dump.txt"
  else output_filename_input.

(** The body of the [with open(...) as f] block. *)
Definition write_report (env : Env) (project_path : Path) (tree_structure : string)
    (files_to_dump schema_files : list Path) : IO unit :=
  f_write ("Project: " ++ PathOps.name (env_resolve env project_path) ++ nl ++ nl) ;;;
  f_write ("--- REPO TREE STRUCTURE ---" ++ nl ++ nl) ;;;
  f_write tree_structure ;;;
  f_write (nl ++ nl ++ Str.repeat "="%char 80 ++ nl ++ nl) ;;;
  f_write ("--- LIKELY DB SCHEMA / MIGRATION FILES ---" ++ nl ++ nl) ;;;
  match schema_files with
  | _ :: _ =>
      for_each schema_files (fun p =>
        rel <~ lift (relative_to p project_path) ;;
        f_write ("- " ++ PathOps.str rel ++ nl))
  | [] => f_write ("(none detected)" ++ nl)
  end ;;;
  f_write (nl ++ Str.repeat "="%char 80 ++ nl ++ nl) ;;;
  f_write ("--- FILE CONTENTS ---" ++ nl ++ nl) ;;;
  for_each files_to_dump (fun file_path =>
    relative_path <~ lift (relative_to file_path project_path) ;;
    f_write (Str.repeat "="%char 20 ++ " FILE: " ++ PathOps.str relative_path ++ " "
             ++ Str.repeat "="%char 20 ++ nl ++ nl) ;;;
    io_try (content <~ lift (env_read_text env file_path) ;;
            f_write content ;;;
            f_write (nl ++ nl))
           (fun e => f_write ("[Could not read file: " ++ env_str env e ++ "]" ++ nl ++ nl))).

(** What [main] prints after the report is written. *)
Definition print_summary (env : Env) (project_path output_path : Path)
    (files_to_dump schema_files : list Path) : IO unit :=
  print (nl ++ "✅ Success! Project dump created at: "
         ++ PathOps.str (env_resolve env output_path)) ;;;
  print ("Total files processed: " ++ decimal (Z.of_nat (List.length files_to_dump))) ;;;
  match schema_files with
  | _ :: _ =>
      print "🗄️ Detected potential schema/migration files:" ;;;
      for_each schema_files (fun p =>
        rel <~ lift (relative_to p project_path) ;;
        print ("  - " ++ PathOps.str rel))
  | [] => print "ℹ️ No obvious schema/migration files detected."
  end.

(** The body of the [try] block of [main]. *)
Definition try_block {L : Str.Lowering}
    (env : Env) (project_path : Path) (output_filename : string)
    : IO unit :=
  r <~ lift (generate_tree (env_stat env) (env_scan env project_path)
               project_path output_filename) ;;
  let '(tree_structure, files_to_dump, schema_files) := r in
  let output_path := project_path // output_filename in
  open_w env output_path ;;;
  write_report env project_path tree_structure files_to_dump schema_files ;;;
  print_summary env project_path output_path files_to_dump schema_files.

Definition main {L : Str.Lowering} (env : Env) : IO unit :=
  project_path <~ ask_project_dir env ;;
  output_filename_input <~ input NAME_PROMPT ;;
  let output_filename := output_filename_of output_filename_input in
  print (nl ++ "🚀 Starting to process project directory: "
         ++ PathOps.str (env_resolve env project_path)) ;;;
  print ("Ignoring directories: " ++ String.concat ", " (sorted_set IGNORED_DIRS)) ;;;
  print ("Ignoring extensions: " ++ String.concat ", " (sorted_set IGNORED_EXTENSIONS)) ;;;
  print ("Max file size: " ++ decimal MAX_FILE_SIZE_BYTES ++ " bytes" ++ nl) ;;;
  io_try (try_block env project_path output_filename)
         (fun e => print ("❌ An unexpected error occurred: " ++ env_str env e)).

(** ** Notions used by the statements *)

(** The answer of [is_large], which always returns. *)
Definition large (fs : FS) (path : Path) : bool :=
  match is_large fs path with Ok b => b | Raise _ => false end.

(** [is_ignored] did not answer [False]: the path is not kept. *)
Definition ignored {L : Str.Lowering}
    (fs : FS) (path : Path) (output_filename : string) : bool :=
  match is_ignored fs path output_filename with Ok false => false | _ => true end.

(** Some segment of the path is the name of an ignored directory. *)
Definition has_ignored_dir (path : Path) : bool :=
  existsb (fun part => Str.mem part IGNORED_DIRS) (PathOps.parts path).

(** The three rules of [is_ignored] that read the path alone: the name is
    the output name or an ignored name, or a segment is an ignored
    directory. *)
Definition ignored_by_name (path : Path) (output_filename : string) : bool :=
  String.eqb (PathOps.name path) output_filename
  || Str.mem (PathOps.name path) IGNORED_FILENAMES
  || has_ignored_dir path.

(** [path.is_file()] returns on this path. *)
Definition examined (fs : FS) (path : Path) : Prop :=
  exists b, is_file fs path = Ok b.

(** The lowercased extension. *)
Definition ext {L : Str.Lowering} (path : Path) : string := Str.lower (PathOps.suffix path).

(** The seven rules of [is_ignored] as one disjunction, for the answer
    [is_f] of [path.is_file()]. *)
Definition verdict {L : Str.Lowering}
    (is_f : bool) (fs : FS) (path : Path) (output_filename : string) : bool :=
  ignored_by_name path output_filename
  || (is_f && large fs path)
  || (Str.mem (ext path) BULK_DATA_EXTENSIONS
      && (negb (looks_like_schema_file path) || large fs path))
  || (is_f && negb (looks_like_schema_file path)
      && negb (Str.mem (ext path) ALLOWED_CODE_EXTENSIONS))
  || (negb (is_f && looks_like_schema_file path)
      && Str.mem (ext path) IGNORED_EXTENSIONS).

(** A regular file larger than the limit. *)
Definition large_file (fs : FS) (path : Path) : Prop :=
  exists st, stat fs path = Ok st /\ st_is_reg st = true /\
             (MAX_FILE_SIZE_BYTES < st_size st)%Z.

(** The walk with a log: [traced body] runs [body] and records the
    directory whose triple was yielded. *)
Definition traced {S : Type}
    (body : S -> string -> list string -> list string -> result (S * list string))
    (sl : S * list string) (top : string) (dirs files : list string)
    : result ((S * list string) * list string) :=
  '(st', dirs') <- body (fst sl) top dirs files ;;
  ret ((st', (snd sl ++ [top])%list), dirs').

(** The directories [generate_tree] visits, in order. *)
Definition walked_dirs {L : Str.Lowering} (fs : FS) (tree : DirListing) (root_path : Path)
    (output_filename : string) : result (list string) :=
  r <- os_walk (traced (visit fs root_path output_filename)) tree
         (PathOps.str root_path) (init_state, []) ;;
  ret (snd r).

(** [s.lstrip(' ')] *)
Fixpoint lstrip_spaces (s : string) : string :=
  match s with
  | String " " s' => lstrip_spaces s'
  | _ => s
  end.

(** A tree line that shows a file: after its indentation comes one of the
    two file marks. *)
Definition is_file_line (line : string) : bool :=
  prefix FILE_MARK (lstrip_spaces line) || prefix SCHEMA_MARK (lstrip_spaces line).

(** The mark [generate_tree] gives a kept file. *)
Definition mark_of {L : Str.Lowering} (path : Path) : string :=
  if looks_like_schema_file path then SCHEMA_MARK else FILE_MARK.

(** [line] is the tree line of the kept file [path]: the file [f] of some
    directory [root], shown with its mark one level below that directory. *)
Definition file_line_of {L : Str.Lowering}
    (root_path : Path) (line : string) (path : Path) : Prop :=
  exists (root f : string),
    path = PathOps.parse root // f /\
    line = indent_of (level_of root_path root + 1) ++ mark_of path ++ " " ++ f.

(** [text.split("\n")]: the lines of a text. *)
Definition lines_of (text : string) : list string :=
  Str.split (ascii_of_nat 10) text.

(** The string holds no newline. *)
Definition one_line (s : string) : Prop := Str.count (ascii_of_nat 10) s = 0.

(** Two computations agree: both return, with related values, or both
    raise the same exception. *)
Definition result_rel {A B : Type} (R : A -> B -> Prop) (m1 : result A) (m2 : result B) : Prop :=
  match m1, m2 with
  | Ok a, Ok b => R a b
  | Raise e1, Raise e2 => e1 = e2
  | _, _ => False
  end.

(** The accumulators of [generate_tree] are consistent: the schema files are
    the schema-like kept files in their order, the file lines of the tree
    are the lines of the kept files in their order, and no kept file is
    ignored. *)
Definition tree_consistent {L : Str.Lowering}
    (fs : FS) (root_path : Path) (output_filename : string)
    (st : walk_state) : Prop :=
  schema_files st = filter looks_like_schema_file (files_to_dump st) /\
  Forall2 (file_line_of root_path) (filter is_file_line (tree_lines st)) (files_to_dump st) /\
  Forall (fun p => is_ignored fs p output_filename = Ok false) (files_to_dump st).

(** A directory the walk may visit: the root, or an entry [d] of a directory
    [parent] that [is_ignored] did not discard. *)
Definition admitted_dir {L : Str.Lowering}
    (fs : FS) (root_path : Path) (output_filename : string)
    (top : string) : Prop :=
  top = PathOps.str root_path \/
  exists parent d, top = PathOps.os_path_join parent d /\
                   is_ignored fs (PathOps.parse parent // d) output_filename = Ok false.

(** Every directory name and every file name of the listing satisfies [P]. *)
Inductive all_names (P : string -> Prop) : DirListing -> Prop :=
| all_names_not_walked : all_names P NotWalked
| all_names_scanned (children : list (string * DirListing)) (files : list string) :
    Forall (fun c => P (fst c) /\ all_names P (snd c)) children ->
    Forall P files ->
    all_names P (Scanned children files).

(** The listing with everything beneath an ignored directory name removed:
    the entry stays, what it holds is forgotten. *)
Fixpoint prune (t : DirListing) : DirListing :=
  match t with
  | NotWalked => NotWalked
  | Scanned children files =>
      Scanned (map (fun c => match c with
                             | (n, sub) =>
                                 (n, if Str.mem n IGNORED_DIRS then NotWalked else prune sub)
                             end) children)
              files
  end.

(** ** The walk, directory by directory *)

(** What the walk contributes for one visited directory: its path string,
    its depth below the root and the names of its files that are kept, in
    the order in which they are kept. *)
Record block : Type := mkBlock {
  b_top : string;
  b_depth : nat;
  b_names : list string
}.

(** The files of a directory that the loop over [sorted(files)] keeps:
    those for which [is_ignored] answers [False]. *)
Definition kept_names {L : Str.Lowering}
    (fs : FS) (output_filename top : string) (files : list string)
    : list string :=
  filter (fun f => negb (ignored fs (PathOps.parse top // f) output_filename))
         (Str.sorted files).

(** The visited directories in the order of the walk: a directory, then what
    lies under each of its entries for which [is_ignored] answers [False],
    entry by entry. *)
Fixpoint walk_blocks {L : Str.Lowering} (fs : FS) (output_filename : string) (t : DirListing)
    (top : string) (depth : nat) : list block :=
  match t with
  | NotWalked => []
  | Scanned children files =>
      mkBlock top depth (kept_names fs output_filename top files) ::
      flat_map (fun c => match c with
                         | (n, sub) =>
                             if ignored fs (PathOps.parse top // n) output_filename then []
                             else walk_blocks fs output_filename sub
                                    (PathOps.os_path_join top n) (S depth)
                         end) children
  end.

(** The tree line of a directory, when the loop draws one. *)
Definition dir_lines (root_path : Path) (top : string) : list string :=
  if (0 <? level_of root_path top)%nat || String.eqb top (PathOps.str root_path) then
    if negb (String.eqb (PathOps.basename top) "")
    then [indent_of (level_of root_path top) ++ DIR_MARK ++ " " ++ PathOps.basename top ++ "/"]
    else []
  else [].

(** The tree line of the kept file [f] of the directory [top]. *)
Definition file_line {L : Str.Lowering} (root_path : Path) (top f : string) : string :=
  indent_of (level_of root_path top + 1) ++ mark_of (PathOps.parse top // f) ++ " " ++ f.

Definition block_lines {L : Str.Lowering} (root_path : Path) (b : block) : list string :=
  (dir_lines root_path (b_top b) ++ map (file_line root_path (b_top b)) (b_names b))%list.

Definition block_paths (b : block) : list Path :=
  map (fun f => PathOps.parse (b_top b) // f) (b_names b).

(** The accumulators that a list of blocks amounts to. *)
Definition state_of_blocks {L : Str.Lowering}
    (root_path : Path) (bs : list block) : walk_state :=
  mkState (flat_map (block_lines root_path) bs)
          (flat_map block_paths bs)
          (filter looks_like_schema_file (flat_map block_paths bs)).

(** The accumulators [st] followed by those of [d]. *)
Definition append_state (st d : walk_state) : walk_state :=
  mkState (tree_lines st ++ tree_lines d)
          (files_to_dump st ++ files_to_dump d)
          (schema_files st ++ schema_files d).

(** A listing as a filesystem gives it: no directory lists a name twice
    among its subdirectories. *)
Inductive unique_names : DirListing -> Prop :=
| unique_not_walked : unique_names NotWalked
| unique_scanned (children : list (string * DirListing)) (files : list string) :
    NoDup (map fst children) ->
    Forall (fun c => unique_names (snd c)) children ->
    unique_names (Scanned children files).

(** The names ascend in the order of [sorted]. *)
Definition ascending (names : list string) : Prop :=
  StronglySorted (fun a b => String.leb a b = true) names.

(** [lists fs out t top dir f]: walking [t] from [top], the file [f] is
    listed in the directory [dir], and no directory entry on the way from
    [top] down to [dir] is ignored. *)
Inductive lists {L : Str.Lowering} (fs : FS) (output_filename : string)
    : DirListing -> string -> string -> string -> Prop :=
| lists_here (children : list (string * DirListing)) (files : list string)
    (top f : string) :
    In f files ->
    lists fs output_filename (Scanned children files) top top f
| lists_below (children : list (string * DirListing)) (files : list string)
    (top n : string) (sub : DirListing) (dir f : string) :
    In (n, sub) children ->
    is_ignored fs (PathOps.parse top // n) output_filename = Ok false ->
    lists fs output_filename sub (PathOps.os_path_join top n) dir f ->
    lists fs output_filename (Scanned children files) top dir f.

(** A name as a directory lists it: not empty, without separator. *)
Definition clean_name (name : string) : Prop :=
  name <> "" /\ Str.count sep name = 0.

(** A listing all of whose names are clean. *)
Inductive clean_names : DirListing -> Prop :=
| clean_not_walked : clean_names NotWalked
| clean_scanned (children : list (string * DirListing)) (files : list string) :
    Forall (fun c => clean_name (fst c) /\ clean_names (snd c)) children ->
    Forall clean_name files ->
    clean_names (Scanned children files).

(** The lines of a block drawn at its depth: the directory, then its kept
    files one level deeper. *)
Definition block_lines_at_depth {L : Str.Lowering} (b : block) : list string :=
  (indent_of (b_depth b) ++ DIR_MARK ++ " " ++ PathOps.basename (b_top b) ++ "/") ::
  map (fun f => indent_of (b_depth b + 1) ++ mark_of (PathOps.parse (b_top b) // f)
                ++ " " ++ f)
      (b_names b).

(** A path string that [os.path.join] extends with a separator: not empty
    and not ending with one. *)
Definition open_ended (top : string) : Prop :=
  top <> "" /\ String.eqb (Str.drop (String.length top - 1) top) os_sep = false.

(** A segment of a parsed path: not empty, not [.], without separator. *)
Definition segment (w : string) : Prop :=
  w <> "" /\ w <> "." /\ Str.count sep w = 0.

(** What the prompt loop writes for the rejected answers [bad]: for each,
    the prompt and the complaint. *)
Definition rejections (bad : list string) : list string :=
  flat_map (fun l => [DIR_PROMPT; not_a_directory l ++ nl]) bad.

(** ** The report, in closed form *)

(** The strings of a list, one after the other. *)
Definition concat_all (l : list string) : string := fold_right append "" l.

(** The path of [p] below the project directory, as the report shows it. *)
Definition relative_str (project_path p : Path) : string :=
  match relative_to p project_path with
  | Ok rel => PathOps.str rel
  | Raise _ => ""
  end.

(** The section of one kept file: its header, then its content or the note
    that it could not be read. *)
Definition file_section (env : Env) (project_path p : Path) : string :=
  (Str.repeat "="%char 20 ++ " FILE: " ++ relative_str project_path p ++ " "
   ++ Str.repeat "="%char 20 ++ nl ++ nl)
  ++ match env_read_text env p with
     | Ok content => content ++ (nl ++ nl)
     | Raise e => "[Could not read file: " ++ env_str env e ++ "]" ++ nl ++ nl
     end.

Definition schema_section (project_path : Path) (schema_files : list Path) : string :=
  match schema_files with
  | [] => "(none detected)" ++ nl
  | _ => concat_all (map (fun p => "- " ++ relative_str project_path p ++ nl) schema_files)
  end.

Definition report_text (env : Env) (project_path : Path) (tree_structure : string)
    (files_to_dump schema_files : list Path) : string :=
  ("Project: " ++ PathOps.name (env_resolve env project_path) ++ nl ++ nl)
  ++ ("--- REPO TREE STRUCTURE ---" ++ nl ++ nl)
  ++ tree_structure
  ++ (nl ++ nl ++ Str.repeat "="%char 80 ++ nl ++ nl)
  ++ ("--- LIKELY DB SCHEMA / MIGRATION FILES ---" ++ nl ++ nl)
  ++ schema_section project_path schema_files
  ++ (nl ++ Str.repeat "="%char 80 ++ nl ++ nl)
  ++ ("--- FILE CONTENTS ---" ++ nl ++ nl)
  ++ concat_all (map (file_section env project_path) files_to_dump).

(** What [main] prints between the prompts and the traversal. *)
Definition banner (env : Env) (project_path : Path) : list string :=
  [ (nl ++ "🚀 Starting to process project directory: "
     ++ PathOps.str (env_resolve env project_path)) ++ nl;
    ("Ignoring directories: " ++ String.concat ", " (sorted_set IGNORED_DIRS)) ++ nl;
    ("Ignoring extensions: " ++ String.concat ", " (sorted_set IGNORED_EXTENSIONS)) ++ nl;
    ("Max file size: " ++ decimal MAX_FILE_SIZE_BYTES ++ " bytes" ++ nl) ++ nl ].

(** What [main] prints after a report was written. *)
Definition summary (env : Env) (project_path output_path : Path)
    (files_to_dump schema_files : list Path) : list string :=
  [ (nl ++ "✅ Success! Project dump created at: "
     ++ PathOps.str (env_resolve env output_path)) ++ nl;
    ("Total files processed: " ++ decimal (Z.of_nat (List.length files_to_dump))) ++ nl ]
  ++ match schema_files with
     | [] => [ "ℹ️ No obvious schema/migration files detected." ++ nl ]
     | _ => ("🗄️ Detected potential schema/migration files:" ++ nl)
            :: map (fun p => ("  - " ++ relative_str project_path p) ++ nl) schema_files
     end.

(** What [main] prints when the traversal or the writing raised [e]. *)
Definition failure_note_text (env : Env) (e : exn) : string :=
  "❌ An unexpected error occurred: " ++ env_str env e.

Definition failure_note (env : Env) (e : exn) : string :=
  failure_note_text env e ++ nl.


(** ** Filesystems for the examples *)

(** Every path is a regular file of [n] bytes. *)
Definition files_of_size (n : Z) : FS := fun _ => Ok (mkStat true n).

(** No path exists any more: every [stat] fails with [ENOENT]. *)
Definition vanished : FS := fun _ => Raise (OSError ENOENT).

(** Every [stat] is refused: [PermissionError]. *)
Definition unreadable : FS := fun _ => Raise (OSError EACCES).

(** Every path is a directory. *)
Definition only_dirs : FS := fun _ => Ok (mkStat false 4096).

(** The project of the end-to-end scenario of the specification:
    [migrations/001_init.sql], [src/app.py], [node_modules/pkg/index.js] and
    [image.png]. *)
Definition scenario_tree : DirListing :=
  Scanned [ ("migrations", Scanned [] ["001_init.sql"]);
            ("src", Scanned [] ["app.py"]);
            ("node_modules", Scanned [("pkg", Scanned [] ["index.js"])] []) ]
          ["image.png"].

Definition scenario_fs : FS := fun p =>
  if Str.mem (PathOps.name p) ["proj"; "migrations"; "src"; "node_modules"; "pkg"]
  then Ok (mkStat false 4096)
  else Ok (mkStat true 20).

(** The surroundings of the end-to-end scenario: [proj] is the only
    directory that can be named, [src/app.py] can be read and
    [migrations/001_init.sql] cannot. *)
Definition scenario_env : Env :=
  mkEnv scenario_fs
        (fun p => String.eqb (PathOps.str p) "proj")
        (fun _ => scenario_tree)
        (fun p => mkPath "/" ("home" :: "dev" :: p_tail p))
        (fun p => if String.eqb (PathOps.name p) "app.py" then Ok "import os"
                  else Raise (OSError EACCES))
        (fun _ => Ok tt)
        (fun _ => "Permission denied").

(** The same surroundings with a project directory that cannot be written. *)
Definition read_only_env : Env :=
  mkEnv scenario_fs
        (fun p => String.eqb (PathOps.str p) "proj")
        (fun _ => scenario_tree)
        (fun p => mkPath "/" ("home" :: "dev" :: p_tail p))
        (fun _ => Ok "")
        (fun _ => Raise (OSError EROFS))
        (fun _ => "Read-only file system").

(** The same surroundings with a project whose entries cannot be examined:
    every [stat] is refused. *)
Definition locked_env : Env :=
  mkEnv unreadable
        (fun p => String.eqb (PathOps.str p) "proj")
        (fun _ => scenario_tree)
        (fun p => mkPath "/" ("home" :: "dev" :: p_tail p))
        (fun _ => Ok "")
        (fun _ => Ok tt)
        (fun _ => "Permission denied").

(** * Properties *)

(** ** The [result] monad *)

Lemma returns_ret {A : Type} (a : A) (Q : A -> Prop) : Q a -> returns (ret a) Q.
Proof. intro H; exact H. Qed.

Lemma returns_bind {A B : Type} (m : result A) (k : A -> result B) (Q : B -> Prop) :
  returns m (fun a => returns (k a) Q) -> returns (bind m k) Q.
Proof. destruct m as [a|e]; simpl; auto. Qed.

Lemma returns_mono {A : Type} (m : result A) (P Q : A -> Prop) :
  (forall a, P a -> Q a) -> returns m P -> returns m Q.
Proof. destruct m as [a|e]; simpl; auto. Qed.

Lemma returns_Ok {A : Type} (m : result A) (Q : A -> Prop) :
  returns m Q <-> exists a, m = Ok a /\ Q a.
Proof.
  destruct m as [a|e]; simpl; split.
  - intro H; exists a; auto.
  - intros [a' [E H]]; injection E as ->; exact H.
  - intros [].
  - intros [a' [E _]]; discriminate.
Qed.

Lemma foldM_invariant {A S : Type} (f : S -> A -> result S) (I : S -> Prop) (R : A -> Prop) :
  (forall s x, I s -> R x -> returns (f s x) I) ->
  forall l s, Forall R l -> I s -> returns (foldM f l s) I.
Proof.
  intros Hf l; induction l as [|x l IH]; intros s HR Hs; simpl.
  - exact Hs.
  - inversion HR as [|? ? Hx Hl]; subst.
    apply returns_bind.
    apply returns_mono with (P := I); [|apply Hf; assumption].
    intros s' Hs'; apply IH; assumption.
Qed.

Lemma on_return_bind {A B : Type} (m : result A) (k : A -> result B) (Q : B -> Prop) :
  on_return m (fun a => on_return (k a) Q) -> on_return (bind m k) Q.
Proof. destruct m as [a|e]; simpl; auto. Qed.

Lemma on_return_mono {A : Type} (m : result A) (P Q : A -> Prop) :
  (forall a, P a -> Q a) -> on_return m P -> on_return m Q.
Proof. destruct m as [a|e]; simpl; auto. Qed.

Lemma on_return_Ok {A : Type} (m : result A) (Q : A -> Prop) :
  on_return m Q <-> forall a, m = Ok a -> Q a.
Proof.
  destruct m as [a|e]; simpl; split.
  - intros H a' E; injection E as <-; exact H.
  - intro H; apply H; reflexivity.
  - intros _ a' E; discriminate.
  - intros _; exact I.
Qed.

Lemma returns_on_return {A : Type} (m : result A) (Q : A -> Prop) :
  returns m Q -> on_return m Q.
Proof. destruct m as [a|e]; simpl; [auto | intros []]. Qed.

Lemma returns_split {A : Type} (m : result A) (Q : A -> Prop) :
  (exists a, m = Ok a) -> on_return m Q -> returns m Q.
Proof. intros [a ->]; simpl; auto. Qed.

Lemma bind_Ok {A B : Type} (m : result A) (k : A -> result B) (b : B) :
  bind m k = Ok b -> exists a, m = Ok a /\ k a = Ok b.
Proof. destruct m as [a|e]; simpl; intro H; [exists a; auto | discriminate]. Qed.

Lemma foldM_on_return {A S : Type} (f : S -> A -> result S) (I : S -> Prop) (R : A -> Prop) :
  (forall s x, I s -> R x -> on_return (f s x) I) ->
  forall l s, Forall R l -> I s -> on_return (foldM f l s) I.
Proof.
  intros Hf l; induction l as [|x l IH]; intros s HR Hs; simpl.
  - exact Hs.
  - inversion HR as [|? ? Hx Hl]; subst.
    apply on_return_bind.
    apply on_return_mono with (P := I); [|apply Hf; assumption].
    intros s' Hs'; apply IH; assumption.
Qed.

Lemma foldM_ext {A S : Type} (f g : S -> A -> result S) :
  (forall s x, f s x = g s x) -> forall l s, foldM f l s = foldM g l s.
Proof.
  intros E l; induction l as [|x l IH]; intro s; simpl; [reflexivity|].
  rewrite E; destruct (g s x); simpl; auto.
Qed.

Lemma filterM_pure {A : Type} (keep : A -> result bool) (kb : A -> bool) :
  (forall x, keep x = Ok (kb x)) ->
  forall l, filterM keep l = Ok (filter kb l).
Proof.
  intros E l; induction l as [|x l IH]; simpl; [reflexivity|].
  rewrite E, IH; simpl. destruct (kb x); reflexivity.
Qed.

(** A comprehension that returns kept the elements its test answered
    [True] for, and the test returned on every element. *)
Lemma filterM_returned {A : Type} (keep : A -> result bool) (l r : list A) :
  filterM keep l = Ok r ->
  Forall (fun x => exists b, keep x = Ok b) l /\
  r = filter (fun x => match keep x with Ok true => true | _ => false end) l.
Proof.
  revert r; induction l as [|x l IH]; intros r; simpl.
  - intro E; injection E as <-; split; [constructor | reflexivity].
  - intro E. apply bind_Ok in E as [b [Eb E]].
    apply bind_Ok in E as [r' [Er E]]. injection E as <-.
    destruct (IH r' Er) as [Hall ->]. rewrite Eb. split.
    + constructor; [exists b; exact Eb | exact Hall].
    + destruct b; reflexivity.
Qed.

Lemma filterM_ext {A : Type} (f g : A -> result bool) :
  (forall x, f x = g x) -> forall l, filterM f l = filterM g l.
Proof.
  intros E l; induction l as [|x l IH]; simpl; [reflexivity|].
  rewrite E, IH; reflexivity.
Qed.

(** ** Sets and strings *)

Lemma mem_In (x : string) (S : list string) : Str.mem x S = true <-> In x S.
Proof.
  unfold Str.mem; rewrite existsb_exists; split.
  - intros [y [Hy E]]; apply String.eqb_eq in E; subst; exact Hy.
  - intro H; exists x; split; [exact H | apply String.eqb_refl].
Qed.

Lemma existsb_Permutation {A : Type} (f : A -> bool) (l1 l2 : list A) :
  Permutation l1 l2 -> existsb f l1 = existsb f l2.
Proof.
  induction 1 as [|x l l' _ IH|x y l|l l' l'' _ IH1 _ IH2]; simpl.
  - reflexivity.
  - rewrite IH; reflexivity.
  - destruct (f x), (f y); reflexivity.
  - rewrite IH1; exact IH2.
Qed.

Lemma length_app (a b : string) :
  String.length (a ++ b) = String.length a + String.length b.
Proof. induction a as [|x a IH]; simpl; [reflexivity | rewrite IH; reflexivity]. Qed.

Lemma count_app (c : ascii) (a b : string) :
  Str.count c (a ++ b) = Str.count c a + Str.count c b.
Proof.
  induction a as [|x a IH]; simpl; [reflexivity|].
  rewrite IH. apply Nat.add_assoc.
Qed.

Lemma drop_app (a b : string) (k : nat) :
  Str.drop (String.length a + k) (a ++ b) = Str.drop k b.
Proof. induction a as [|x a IH]; simpl; [reflexivity | exact IH]. Qed.

Lemma count_drop (c : ascii) (s : string) (k : nat) :
  Str.count c s = 0 -> Str.count c (Str.drop k s) = 0.
Proof.
  revert k. induction s as [|x s IH]; intros k H.
  - destruct k; reflexivity.
  - destruct k as [|k]; [exact H|].
    simpl. apply IH. simpl in H.
    destruct (Ascii.eqb x c); [discriminate | exact H].
Qed.

Lemma split_not_nil (c : ascii) (s : string) : Str.split c s <> [].
Proof.
  destruct s as [|a s]; simpl; [discriminate|].
  destruct (Ascii.eqb a c); [discriminate|].
  destruct (Str.split c s); discriminate.
Qed.

Lemma split_app_sep (c : ascii) (a b : string) :
  Str.split c (a ++ String c b) = (Str.split c a ++ Str.split c b)%list.
Proof.
  induction a as [|x a IH].
  - simpl. rewrite Ascii.eqb_refl. reflexivity.
  - cbn [append Str.split]. rewrite IH.
    destruct (Ascii.eqb x c); [reflexivity|].
    destruct (Str.split c a) as [|w ws] eqn:E; [|reflexivity].
    exfalso; exact (split_not_nil c a E).
Qed.

Lemma split_plain (c : ascii) (s : string) :
  Str.count c s = 0 -> Str.split c s = [s].
Proof.
  induction s as [|a s IH]; simpl; [reflexivity|].
  destruct (Ascii.eqb a c); [discriminate|].
  intro H. rewrite (IH H). reflexivity.
Qed.

Lemma split_pieces (c : ascii) (s : string) :
  Forall (fun w => Str.count c w = 0) (Str.split c s).
Proof.
  induction s as [|a s IH]; simpl; [repeat constructor|].
  destruct (Ascii.eqb a c) eqn:E; [constructor; [reflexivity | exact IH]|].
  destruct (Str.split c s) as [|w ws]; [repeat constructor; simpl; rewrite E; reflexivity|].
  inversion IH as [|? ? Hw Hws]; subst.
  constructor; [simpl; rewrite E; exact Hw | exact Hws].
Qed.

Lemma insert_sorted_Permutation (x : string) (l : list string) :
  Permutation (Str.insert_sorted x l) (x :: l).
Proof.
  induction l as [|z l IH]; simpl; [reflexivity|].
  destruct (String.leb x z); [reflexivity|].
  rewrite IH. apply perm_swap.
Qed.

Lemma sorted_Permutation (l : list string) : Permutation (Str.sorted l) l.
Proof.
  induction l as [|x l IH]; simpl; [constructor|].
  rewrite insert_sorted_Permutation, IH. reflexivity.
Qed.

(** [str.lower] of an ASCII literal is computed. *)
Ltac lower_literals :=
  repeat match goal with
         | |- context [@Str.lower ?L ?s] =>
             rewrite (@Str.lower_of_ascii L s eq_refl)
         end.

(** Evaluation of a goal in which [str.lower] is applied to ASCII literals
    only. *)
Ltac compute_lower := cbv -[Str.lower]; lower_literals; vm_compute.

(** A string that is not in a rule table: the membership test computes. *)
Ltac not_in_table :=
  let H := fresh "H" in
  intro H; apply mem_In in H; vm_compute in H; discriminate.

(** ** What the classifier answers, and when it raises *)

Lemma is_large_Ok (fs : FS) (path : Path) : is_large fs path = Ok (large fs path).
Proof.
  unfold large, is_large, try_except, stat.
  destruct (fs path) as [st|e]; reflexivity.
Qed.

Lemma large_stat (fs : FS) (path : Path) :
  large fs path =
  match stat fs path with
  | Ok st => (MAX_FILE_SIZE_BYTES <? st_size st)%Z
  | Raise _ => false
  end.
Proof.
  unfold large, is_large, try_except, stat.
  destruct (fs path) as [st|e]; reflexivity.
Qed.

(** [path.is_file()], outcome of [stat] by outcome. *)
Lemma is_file_cases (fs : FS) (path : Path) :
  is_file fs path =
  match stat fs path with
  | Ok st => Ok (st_is_reg st)
  | Raise (OSError errno) =>
      if ignore_error errno then Ok false else Raise (OSError errno)
  | Raise (ValueError _) => Ok false
  | Raise (OtherException msg) => Raise (OtherException msg)
  end.
Proof.
  unfold is_file, try_except, stat.
  destruct (fs path) as [st|[errno|msg|msg]]; reflexivity.
Qed.

Lemma is_file_of_stat (fs : FS) (path : Path) (st : stat_result) :
  stat fs path = Ok st -> is_file fs path = Ok (st_is_reg st).
Proof. intro E; rewrite is_file_cases, E; reflexivity. Qed.

Lemma examined_of_stat (fs : FS) (path : Path) (st : stat_result) :
  stat fs path = Ok st -> examined fs path.
Proof. intro E; exists (st_is_reg st); apply is_file_of_stat; exact E. Qed.

(** The rules of [is_ignored]: the three that read the path alone, then
    [path.is_file()], then the four that depend on its answer. *)
Lemma is_ignored_rules {L : Str.Lowering} (fs : FS) (path : Path) (out : string) :
  is_ignored fs path out =
  if ignored_by_name path out then Ok true
  else is_f <- is_file fs path ;; Ok (verdict is_f fs path out).
Proof.
  unfold verdict, ignored_by_name, is_ignored, has_ignored_dir, ext.
  rewrite !is_large_Ok.
  destruct (String.eqb _ out); [reflexivity|].
  destruct (Str.mem (PathOps.name path) IGNORED_FILENAMES); [reflexivity|].
  destruct (existsb _ (PathOps.parts path)); [reflexivity|].
  destruct (is_file fs path) as [is_f|e]; [|reflexivity].
  destruct is_f, (large fs path),
    (Str.mem (Str.lower (PathOps.suffix path)) BULK_DATA_EXTENSIONS),
    (looks_like_schema_file path),
    (Str.mem (Str.lower (PathOps.suffix path)) ALLOWED_CODE_EXTENSIONS),
    (Str.mem (Str.lower (PathOps.suffix path)) IGNORED_EXTENSIONS); reflexivity.
Qed.

Lemma verdict_by_name {L : Str.Lowering} (is_f : bool) (fs : FS) (path : Path) (out : string) :
  ignored_by_name path out = true -> verdict is_f fs path out = true.
Proof. intro H; unfold verdict; rewrite H; reflexivity. Qed.

(** A path ignored for its name is ignored whatever [stat] does. *)
Lemma is_ignored_by_name {L : Str.Lowering} (fs : FS) (path : Path) (out : string) :
  ignored_by_name path out = true -> is_ignored fs path out = Ok true.
Proof. intro H; rewrite is_ignored_rules, H; reflexivity. Qed.

(** Where [path.is_file()] returns, so does [is_ignored]. *)
Lemma is_ignored_examined {L : Str.Lowering}
    (fs : FS) (path : Path) (out : string) (is_f : bool) :
  is_file fs path = Ok is_f -> is_ignored fs path out = Ok (verdict is_f fs path out).
Proof.
  intro E; rewrite is_ignored_rules, E.
  destruct (ignored_by_name path out) eqn:H; [|reflexivity].
  rewrite verdict_by_name by exact H; reflexivity.
Qed.

(** Where it raises and no rule on the name applies, [is_ignored] raises
    the same exception. *)
Lemma is_ignored_raises {L : Str.Lowering} (fs : FS) (path : Path) (out : string) (e : exn) :
  ignored_by_name path out = false ->
  is_file fs path = Raise e -> is_ignored fs path out = Raise e.
Proof. intros H E; rewrite is_ignored_rules, H, E; reflexivity. Qed.

(** What [is_ignored] returns is the verdict of the seven rules. *)
Lemma is_ignored_returned {L : Str.Lowering} (fs : FS) (path : Path) (out : string) (b : bool) :
  is_ignored fs path out = Ok b ->
  exists is_f, b = verdict is_f fs path out /\
               (ignored_by_name path out = false -> is_file fs path = Ok is_f).
Proof.
  rewrite is_ignored_rules.
  destruct (ignored_by_name path out) eqn:H.
  - intro E; injection E as <-; exists false.
    split; [symmetry; apply verdict_by_name; exact H | discriminate].
  - destruct (is_file fs path) as [is_f|e]; simpl; [|discriminate].
    intro E; injection E as <-; exists is_f; auto.
Qed.

Lemma is_ignored_total {L : Str.Lowering} (fs : FS) (path : Path) (out : string) :
  examined fs path -> exists b, is_ignored fs path out = Ok b.
Proof. intros [is_f E]; eexists; apply is_ignored_examined; exact E. Qed.

Lemma ignored_Ok {L : Str.Lowering} (fs : FS) (path : Path) (out : string) (b : bool) :
  is_ignored fs path out = Ok b -> ignored fs path out = b.
Proof. unfold ignored; intros ->; destruct b; reflexivity. Qed.

Lemma ignored_false {L : Str.Lowering} (fs : FS) (path : Path) (out : string) :
  ignored fs path out = false <-> is_ignored fs path out = Ok false.
Proof.
  unfold ignored; destruct (is_ignored fs path out) as [[|]|e]; split;
    congruence.
Qed.

(** The comprehension [[d for d in dirs if not is_ignored(..)]], when it
    returns: the test returned on every entry and the entries answered
    [False] were kept. *)
Lemma not_ignored_filter {L : Str.Lowering} (fs : FS) (out : string) (at_ : string -> Path)
    (l r : list string) :
  filterM (fun d => b <- is_ignored fs (at_ d) out ;; ret (negb b)) l = Ok r ->
  Forall (fun d => exists b, is_ignored fs (at_ d) out = Ok b) l /\
  r = filter (fun d => negb (ignored fs (at_ d) out)) l.
Proof.
  intro E. apply filterM_returned in E as [Hall ->]. split.
  - eapply Forall_impl; [|exact Hall]. cbv beta.
    intros d [b Hb]. apply bind_Ok in Hb as [b' [Hb' _]]. exists b'; exact Hb'.
  - apply filter_ext. intro d. unfold ignored.
    destruct (is_ignored fs (at_ d) out) as [[|]|e]; reflexivity.
Qed.

(** The four hints of [looks_like_schema_file] as one disjunction. *)
Lemma schema_rules {L : Str.Lowering} (keys : list string) (path : Path) :
  looks_like_schema_file_iter keys path =
  existsb (fun p => Str.mem p SCHEMA_HINT_DIRS) (map Str.lower (PathOps.parts path))
  || any_key_in keys (Str.lower (PathOps.name path))
  || String.eqb (ext path) ".sql"
  || String.eqb (ext path) ".prisma"
  || (existsb (fun seg => Str.mem seg (map Str.lower (PathOps.parts path))) ORM_DIRS
      && Str.mem (ext path) ORM_EXTENSIONS).
Proof.
  unfold looks_like_schema_file_iter, ext.
  destruct (existsb _ (map Str.lower (PathOps.parts path))); [reflexivity|].
  destruct (any_key_in keys _); [reflexivity|].
  destruct (String.eqb _ ".sql"); [reflexivity|].
  destruct (String.eqb _ ".prisma"); [reflexivity|].
  destruct (existsb _ ORM_DIRS); reflexivity.
Qed.

(** ** Reading the rules *)

Lemma is_file_stat (fs : FS) (path : Path) :
  is_file fs path = Ok true <-> exists st, stat fs path = Ok st /\ st_is_reg st = true.
Proof.
  rewrite is_file_cases; destruct (stat fs path) as [st|[errno|msg|msg]]; split.
  - intro H; injection H as H; exists st; auto.
  - intros [st' [E H]]; injection E as ->; rewrite H; reflexivity.
  - destruct (ignore_error errno); discriminate.
  - intros [st' [E _]]; discriminate.
  - discriminate.
  - intros [st' [E _]]; discriminate.
  - discriminate.
  - intros [st' [E _]]; discriminate.
Qed.

Lemma large_file_iff (fs : FS) (path : Path) :
  is_file fs path = Ok true /\ large fs path = true <-> large_file fs path.
Proof.
  unfold large_file; rewrite is_file_stat, large_stat. split.
  - intros [[st [E H1]] H2]. rewrite E in H2.
    exists st; repeat split; auto. apply Z.ltb_lt; exact H2.
  - intros [st [E [H1 H2]]]. rewrite E. split.
    + exists st; auto.
    + apply Z.ltb_lt; exact H2.
Qed.

(** The size rule, for whatever [path.is_file()] answered. *)
Lemma large_rule_iff (fs : FS) (path : Path) (is_f : bool) :
  is_file fs path = Ok is_f ->
  (is_f && large fs path = true <-> large_file fs path).
Proof.
  intro E. rewrite <- large_file_iff, E. split.
  - intro H; apply andb_true_iff in H as [-> H]; auto.
  - intros [H1 H2]; injection H1 as ->; exact H2.
Qed.

Lemma has_ignored_dir_iff (path : Path) :
  has_ignored_dir path = true <->
  exists part, In part (PathOps.parts path) /\ In part IGNORED_DIRS.
Proof.
  unfold has_ignored_dir; rewrite existsb_exists.
  split; intros [part [H1 H2]]; exists part; split; auto; apply mem_In; exact H2.
Qed.

Lemma ignored_by_name_iff (path : Path) (out : string) :
  ignored_by_name path out = true <->
  PathOps.name path = out \/ Str.mem (PathOps.name path) IGNORED_FILENAMES = true
  \/ has_ignored_dir path = true.
Proof.
  unfold ignored_by_name. rewrite !orb_true_iff, String.eqb_eq. tauto.
Qed.

Lemma ignored_by_name_false (path : Path) (out : string) :
  ignored_by_name path out = false <->
  PathOps.name path <> out /\ Str.mem (PathOps.name path) IGNORED_FILENAMES = false
  /\ has_ignored_dir path = false.
Proof.
  unfold ignored_by_name. rewrite !orb_false_iff, String.eqb_neq. tauto.
Qed.

Lemma orm_segment_iff {L : Str.Lowering} (path : Path) :
  existsb (fun seg => Str.mem seg (map Str.lower (PathOps.parts path))) ORM_DIRS = true <->
  exists part, In part (PathOps.parts path) /\ In (Str.lower part) ORM_DIRS.
Proof.
  rewrite existsb_exists; split.
  - intros [seg [Hseg Hmem]]. apply mem_In, in_map_iff in Hmem as [part [E Hpart]].
    exists part; split; [exact Hpart | rewrite E; exact Hseg].
  - intros [part [Hpart Hseg]]. exists (Str.lower part); split; [exact Hseg|].
    apply mem_In, in_map; exact Hpart.
Qed.

Lemma hint_dir_iff {L : Str.Lowering} (path : Path) :
  existsb (fun p => Str.mem p SCHEMA_HINT_DIRS) (map Str.lower (PathOps.parts path)) = true <->
  exists part, In part (PathOps.parts path) /\ In (Str.lower part) SCHEMA_HINT_DIRS.
Proof.
  rewrite existsb_exists; split.
  - intros [q [Hq Hmem]]. apply in_map_iff in Hq as [part [E Hpart]].
    exists part; split; [exact Hpart | rewrite E; apply mem_In; exact Hmem].
  - intros [part [Hpart Hq]]. exists (Str.lower part); split;
      [apply in_map; exact Hpart | apply mem_In; exact Hq].
Qed.

(** The suffix is a function of the name. *)
Lemma suffix_of_name (p q : Path) :
  PathOps.name p = PathOps.name q -> PathOps.suffix p = PathOps.suffix q.
Proof. unfold PathOps.suffix; intros ->; reflexivity. Qed.

(** No ignored file name ends in [.sql] or [.prisma]. *)
Lemma ignored_filename_ext {L : Str.Lowering} (path : Path) :
  Str.mem (PathOps.name path) IGNORED_FILENAMES = true ->
  ext path <> ".sql" /\ ext path <> ".prisma".
Proof.
  intro H; apply mem_In in H.
  unfold ext, PathOps.suffix.
  simpl in H.
  repeat (destruct H as [H|H];
          [rewrite <- H; compute_lower; split; discriminate|]).
  destruct H.
Qed.

(** The verdict on a path with extension [.sql] or [.prisma]: no extension
    rule applies to it. *)
Lemma verdict_sql_prisma {L : Str.Lowering}
    (is_f : bool) (fs : FS) (path : Path) (out : string) :
  ext path = ".sql" \/ ext path = ".prisma" ->
  looks_like_schema_file path = true /\
  verdict is_f fs path out =
  String.eqb (PathOps.name path) out || has_ignored_dir path || (is_f && large fs path).
Proof.
  intro Hext.
  assert (Hschema : looks_like_schema_file path = true).
  { unfold looks_like_schema_file; rewrite schema_rules.
    destruct Hext as [-> | ->]; simpl;
      rewrite ?orb_true_r; reflexivity. }
  assert (Hname : Str.mem (PathOps.name path) IGNORED_FILENAMES = false).
  { destruct (Str.mem (PathOps.name path) IGNORED_FILENAMES) eqn:E; [|reflexivity].
    apply ignored_filename_ext in E as [E1 E2]. destruct Hext; contradiction. }
  split; [exact Hschema|].
  unfold verdict, ignored_by_name. rewrite Hschema, Hname.
  destruct Hext as [-> | ->]; simpl;
    destruct (String.eqb (PathOps.name path) out), (has_ignored_dir path),
      is_f, (large fs path); reflexivity.
Qed.

(** ** Claims about the classifier *)

(** C1, as the specification states it, fails: a [.sql] file above the size
    limit, a [.sql] file under [node_modules] and a [.sql] file that is the
    output report are schema-like and ignored all the same. *)
Lemma sql_file_ignored_counterexample :
  (ext (PathOps.parse "dump.sql") = ".sql" /\
   is_ignored (files_of_size (3 * 1024 * 1024)) (PathOps.parse "dump.sql")
     "project_dump.txt" = Ok true) /\
  (ext (PathOps.parse "node_modules/pkg/schema.sql") = ".sql" /\
   is_ignored (files_of_size 10) (PathOps.parse "node_modules/pkg/schema.sql")
     "project_dump.txt" = Ok true) /\
  (ext (PathOps.parse "out.sql") = ".sql" /\
   is_ignored (files_of_size 10) (PathOps.parse "out.sql") "out.sql" = Ok true).
Proof. repeat split; vm_compute; reflexivity. Qed.

(** C1 (amended): a path whose extension, case-insensitively, is [.sql] or
    [.prisma] is schema-like, and whenever [is_ignored] returns for it, it
    returns [True] exactly when the name is the output file name, one of the
    segments is an ignored directory name, or the path is a regular file
    above the size limit: no extension rule ever ignores it.  [is_ignored]
    returns for it whenever the name is the output name, a segment is an
    ignored directory or [path.is_file()] returns, which it does whenever
    [stat] succeeds; so it returns [False] for an examined path that is none
    of the three. *)
Theorem sql_prisma_schema_like {L : Str.Lowering} (fs : FS) (path : Path) (out : string) :
  ext path = ".sql" \/ ext path = ".prisma" ->
  looks_like_schema_file path = true /\
  (forall b, is_ignored fs path out = Ok b ->
     (b = true <->
      PathOps.name path = out \/ has_ignored_dir path = true \/ large_file fs path)) /\
  (PathOps.name path = out \/ has_ignored_dir path = true ->
     is_ignored fs path out = Ok true) /\
  (examined fs path -> exists b, is_ignored fs path out = Ok b) /\
  (examined fs path ->
   PathOps.name path <> out -> has_ignored_dir path = false -> ~ large_file fs path ->
   is_ignored fs path out = Ok false) /\
  (forall st, stat fs path = Ok st -> examined fs path).
Proof.
  intro Hext.
  split; [apply (verdict_sql_prisma false fs path out Hext)|].
  assert (Hiff : forall b, is_ignored fs path out = Ok b ->
     (b = true <->
      PathOps.name path = out \/ has_ignored_dir path = true \/ large_file fs path)).
  2: { split; [exact Hiff|]. split; [|split; [|split]].
       - intro H. apply is_ignored_by_name, ignored_by_name_iff. tauto.
       - apply is_ignored_total.
       - intros Hex H1 H2 H3.
         destruct (is_ignored_total fs path out Hex) as [[|] Hb]; [|exact Hb].
         exfalso. destruct (proj1 (Hiff true Hb) eq_refl) as [H|[H|H]];
           [contradiction | congruence | contradiction].
       - intros st; apply examined_of_stat. }
  { intros b Hb.
    destruct (ignored_by_name path out) eqn:Hn.
    + rewrite is_ignored_by_name in Hb by exact Hn. injection Hb as <-.
      split; [intros _|reflexivity].
      apply ignored_by_name_iff in Hn as [H|[H|H]]; auto.
      apply ignored_filename_ext in H as [H1 H2]. destruct Hext; contradiction.
    + apply is_ignored_returned in Hb as [is_f [-> Hf]]. specialize (Hf Hn).
      destruct (verdict_sql_prisma is_f fs path out Hext) as [_ ->].
      rewrite <- (large_rule_iff fs path is_f Hf).
      rewrite !orb_true_iff, String.eqb_eq. tauto. }
Qed.

Lemma sql_prisma_schema_like_witness :
  looks_like_schema_file (PathOps.parse "config/schema.prisma") = true /\
  is_ignored (files_of_size 10) (PathOps.parse "config/schema.prisma")
    "project_dump.txt" = Ok false.
Proof.
  pose proof (sql_prisma_schema_like (files_of_size 10)
                (PathOps.parse "config/schema.prisma") "project_dump.txt"
                (or_intror eq_refl)) as [H1 [_ [_ [_ [H2 H3]]]]].
  split; [exact H1|].
  apply H2.
  - apply (H3 (mkStat true 10)). reflexivity.
  - vm_compute; discriminate.
  - reflexivity.
  - intros [st [E [_ H]]]. injection E as <-. vm_compute in H. discriminate.
Defined.

(** C2: a regular file whose size exceeds 2 MiB is ignored, whatever the
    schema heuristic says of it: the size rule comes before every rule that
    consults [looks_like_schema_file]. *)
Theorem large_file_ignored {L : Str.Lowering}
    (fs : FS) (path : Path) (out : string) (st : stat_result) :
  stat fs path = Ok st ->
  st_is_reg st = true ->
  (2 * 1024 * 1024 < st_size st)%Z ->
  MAX_FILE_SIZE_BYTES = (2 * 1024 * 1024)%Z /\
  is_large fs path = Ok true /\
  is_ignored fs path out = Ok true.
Proof.
  intros Hstat Hreg Hsize.
  assert (Hl : is_file fs path = Ok true /\ large fs path = true).
  { apply large_file_iff; exists st; auto. }
  destruct Hl as [Hf Hl].
  split; [reflexivity|]. split.
  - rewrite is_large_Ok, Hl; reflexivity.
  - rewrite (is_ignored_examined fs path out true Hf). unfold verdict.
    rewrite Hl. simpl. rewrite !orb_true_r; reflexivity.
Qed.

Lemma large_file_ignored_witness :
  looks_like_schema_file (PathOps.parse "db/schema.sql") = true /\
  is_ignored (files_of_size (2 * 1024 * 1024 + 1)) (PathOps.parse "db/schema.sql")
    "project_dump.txt" = Ok true.
Proof.
  split; [reflexivity|].
  apply (large_file_ignored (files_of_size (2 * 1024 * 1024 + 1))
           (PathOps.parse "db/schema.sql") "project_dump.txt"
           (mkStat true (2 * 1024 * 1024 + 1))); reflexivity.
Defined.

(** The bulk-data rule in the verdict. *)
Lemma verdict_bulk {L : Str.Lowering} (is_f : bool) (fs : FS) (path : Path) (out : string) :
  Str.mem (ext path) BULK_DATA_EXTENSIONS = true ->
  looks_like_schema_file path = false \/ large fs path = true ->
  verdict is_f fs path out = true.
Proof.
  intros Hext H. unfold verdict. rewrite Hext.
  assert (E : negb (looks_like_schema_file path) || large fs path = true).
  { destruct H as [H|H]; rewrite H; [reflexivity | apply orb_true_r]. }
  rewrite E; simpl. rewrite !orb_true_r; reflexivity.
Qed.

(** C3: whenever [is_ignored] returns for a path with a bulk-data
    extension, it returns [True] unless the path is schema-like and not
    large; so the path is kept only if it is schema-like and not large.
    [is_ignored] returns for it whenever [path.is_file()] does.  A
    [data.json] of 100 bytes that no schema hint matches is ignored. *)
Theorem bulk_data_ignored {L : Str.Lowering} (fs : FS) (path : Path) (out : string) :
  In (Str.lower (PathOps.suffix path)) [".csv"; ".json"; ".jsonl"; ".ndjson"; ".geojson"] ->
  (forall b, is_ignored fs path out = Ok b ->
     looks_like_schema_file path = false \/ is_large fs path = Ok true -> b = true) /\
  (is_ignored fs path out = Ok false ->
     looks_like_schema_file path = true /\ is_large fs path = Ok false) /\
  (examined fs path ->
     looks_like_schema_file path = false \/ is_large fs path = Ok true ->
     is_ignored fs path out = Ok true) /\
  (looks_like_schema_file (PathOps.parse "data.json") = false /\
   is_ignored (files_of_size 100) (PathOps.parse "data.json") out = Ok true).
Proof.
  intro Hext. apply (mem_In _ BULK_DATA_EXTENSIONS) in Hext. fold (ext path) in Hext.
  assert (Hbulk : forall is_f,
             looks_like_schema_file path = false \/ is_large fs path = Ok true ->
             verdict is_f fs path out = true).
  { intros is_f H. apply verdict_bulk; [exact Hext|].
    destruct H as [H|H]; [left; exact H|].
    rewrite is_large_Ok in H; injection H as H; right; exact H. }
  assert (Hret : forall b, is_ignored fs path out = Ok b ->
     looks_like_schema_file path = false \/ is_large fs path = Ok true -> b = true).
  { intros b Hb H. apply is_ignored_returned in Hb as [is_f [-> _]].
    apply Hbulk; exact H. }
  split; [exact Hret|]. split; [|split].
  - intro H. rewrite is_large_Ok.
    destruct (looks_like_schema_file path) eqn:Es.
    + destruct (large fs path) eqn:El; [|auto].
      specialize (Hret false H). rewrite is_large_Ok, El in Hret.
      discriminate Hret. right; reflexivity.
    + discriminate (Hret false H). left; reflexivity.
  - intros [is_f Hf] H.
    rewrite (is_ignored_examined fs path out is_f Hf), Hbulk by exact H. reflexivity.
  - assert (Hs : looks_like_schema_file (PathOps.parse "data.json") = false)
      by (compute_lower; reflexivity).
    split; [exact Hs|].
    rewrite (is_ignored_examined (files_of_size 100) (PathOps.parse "data.json") out true
               eq_refl).
    rewrite verdict_bulk; [reflexivity | compute_lower; reflexivity | left; exact Hs].
Qed.

Lemma bulk_data_ignored_witness :
  is_ignored (files_of_size 100) (PathOps.parse "src/fixtures/cities.geojson")
    "project_dump.txt" = Ok true.
Proof.
  assert (Hext : In (Str.lower (PathOps.suffix (PathOps.parse "src/fixtures/cities.geojson")))
                    [".csv"; ".json"; ".jsonl"; ".ndjson"; ".geojson"]).
  { vm_compute. do 4 right. left. reflexivity. }
  destruct (bulk_data_ignored (files_of_size 100)
              (PathOps.parse "src/fixtures/cities.geojson") "project_dump.txt" Hext)
    as [_ [_ [H _]]].
  apply H; [exists true; reflexivity | left; reflexivity].
Defined.

(** C6, as the specification states it, fails: [models/migration.txt] has a
    segment [models], an extension outside the ORM list and outside the
    code-like list, and is kept, because its name holds a schema hint. *)
Lemma orm_other_hint_counterexample :
  let path := PathOps.parse "models/migration.txt" in
  In "models" (PathOps.parts path) /\
  ~ In (ext path) ORM_EXTENSIONS /\
  ~ In (ext path) ALLOWED_CODE_EXTENSIONS /\
  is_file (files_of_size 10) path = Ok true /\
  looks_like_schema_file path = true /\
  is_ignored (files_of_size 10) path "project_dump.txt" = Ok false.
Proof.
  cbv zeta. split; [left; reflexivity|].
  split; [not_in_table|].
  split; [not_in_table|].
  repeat split.
Qed.

(** C6 (amended): for a path with a segment equal, case-insensitively, to
    [entities], [entity], [models] or [model]: with an extension of the ORM
    list it is schema-like; with another extension the ORM heuristic adds
    nothing, the path is schema-like only through one of the other three
    hints, and when none applies, the path is a regular file and the
    extension is not code-like either, the file is ignored.
    [models/user.py], small and not the output file, is kept and
    schema-like; [models/user.png] is not schema-like, [is_ignored] never
    returns [False] for it and returns [True] whenever [path.is_file()]
    returns. *)
Theorem orm_model_files {L : Str.Lowering} (fs : FS) (path : Path) (out : string) :
  (exists part, In part (PathOps.parts path) /\
                In (Str.lower part) ["entities"; "entity"; "models"; "model"]) ->
  (In (ext path) [".ts"; ".js"; ".tsx"; ".jsx"; ".py"; ".rb"; ".java"; ".kt"] ->
     looks_like_schema_file path = true) /\
  (~ In (ext path) [".ts"; ".js"; ".tsx"; ".jsx"; ".py"; ".rb"; ".java"; ".kt"] ->
     looks_like_schema_file path =
       existsb (fun p => Str.mem p SCHEMA_HINT_DIRS) (map Str.lower (PathOps.parts path))
       || any_key_in SCHEMA_HINT_NAMES (Str.lower (PathOps.name path))
       || String.eqb (ext path) ".sql"
       || String.eqb (ext path) ".prisma") /\
  (~ In (ext path) [".ts"; ".js"; ".tsx"; ".jsx"; ".py"; ".rb"; ".java"; ".kt"] ->
     looks_like_schema_file path = false ->
     is_file fs path = Ok true ->
     ~ In (ext path) ALLOWED_CODE_EXTENSIONS ->
     is_ignored fs path out = Ok true) /\
  (out <> "user.py" ->
     looks_like_schema_file (PathOps.parse "models/user.py") = true /\
     is_ignored (files_of_size 20) (PathOps.parse "models/user.py") out = Ok false) /\
  (looks_like_schema_file (PathOps.parse "models/user.png") = false /\
   (forall b, is_ignored fs (PathOps.parse "models/user.png") out = Ok b -> b = true) /\
   (examined fs (PathOps.parse "models/user.png") ->
      is_ignored fs (PathOps.parse "models/user.png") out = Ok true)).
Proof.
  intro Hseg. apply orm_segment_iff in Hseg.
  assert (Hpng_schema : looks_like_schema_file (PathOps.parse "models/user.png") = false)
    by (compute_lower; reflexivity).
  assert (Hpy_schema : looks_like_schema_file (PathOps.parse "models/user.py") = true)
    by (compute_lower; reflexivity).
  assert (Hpng : forall is_f, verdict is_f fs (PathOps.parse "models/user.png") out = true).
  { intro is_f. unfold verdict. rewrite Hpng_schema.
    replace (ext (PathOps.parse "models/user.png")) with ".png"
      by (compute_lower; reflexivity).
    replace (Str.mem ".png" ALLOWED_CODE_EXTENSIONS) with false by reflexivity.
    replace (Str.mem ".png" IGNORED_EXTENSIONS) with true by reflexivity.
    destruct is_f; simpl; rewrite ?orb_true_r; reflexivity. }
  split; [|split; [|split; [|split]]].
  - intro Hext. apply (mem_In _ ORM_EXTENSIONS) in Hext.
    unfold looks_like_schema_file; rewrite schema_rules, Hseg, Hext.
    apply orb_true_r.
  - intro Hext.
    assert (E : Str.mem (ext path) ORM_EXTENSIONS = false).
    { destruct (Str.mem (ext path) ORM_EXTENSIONS) eqn:E; [|reflexivity].
      apply mem_In in E; contradiction. }
    unfold looks_like_schema_file; rewrite schema_rules, E, andb_false_r, orb_false_r.
    reflexivity.
  - intros _ Hschema Hfile Hext.
    assert (E : Str.mem (ext path) ALLOWED_CODE_EXTENSIONS = false).
    { destruct (Str.mem (ext path) ALLOWED_CODE_EXTENSIONS) eqn:E; [|reflexivity].
      apply mem_In in E; contradiction. }
    rewrite (is_ignored_examined fs path out true Hfile). unfold verdict.
    rewrite Hschema, E. simpl.
    rewrite !orb_true_r; reflexivity.
  - intro Hout. split; [exact Hpy_schema|].
    rewrite (is_ignored_examined (files_of_size 20) (PathOps.parse "models/user.py") out
               true eq_refl).
    unfold verdict, ignored_by_name. rewrite Hpy_schema.
    replace (ext (PathOps.parse "models/user.py")) with ".py"
      by (compute_lower; reflexivity).
    replace (PathOps.name (PathOps.parse "models/user.py")) with "user.py" by reflexivity.
    assert (E : String.eqb "user.py" out = false).
    { apply String.eqb_neq; congruence. }
    rewrite E. reflexivity.
  - split; [exact Hpng_schema|]. split.
    + intros b Hb. apply is_ignored_returned in Hb as [is_f [-> _]]. apply Hpng.
    + intros [is_f Hf]. rewrite (is_ignored_examined _ _ out is_f Hf), Hpng. reflexivity.
Qed.

Lemma orm_model_files_witness :
  looks_like_schema_file (PathOps.parse "src/Entities/User.KT") = true /\
  is_ignored (files_of_size 20) (PathOps.parse "models/user.py") "project_dump.txt"
    = Ok false /\
  is_ignored (files_of_size 20) (PathOps.parse "src/model/diagram.txt") "project_dump.txt"
    = Ok true.
Proof.
  assert (Hseg1 : exists part, In part (PathOps.parts (PathOps.parse "src/Entities/User.KT")) /\
                               In (Str.lower part) ["entities"; "entity"; "models"; "model"]).
  { exists "Entities". split; vm_compute; auto. }
  assert (Hseg2 : exists part, In part (PathOps.parts (PathOps.parse "src/model/diagram.txt")) /\
                               In (Str.lower part) ["entities"; "entity"; "models"; "model"]).
  { exists "model". split; vm_compute; auto. }
  destruct (orm_model_files (files_of_size 20) (PathOps.parse "src/Entities/User.KT")
              "project_dump.txt" Hseg1) as [H1 [_ [_ [H2 _]]]].
  destruct (orm_model_files (files_of_size 20) (PathOps.parse "src/model/diagram.txt")
              "project_dump.txt" Hseg2) as [_ [_ [H3 _]]].
  split; [|split].
  - apply H1. vm_compute. do 7 right. left. reflexivity.
  - apply H2. discriminate.
  - apply H3.
    + intro H; apply (mem_In _ ORM_EXTENSIONS) in H; vm_compute in H; discriminate.
    + reflexivity.
    + reflexivity.
    + not_in_table.
Defined.

(** What a failed [stat] does to the classifier, error by error. *)
Lemma is_ignored_stat_failure {L : Str.Lowering}
    (fs : FS) (path : Path) (out : string) (e : exn) :
  stat fs path = Raise e ->
  is_large fs path = Ok false /\
  (ignored_by_name path out = true -> is_ignored fs path out = Ok true) /\
  (ignored_by_name path out = false ->
     is_ignored fs path out =
     match e with
     | OSError errno =>
         if ignore_error errno then Ok (verdict false fs path out) else Raise e
     | ValueError _ => Ok (verdict false fs path out)
     | OtherException _ => Raise e
     end).
Proof.
  intro Hstat.
  assert (Hl : large fs path = false) by (rewrite large_stat, Hstat; reflexivity).
  split; [rewrite is_large_Ok, Hl; reflexivity|].
  split; [apply is_ignored_by_name|].
  intro Hn. rewrite is_ignored_rules, Hn, is_file_cases, Hstat.
  destruct e as [errno|msg|msg]; [destruct (ignore_error errno)| |]; reflexivity.
Qed.

(** C7 fails on the code: [is_large] catches what [stat] raises, and
    [path.is_file()], called by [is_ignored] outside any [try], does not.
    When [stat] raises an [OSError] that pathlib does not take for a missing
    path (a [PermissionError], say) on a path that no rule on the name
    ignores, [is_large] answers [False] and [is_ignored] raises that error.
    A walk that meets such a file raises it too. *)
Theorem stat_failure_escapes_is_ignored {L : Str.Lowering}
    (fs : FS) (path : Path) (out : string) (errno : Z) :
  stat fs path = Raise (OSError errno) ->
  ~ In errno [ENOENT; ENOTDIR; EBADF; ELOOP] ->
  PathOps.name path <> out ->
  ~ In (PathOps.name path) IGNORED_FILENAMES ->
  has_ignored_dir path = false ->
  is_large fs path = Ok false /\
  is_file fs path = Raise (OSError errno) /\
  is_ignored fs path out = Raise (OSError errno) /\
  generate_tree unreadable (Scanned [] ["app.py"]) (PathOps.parse "proj")
    "project_dump.txt" = Raise (OSError EACCES).
Proof.
  intros Hstat Herr Hname Hfn Hdir.
  assert (Hi : ignore_error errno = false).
  { unfold ignore_error. destruct (existsb (Z.eqb errno) IGNORED_ERRNOS) eqn:E; [|reflexivity].
    exfalso; apply Herr. apply existsb_exists in E as [n [Hn E]].
    apply Z.eqb_eq in E; subst n; exact Hn. }
  assert (Hn : ignored_by_name path out = false).
  { apply ignored_by_name_false. repeat split; auto.
    destruct (Str.mem (PathOps.name path) IGNORED_FILENAMES) eqn:E; [|reflexivity].
    apply mem_In in E; contradiction. }
  destruct (is_ignored_stat_failure fs path out _ Hstat) as [H1 [_ H2]].
  split; [exact H1|]. split; [|split].
  - rewrite is_file_cases, Hstat, Hi; reflexivity.
  - rewrite H2, Hi by exact Hn; reflexivity.
  - vm_compute; reflexivity.
Qed.

Lemma stat_failure_escapes_is_ignored_witness :
  is_large unreadable (PathOps.parse "proj/app.py") = Ok false /\
  is_ignored unreadable (PathOps.parse "proj/app.py") "project_dump.txt"
    = Raise (OSError EACCES).
Proof.
  assert (H1 : ~ In EACCES [ENOENT; ENOTDIR; EBADF; ELOOP]).
  { intros [H|[H|[H|[H|[]]]]]; discriminate. }
  assert (H2 : ~ In (PathOps.name (PathOps.parse "proj/app.py")) IGNORED_FILENAMES).
  { not_in_table. }
  destruct (stat_failure_escapes_is_ignored unreadable (PathOps.parse "proj/app.py")
              "project_dump.txt" EACCES eq_refl H1) as [Ha [_ [Hb _]]].
  - discriminate.
  - exact H2.
  - reflexivity.
  - split; [exact Ha | exact Hb].
Defined.

(** ** The walk *)

(** Induction on a listing, with the hypothesis for every subdirectory. *)
Lemma DirListing_nested_ind (P : DirListing -> Prop) :
  P NotWalked ->
  (forall children files,
     Forall (fun c => P (snd c)) children -> P (Scanned children files)) ->
  forall t, P t.
Proof.
  intros HN HS.
  fix IH 1.
  intros [children files|]; [|exact HN].
  apply HS.
  induction children as [|[n sub] cs IHcs]; constructor.
  - apply IH.
  - exact IHcs.
Qed.

Section WalkProperties.

Context {S : Type}.
Variable body : S -> string -> list string -> list string -> result (S * list string).

(** The descent of [os_walk] into the entry named [d]. *)
Lemma descend_invariant (I : S -> Prop) (Pre : string -> Prop) (top d : string)
    (children : list (string * DirListing)) :
  Forall (fun c => forall top' st, I st -> Pre top' ->
                   returns (os_walk body (snd c) top' st) I) children ->
  Pre (PathOps.os_path_join top d) ->
  forall s, I s ->
  returns ((fix descend (cs : list (string * DirListing)) : result S :=
              match cs with
              | [] => ret s
              | (n, sub) :: cs' =>
                  if String.eqb n d
                  then os_walk body sub (PathOps.os_path_join top d) s
                  else descend cs'
              end) children) I.
Proof.
  intros Hch Hpre s Hs.
  induction Hch as [|[n sub] cs Hsub _ IH]; simpl.
  - exact Hs.
  - destruct (String.eqb n d); [apply Hsub; assumption | exact IH].
Qed.

(** A loop invariant of the walk, for a body that returns.  [Pre] is what
    is known of the directories visited: it holds of the root, and the body
    establishes it for every name it leaves in [dirs]. *)
Lemma os_walk_invariant (I : S -> Prop) (Pre : string -> Prop) :
  (forall st top dirs files, I st -> Pre top ->
     returns (body st top dirs files)
       (fun r => I (fst r) /\
                 Forall (fun d => Pre (PathOps.os_path_join top d)) (snd r))) ->
  forall t top st, I st -> Pre top -> returns (os_walk body t top st) I.
Proof.
  intros Hbody t.
  induction t as [|children files IH] using DirListing_nested_ind;
    intros top st Hst Hpre.
  - exact Hst.
  - simpl. apply returns_bind.
    eapply returns_mono; [|apply Hbody; eassumption].
    intros [st1 dirs'] [Hst1 Hdirs]; simpl in Hst1, Hdirs.
    apply foldM_invariant with (R := fun d => Pre (PathOps.os_path_join top d));
      [|exact Hdirs|exact Hst1].
    intros s d Hs Hd.
    apply descend_invariant with (Pre := Pre); assumption.
Qed.

(** The same invariant for a body that may raise: it holds of whatever the
    walk returns.  The body is run on the names of the listing, all of which
    satisfy [P]. *)
Lemma os_walk_on_return_names (P : string -> Prop) (I : S -> Prop) (Pre : string -> Prop) :
  (forall st top dirs files, I st -> Pre top -> Forall P dirs -> Forall P files ->
     on_return (body st top dirs files)
       (fun r => I (fst r) /\
                 Forall (fun d => Pre (PathOps.os_path_join top d)) (snd r))) ->
  forall t, all_names P t ->
  forall top st, I st -> Pre top -> on_return (os_walk body t top st) I.
Proof.
  intros Hbody t.
  induction t as [|children files IH] using DirListing_nested_ind;
    intros Hn top st Hst Hpre.
  - exact Hst.
  - inversion Hn as [|? ? Hch Hfiles]; subst.
    simpl. apply on_return_bind.
    eapply on_return_mono; [|apply Hbody; try eassumption].
    + intros [st1 dirs'] [Hst1 Hdirs]; simpl in Hst1, Hdirs.
      apply foldM_on_return with (R := fun d => Pre (PathOps.os_path_join top d));
        [|exact Hdirs|exact Hst1].
      intros s d Hs Hd. clear Hn Hfiles Hdirs Hst1 Hst.
      induction children as [|[n sub] cs IHcs]; simpl; [exact Hs|].
      inversion IH as [|? ? Hsub IHrest]; subst.
      inversion Hch as [|? ? [_ Hnsub] Hchrest]; subst.
      cbn [snd] in Hsub, Hnsub.
      destruct (String.eqb n d); [apply Hsub; assumption | apply IHcs; assumption].
    + apply Forall_forall. intros d Hd. apply in_map_iff in Hd as [c [<- Hc]].
      rewrite Forall_forall in Hch. apply (Hch c Hc).
Qed.

End WalkProperties.

Lemma all_names_trivial (t : DirListing) : all_names (fun _ => True) t.
Proof.
  induction t as [|children files IH] using DirListing_nested_ind; constructor.
  - eapply Forall_impl; [|exact IH]. cbv beta. auto.
  - apply Forall_forall; auto.
Qed.

Lemma os_walk_on_return {S : Type}
    (body : S -> string -> list string -> list string -> result (S * list string))
    (I : S -> Prop) (Pre : string -> Prop) :
  (forall st top dirs files, I st -> Pre top ->
     on_return (body st top dirs files)
       (fun r => I (fst r) /\
                 Forall (fun d => Pre (PathOps.os_path_join top d)) (snd r))) ->
  forall t top st, I st -> Pre top -> on_return (os_walk body t top st) I.
Proof.
  intros Hbody t. apply os_walk_on_return_names with (P := fun _ => True) (Pre := Pre).
  - intros st top dirs files Hst Hpre _ _; apply Hbody; assumption.
  - apply all_names_trivial.
Qed.

Section WalkAgreement.

Context {S : Type}.

(** The walk depends on its body only through what the body returns. *)
Lemma os_walk_ext
    (body1 body2 : S -> string -> list string -> list string -> result (S * list string)) :
  (forall st top dirs files, body1 st top dirs files = body2 st top dirs files) ->
  forall t top st, os_walk body1 t top st = os_walk body2 t top st.
Proof.
  intros Hbody t.
  induction t as [|children files IH] using DirListing_nested_ind; intros top st.
  - reflexivity.
  - simpl. rewrite Hbody.
    destruct (body2 st top (map fst children) files) as [[st1 dirs']|e]; simpl;
      [|reflexivity].
    apply foldM_ext. intros s d.
    induction IH as [|[n sub] cs Hsub _ IHcs]; simpl; [reflexivity|].
    destruct (String.eqb n d); [apply Hsub | exact IHcs].
Qed.

Lemma foldM_rel {A T : Type} (R : T -> S -> Prop)
    (f : T -> A -> result T) (g : S -> A -> result S) :
  (forall t s x, R t s -> result_rel R (f t x) (g s x)) ->
  forall l t s, R t s -> result_rel R (foldM f l t) (foldM g l s).
Proof.
  intros Hfg l; induction l as [|x l IH]; intros t s Hts; simpl.
  - exact Hts.
  - specialize (Hfg t s x Hts).
    destruct (f t x) as [t'|e1], (g s x) as [s'|e2]; simpl in *; try contradiction.
    + apply IH; exact Hfg.
    + exact Hfg.
Qed.

(** Keeping the log changes nothing else. *)
Lemma os_walk_traced
    (body : S -> string -> list string -> list string -> result (S * list string)) :
  forall t top st log,
    result_rel (fun sl s => fst sl = s)
      (os_walk (traced body) t top (st, log)) (os_walk body t top st).
Proof.
  intro t.
  induction t as [|children files IH] using DirListing_nested_ind; intros top st log.
  - reflexivity.
  - simpl. unfold traced at 1. simpl.
    destruct (body st top (map fst children) files) as [[st1 dirs']|e]; simpl;
      [|reflexivity].
    apply foldM_rel; [|reflexivity].
    intros [s1 l1] s d Hs; simpl in Hs; subst s1.
    induction IH as [|[n sub] cs Hsub _ IHcs]; simpl; [reflexivity|].
    destruct (String.eqb n d); [apply Hsub | exact IHcs].
Qed.

End WalkAgreement.

(** ** Tree lines *)

Lemma lstrip_repeat (k : nat) (s : string) :
  lstrip_spaces (Str.repeat " "%char k ++ s) = lstrip_spaces s.
Proof. induction k as [|k IH]; [reflexivity | exact IH]. Qed.

Lemma file_line_is_file_line {L : Str.Lowering} (level : nat) (path : Path) (f : string) :
  is_file_line (indent_of level ++ mark_of path ++ " " ++ f) = true.
Proof.
  unfold is_file_line, indent_of. rewrite lstrip_repeat.
  unfold mark_of; destruct (looks_like_schema_file path); reflexivity.
Qed.

Lemma dir_line_is_not_file_line (level : nat) (rest : string) :
  is_file_line (indent_of level ++ DIR_MARK ++ rest) = false.
Proof.
  unfold is_file_line, indent_of. rewrite lstrip_repeat. reflexivity.
Qed.

(** ** The loop body keeps the accumulators consistent *)

Lemma filter_snoc {A : Type} (f : A -> bool) (l : list A) (x : A) :
  filter f (l ++ [x])%list = (filter f l ++ (if f x then [x] else []))%list.
Proof. rewrite filter_app; reflexivity. Qed.

Lemma tree_consistent_init {L : Str.Lowering} (fs : FS) (root_path : Path) (out : string) :
  tree_consistent fs root_path out init_state.
Proof. repeat split; constructor. Qed.

Lemma visit_file_consistent {L : Str.Lowering} (fs : FS) (root_path : Path) (out root : string)
    (st : walk_state) (f : string) :
  tree_consistent fs root_path out st ->
  on_return (visit_file fs out root (indent_of (level_of root_path root + 1)) st f)
            (tree_consistent fs root_path out).
Proof.
  intros [Hs [Hl Hk]].
  unfold visit_file.
  set (p := PathOps.parse root // f).
  fold (mark_of p).
  destruct (is_ignored fs p out) as [[|]|e] eqn:E; cbn [bind negb on_return ret].
  - repeat split; assumption.
  - unfold tree_consistent; cbn [tree_lines files_to_dump schema_files].
    split; [|split].
    + rewrite filter_snoc, <- Hs.
      destruct (looks_like_schema_file p); [reflexivity | symmetry; apply app_nil_r].
    + rewrite filter_snoc, file_line_is_file_line.
      apply Forall2_app; [exact Hl|].
      constructor; [|constructor].
      exists root, f; split; reflexivity.
    + apply Forall_app; split; [exact Hk|].
      constructor; [|constructor].
      exact E.
  - exact I.
Qed.

(** The directory line the body may add. *)
Lemma visit_dir_line_consistent {L : Str.Lowering} (fs : FS) (root_path : Path) (out : string)
    (st : walk_state) (root : string) :
  tree_consistent fs root_path out st ->
  tree_consistent fs root_path out
    (if (0 <? level_of root_path root)%nat || String.eqb root (PathOps.str root_path) then
       if negb (String.eqb (PathOps.basename root) "")
       then mkState (tree_lines st ++ [indent_of (level_of root_path root) ++ DIR_MARK
                                        ++ " " ++ PathOps.basename root ++ "/"])
                    (files_to_dump st) (schema_files st)
       else st
     else st).
Proof.
  intro Hst.
  destruct ((0 <? level_of root_path root)%nat || String.eqb root (PathOps.str root_path));
    [|exact Hst].
  destruct (negb (String.eqb (PathOps.basename root) "")); [|exact Hst].
  destruct Hst as [Hs [Hl Hk]].
  unfold tree_consistent; cbn [tree_lines files_to_dump schema_files].
  split; [exact Hs|]. split; [|exact Hk].
  rewrite filter_snoc, dir_line_is_not_file_line, app_nil_r. exact Hl.
Qed.

Lemma visit_consistent {L : Str.Lowering} (fs : FS) (root_path : Path) (out : string)
    (st : walk_state) (root : string) (dirs files : list string) :
  tree_consistent fs root_path out st ->
  on_return (visit fs root_path out st root dirs files)
    (fun r => tree_consistent fs root_path out (fst r) /\
              snd r = filter (fun d => negb (ignored fs (PathOps.parse root // d) out)) dirs).
Proof.
  intros Hst. unfold visit.
  destruct (filterM _ dirs) as [dirs'|e] eqn:E; [|exact I].
  apply (not_ignored_filter fs out (fun d => PathOps.parse root // d)) in E as [_ ->].
  cbn [bind]. apply on_return_bind.
  eapply on_return_mono;
    [|apply foldM_on_return
        with (I := tree_consistent fs root_path out) (R := fun _ => True)].
  - intros st2 Hst2; simpl; split; [exact Hst2 | reflexivity].
  - intros s f Hs _. apply visit_file_consistent; exact Hs.
  - apply Forall_forall; intros; exact I.
  - apply visit_dir_line_consistent; exact Hst.
Qed.

Lemma generate_tree_loop_consistent {L : Str.Lowering}
    (fs : FS) (tree : DirListing) (root_path : Path)
    (out : string) :
  on_return (generate_tree_loop fs tree root_path out) (tree_consistent fs root_path out).
Proof.
  unfold generate_tree_loop.
  apply os_walk_on_return with (Pre := fun _ => True);
    [|apply tree_consistent_init|exact I].
  intros st top dirs files Hst _.
  eapply on_return_mono; [|apply visit_consistent; exact Hst].
  intros [st' dirs'] [H _]; split; [exact H|].
  apply Forall_forall; intros; exact I.
Qed.

(** What [generate_tree] returns, from what its loop leaves. *)
Lemma generate_tree_of_loop {L : Str.Lowering} (fs : FS) (tree : DirListing) (root_path : Path)
    (out : string) (st : walk_state) :
  generate_tree_loop fs tree root_path out = Ok st ->
  generate_tree fs tree root_path out =
    Ok (String.concat nl (tree_lines st), files_to_dump st, schema_files st).
Proof. intro H; unfold generate_tree; rewrite H; reflexivity. Qed.

Lemma generate_tree_Ok {L : Str.Lowering} (fs : FS) (tree : DirListing) (root_path : Path)
    (out : string) (text : string) (kept schema : list Path) :
  generate_tree fs tree root_path out = Ok (text, kept, schema) ->
  exists st, generate_tree_loop fs tree root_path out = Ok st /\
             text = String.concat nl (tree_lines st) /\
             kept = files_to_dump st /\ schema = schema_files st.
Proof.
  unfold generate_tree. intro H. apply bind_Ok in H as [st [E H]].
  injection H as <- <- <-. exists st; auto.
Qed.

(** What [generate_tree] returns is consistent. *)
Lemma generate_tree_consistent {L : Str.Lowering}
    (fs : FS) (tree : DirListing) (root_path : Path)
    (out : string) (text : string) (kept schema : list Path) :
  generate_tree fs tree root_path out = Ok (text, kept, schema) ->
  exists st, generate_tree_loop fs tree root_path out = Ok st /\
             text = String.concat nl (tree_lines st) /\
             kept = files_to_dump st /\ schema = schema_files st /\
             tree_consistent fs root_path out st.
Proof.
  intro H. apply generate_tree_Ok in H as [st [E [H1 [H2 H3]]]].
  exists st. repeat split; try assumption;
    pose proof (generate_tree_loop_consistent fs tree root_path out) as H;
    rewrite E in H; apply H.
Qed.

(** *** Where [path.is_file()] returns, the walk returns *)

Lemma is_ignored_Ok {L : Str.Lowering} (fs : FS) (path : Path) (out : string) :
  examined fs path -> is_ignored fs path out = Ok (ignored fs path out).
Proof.
  intro H. destruct (is_ignored_total fs path out H) as [b Hb].
  rewrite (ignored_Ok fs path out b Hb). exact Hb.
Qed.

Lemma visit_returns {L : Str.Lowering} (fs : FS) (root_path : Path) (out : string)
    (st : walk_state) (root : string) (dirs files : list string) :
  (forall p, examined fs p) ->
  returns (visit fs root_path out st root dirs files) (fun _ => True).
Proof.
  intro Hex. unfold visit.
  rewrite filterM_pure
    with (kb := fun d => negb (ignored fs (PathOps.parse root // d) out))
    by (intro d; rewrite is_ignored_Ok by apply Hex; reflexivity).
  cbn [bind]. apply returns_bind.
  eapply returns_mono;
    [|apply foldM_invariant with (I := fun _ => True) (R := fun _ => True)].
  - intros; exact I.
  - intros s f _ _. unfold visit_file. rewrite is_ignored_Ok by apply Hex.
    cbn [bind]. destruct (negb _); exact I.
  - apply Forall_forall; intros; exact I.
  - exact I.
Qed.

(** [generate_tree] returns on a filesystem where [path.is_file()] returns
    for every path. *)
Lemma generate_tree_returns {L : Str.Lowering} (fs : FS) (tree : DirListing) (root_path : Path)
    (out : string) :
  (forall p, examined fs p) ->
  exists r, generate_tree fs tree root_path out = Ok r.
Proof.
  intro Hex.
  assert (H : returns (generate_tree_loop fs tree root_path out) (fun _ => True)).
  { unfold generate_tree_loop.
    apply os_walk_invariant with (Pre := fun _ => True); [|exact I|exact I].
    intros st top dirs files _ _.
    eapply returns_mono; [|apply visit_returns; exact Hex].
    intros r _; split; [exact I|]. apply Forall_forall; intros; exact I. }
  apply returns_Ok in H as [st [E _]].
  eexists. apply generate_tree_of_loop; exact E.
Qed.

(** *** The lines of the returned text *)

Lemma split_concat (c : ascii) (l : list string) :
  l <> [] -> Forall (fun w => Str.count c w = 0) l ->
  Str.split c (String.concat (String c "") l) = l.
Proof.
  intros Hne Hall. induction Hall as [|x l Hx Hl IH]; [contradiction|].
  destruct l as [|y l].
  - simpl. apply split_plain; exact Hx.
  - change (String.concat (String c "") (x :: y :: l))
      with (x ++ String c (String.concat (String c "") (y :: l))).
    rewrite split_app_sep, (split_plain c x Hx), IH by discriminate. reflexivity.
Qed.

Lemma count_repeat (c a : ascii) (k : nat) :
  Ascii.eqb a c = false -> Str.count c (Str.repeat a k) = 0.
Proof. intro H. induction k as [|k IH]; simpl; [reflexivity | rewrite H; exact IH]. Qed.

Lemma one_line_app (a b : string) : one_line a -> one_line b -> one_line (a ++ b).
Proof. unfold one_line; intros Ha Hb; rewrite count_app, Ha, Hb; reflexivity. Qed.

Lemma one_line_indent (level : nat) : one_line (indent_of level).
Proof. apply count_repeat; reflexivity. Qed.

Lemma one_line_join (top d : string) :
  one_line top -> one_line d -> one_line (PathOps.os_path_join top d).
Proof.
  intros Ht Hd. unfold PathOps.os_path_join.
  destruct (prefix os_sep d); [exact Hd|].
  destruct (String.eqb top ""); [exact Hd|].
  destruct (String.eqb _ os_sep); repeat apply one_line_app; auto; reflexivity.
Qed.

(** With names that hold no newline, no tree line holds one. *)
Lemma visit_one_line {L : Str.Lowering} (fs : FS) (root_path : Path) (out : string)
    (st : walk_state) (root : string) (dirs files : list string) :
  Forall one_line (tree_lines st) -> one_line root ->
  Forall one_line dirs -> Forall one_line files ->
  on_return (visit fs root_path out st root dirs files)
    (fun r => Forall one_line (tree_lines (fst r)) /\
              Forall (fun d => one_line (PathOps.os_path_join root d)) (snd r)).
Proof.
  intros Hst Hroot Hdirs Hfiles. unfold visit.
  destruct (filterM _ dirs) as [dirs'|e] eqn:E; [|exact I].
  apply (not_ignored_filter fs out (fun d => PathOps.parse root // d)) in E as [_ ->].
  cbn [bind]. apply on_return_bind.
  eapply on_return_mono;
    [|apply foldM_on_return
        with (I := fun s => Forall one_line (tree_lines s)) (R := one_line)].
  - intros st2 Hst2; simpl; split; [exact Hst2|].
    apply Forall_forall. intros d Hd. apply filter_In in Hd as [Hd _].
    rewrite Forall_forall in Hdirs. apply one_line_join; auto.
  - intros s f Hs Hf. unfold visit_file.
    destruct (is_ignored fs (PathOps.parse root // f) out) as [[|]|e];
      cbn [bind negb on_return ret tree_lines]; [exact Hs| |exact I].
    apply Forall_app; split; [exact Hs|]. constructor; [|constructor].
    repeat apply one_line_app; auto using one_line_indent; try reflexivity.
    destruct (looks_like_schema_file _); reflexivity.
  - apply Forall_forall. intros f Hf. rewrite Forall_forall in Hfiles. apply Hfiles.
    eapply Permutation_in; [apply sorted_Permutation | exact Hf].
  - destruct ((0 <? level_of root_path root)%nat || String.eqb root (PathOps.str root_path));
      [|exact Hst].
    destruct (negb (String.eqb (PathOps.basename root) "")); [|exact Hst].
    cbn [tree_lines]. apply Forall_app; split; [exact Hst|]. constructor; [|constructor].
    repeat apply one_line_app; auto using one_line_indent; try reflexivity.
    apply count_drop; exact Hroot.
Qed.

Lemma generate_tree_loop_one_line {L : Str.Lowering}
    (fs : FS) (tree : DirListing) (root_path : Path)
    (out : string) :
  all_names one_line tree -> one_line (PathOps.str root_path) ->
  on_return (generate_tree_loop fs tree root_path out)
            (fun st => Forall one_line (tree_lines st)).
Proof.
  intros Hn Hroot. unfold generate_tree_loop.
  apply os_walk_on_return_names with (P := one_line) (Pre := one_line);
    [|exact Hn|constructor|exact Hroot].
  intros st top dirs files Hst Htop Hdirs Hfiles.
  apply visit_one_line; assumption.
Qed.

Lemma lines_of_concat (lines : list string) :
  Forall one_line lines ->
  filter is_file_line (lines_of (String.concat nl lines)) = filter is_file_line lines.
Proof.
  intro H. destruct lines as [|x l]; [reflexivity|].
  unfold lines_of, nl. rewrite split_concat; [reflexivity | discriminate | exact H].
Qed.

(** ** Claims about the traversal *)

(** C5, as the specification states it, fails on the lines of the returned
    text: a kept file whose name holds a newline followed by a file mark
    gives two marked lines for one kept file. *)
Lemma newline_in_name_counterexample :
  let f := "a.py" ++ nl ++ "📄 b.py" in
  generate_tree (files_of_size 10) (Scanned [] [f]) (PathOps.parse "proj")
    "project_dump.txt"
  = Ok ("📂 proj/" ++ nl ++ "    📄 a.py" ++ nl ++ "📄 b.py",
        [PathOps.parse "proj" // f], []) /\
  filter is_file_line
    (lines_of ("📂 proj/" ++ nl ++ "    📄 a.py" ++ nl ++ "📄 b.py"))
  = ["    📄 a.py"; "📄 b.py"].
Proof. cbv zeta. split; vm_compute; reflexivity. Qed.

(** C5 (amended): what [generate_tree] returns is consistent.  The schema
    files are the kept files that are schema-like, in the order of the kept
    files, so every schema file is a kept file.  The returned text is the
    tree lines joined by newlines, and the tree lines marked as files are,
    one for one and in the same order, the lines of the kept files.  When no
    name of the listing and not the project path holds a newline, this is
    the correspondence between the marked lines of the returned text and the
    kept files. *)
Theorem traversal_results_consistent {L : Str.Lowering}
    (fs : FS) (tree : DirListing) (root_path : Path)
    (out : string) (text : string) (kept schema : list Path) :
  generate_tree fs tree root_path out = Ok (text, kept, schema) ->
  schema = filter looks_like_schema_file kept /\
  incl schema kept /\
  (exists lines : list string,
     text = String.concat nl lines /\
     Forall2 (file_line_of root_path) (filter is_file_line lines) kept) /\
  (all_names one_line tree -> one_line (PathOps.str root_path) ->
   Forall2 (file_line_of root_path) (filter is_file_line (lines_of text)) kept).
Proof.
  intro H. apply generate_tree_consistent in H
    as [st [E [-> [-> [-> [Hs [Hl _]]]]]]].
  split; [exact Hs|]. split; [|split].
  - rewrite Hs. intros p Hp. apply filter_In in Hp as [Hp _]; exact Hp.
  - exists (tree_lines st). split; [reflexivity | exact Hl].
  - intros Hn Hroot.
    pose proof (generate_tree_loop_one_line fs tree root_path out Hn Hroot) as H1.
    rewrite E in H1. cbn [on_return] in H1.
    rewrite lines_of_concat by exact H1. exact Hl.
Qed.

Lemma traversal_results_consistent_witness :
  Forall2 (file_line_of (PathOps.parse "proj"))
    (filter is_file_line
       (lines_of (String.concat nl
                    [ "📂 proj/";
                      "    📂 migrations/";
                      "        🗄️ 001_init.sql";
                      "    📂 src/";
                      "        📄 app.py" ])))
    [ mkPath "" ["proj"; "migrations"; "001_init.sql"];
      mkPath "" ["proj"; "src"; "app.py"] ].
Proof.
  refine (proj2 (proj2 (proj2
    (traversal_results_consistent scenario_fs scenario_tree (PathOps.parse "proj")
       "project_dump.txt" _ _ [ mkPath "" ["proj"; "migrations"; "001_init.sql"] ] _))) _ _).
  - vm_compute. reflexivity.
  - repeat (constructor; cbn [fst snd]; try split; try reflexivity).
  - reflexivity.
Defined.

(** *** Pruning *)

Lemma kept_not_by_name {L : Str.Lowering} (fs : FS) (path : Path) (out : string) :
  is_ignored fs path out = Ok false -> ignored_by_name path out = false.
Proof.
  intro H. destruct (ignored_by_name path out) eqn:E; [|reflexivity].
  rewrite is_ignored_by_name in H by exact E. discriminate.
Qed.

Lemma not_ignored_no_ignored_dir {L : Str.Lowering} (fs : FS) (path : Path) (out : string) :
  is_ignored fs path out = Ok false ->
  forall part, In part (PathOps.parts path) -> ~ In part IGNORED_DIRS.
Proof.
  intros H part Hpart Hign.
  apply kept_not_by_name, ignored_by_name_false in H as [_ [_ H]].
  assert (E : has_ignored_dir path = true)
    by (apply has_ignored_dir_iff; exists part; auto).
  congruence.
Qed.

Lemma ignored_dir_segment {L : Str.Lowering}
    (fs : FS) (path : Path) (out : string) (part : string) :
  In part (PathOps.parts path) -> In part IGNORED_DIRS ->
  is_ignored fs path out = Ok true.
Proof.
  intros Hpart Hign.
  apply is_ignored_by_name, ignored_by_name_iff. right; right.
  apply has_ignored_dir_iff; exists part; auto.
Qed.

(** An ignored directory name is one clean segment. *)
Lemma ignored_dir_name_clean (d : string) :
  In d IGNORED_DIRS -> PathOps.root_of d = "" /\ PathOps.segments d = [d].
Proof.
  intro H. simpl in H.
  repeat (destruct H as [H|H]; [rewrite <- H; split; reflexivity|]).
  destruct H.
Qed.

Lemma div_parts_last (p : Path) (d : string) :
  PathOps.root_of d = "" -> PathOps.segments d = [d] ->
  In d (PathOps.parts (p // d)).
Proof.
  intros Hr Hs. unfold PathOps.div, PathOps.parts. rewrite Hr, Hs. simpl.
  destruct (p_root p); [|right]; apply in_or_app; right; left; reflexivity.
Qed.

Lemma ignored_dir_entry {L : Str.Lowering} (fs : FS) (p : Path) (d out : string) :
  Str.mem d IGNORED_DIRS = true -> ignored fs (p // d) out = true.
Proof.
  intro H. apply mem_In in H.
  destruct (ignored_dir_name_clean d H) as [Hr Hs].
  apply ignored_Ok.
  apply (ignored_dir_segment fs (p // d) out d (div_parts_last p d Hr Hs) H).
Qed.

Lemma foldM_ext_Forall {A S : Type} (f g : S -> A -> result S) (R : A -> Prop) :
  (forall s x, R x -> f s x = g s x) ->
  forall l s, Forall R l -> foldM f l s = foldM g l s.
Proof.
  intros E l; induction l as [|x l IH]; intros s HR; simpl; [reflexivity|].
  inversion HR as [|? ? Hx Hl]; subst.
  rewrite (E s x Hx); destruct (g s x); simpl; auto.
Qed.

Lemma prune_children_names (g : string -> DirListing -> DirListing)
    (cs : list (string * DirListing)) :
  map fst (map (fun c => match c with (n, sub) => (n, g n sub) end) cs) = map fst cs.
Proof.
  rewrite map_map. apply map_ext. intros [n sub]; reflexivity.
Qed.

(** A walk whose body never leaves an ignored directory name in [dirs] does
    not read what lies beneath such a name. *)
Lemma os_walk_prune {S : Type}
    (body : S -> string -> list string -> list string -> result (S * list string)) :
  (forall st top dirs files st' dirs',
     body st top dirs files = Ok (st', dirs') ->
     Forall (fun d => Str.mem d IGNORED_DIRS = false) dirs') ->
  forall t top st, os_walk body (prune t) top st = os_walk body t top st.
Proof.
  intros Hbody t.
  induction t as [|children files IH] using DirListing_nested_ind; intros top st.
  - reflexivity.
  - simpl.
    rewrite (prune_children_names
               (fun n sub => if Str.mem n IGNORED_DIRS then NotWalked else prune sub)).
    destruct (body st top (map fst children) files) as [[st1 dirs']|e] eqn:E; simpl;
      [|reflexivity].
    apply foldM_ext_Forall with (R := fun d => Str.mem d IGNORED_DIRS = false);
      [clear E | eapply Hbody; exact E].
    intros s d Hd.
    induction IH as [|[n sub] cs Hsub _ IHcs]; cbn [map snd] in *; [reflexivity|].
    destruct (String.eqb n d) eqn:End; [|exact IHcs].
    apply String.eqb_eq in End; subst n.
    unfold Str.mem in Hd; simpl in Hd; rewrite Hd. apply Hsub.
Qed.

(** What the body leaves in [dirs]. *)
Lemma visit_dirs {L : Str.Lowering} (fs : FS) (root_path : Path) (out : string)
    (st : walk_state) (top : string) (dirs files : list string)
    (st' : walk_state) (dirs' : list string) :
  visit fs root_path out st top dirs files = Ok (st', dirs') ->
  dirs' = filter (fun d => negb (ignored fs (PathOps.parse top // d) out)) dirs.
Proof.
  intro H.
  pose proof (visit_consistent fs root_path out init_state top dirs files
                (tree_consistent_init fs root_path out)) as _.
  unfold visit in H. apply bind_Ok in H as [dirs0 [E H]].
  apply (not_ignored_filter fs out (fun d => PathOps.parse top // d)) in E as [_ ->].
  apply bind_Ok in H as [st2 [_ H]]. injection H as _ <-. reflexivity.
Qed.

Lemma visit_drops_ignored_dirs {L : Str.Lowering} (fs : FS) (root_path : Path) (out : string)
    (st : walk_state) (top : string) (dirs files : list string)
    (st' : walk_state) (dirs' : list string) :
  visit fs root_path out st top dirs files = Ok (st', dirs') ->
  Forall (fun d => Str.mem d IGNORED_DIRS = false) dirs'.
Proof.
  intro H. apply visit_dirs in H. subst dirs'.
  apply Forall_forall. intros d Hd. apply filter_In in Hd as [_ Hd].
  destruct (Str.mem d IGNORED_DIRS) eqn:E; [|reflexivity].
  rewrite (ignored_dir_entry fs (PathOps.parse top) d out E) in Hd. discriminate.
Qed.

Lemma walked_dirs_admitted {L : Str.Lowering}
    (fs : FS) (tree : DirListing) (root_path : Path) (out : string) :
  on_return
    (os_walk (traced (visit fs root_path out)) tree (PathOps.str root_path) (init_state, []))
    (fun sl => tree_consistent fs root_path out (fst sl) /\
               Forall (admitted_dir fs root_path out) (snd sl)).
Proof.
  apply os_walk_on_return with (Pre := admitted_dir fs root_path out).
  - intros [st log] top dirs files [Hst Hlog] Htop.
    unfold traced. cbn [fst snd]. apply on_return_bind.
    eapply on_return_mono; [|apply visit_consistent; exact Hst].
    intros [st' dirs'] [Hst' Hdirs]. cbn [fst snd] in *.
    split; [split|].
    + exact Hst'.
    + apply Forall_app; split; [exact Hlog | constructor; [exact Htop | constructor]].
    + subst dirs'. apply Forall_forall. intros d Hd.
      apply filter_In in Hd as [_ Hd]. apply negb_true_iff in Hd.
      right. exists top, d. split; [reflexivity|].
      apply ignored_false; exact Hd.
  - split; [apply tree_consistent_init | constructor].
  - left; reflexivity.
Qed.

Lemma Forall2_with_right {A B : Type} (R : A -> B -> Prop) (P : B -> Prop)
    (l : list A) (k : list B) :
  Forall2 R l k -> Forall P k -> Forall2 (fun a b => R a b /\ P b) l k.
Proof.
  induction 1 as [|a b l k Hab _ IH]; intro HP; constructor;
    inversion HP; subst; auto.
Qed.

(** The walk and the walk with its log return together. *)
Lemma traced_walk_of_loop {L : Str.Lowering}
    (fs : FS) (tree : DirListing) (root_path : Path) (out : string)
    (st : walk_state) :
  generate_tree_loop fs tree root_path out = Ok st ->
  exists visited,
    os_walk (traced (visit fs root_path out)) tree (PathOps.str root_path) (init_state, [])
      = Ok (st, visited).
Proof.
  intro E.
  pose proof (os_walk_traced (visit fs root_path out) tree (PathOps.str root_path)
                init_state []) as Hrel.
  unfold generate_tree_loop in E. rewrite E in Hrel.
  destruct (os_walk (traced (visit fs root_path out)) tree (PathOps.str root_path)
              (init_state, [])) as [[st' visited]|e]; simpl in Hrel; [|contradiction].
  subst st'. exists visited; reflexivity.
Qed.

Lemma traced_walk_result {L : Str.Lowering}
    (fs : FS) (tree : DirListing) (root_path : Path) (out : string)
    (st : walk_state) (visited : list string) :
  os_walk (traced (visit fs root_path out)) tree (PathOps.str root_path) (init_state, [])
    = Ok (st, visited) ->
  generate_tree_loop fs tree root_path out = Ok st /\
  tree_consistent fs root_path out st /\
  Forall (admitted_dir fs root_path out) visited.
Proof.
  intro E.
  pose proof (walked_dirs_admitted fs tree root_path out) as H.
  rewrite E in H. destruct H as [Hst Hlog].
  split; [|split; assumption].
  pose proof (os_walk_traced (visit fs root_path out) tree (PathOps.str root_path)
                init_state []) as Hrel.
  rewrite E in Hrel. unfold generate_tree_loop.
  destruct (os_walk (visit fs root_path out) tree (PathOps.str root_path) init_state)
    as [st'|e]; simpl in Hrel; [subst; reflexivity | contradiction].
Qed.

(** C4: a path with a segment that is exactly an ignored directory name is
    ignored, whatever [stat] does.  The walk prunes: nothing beneath an
    ignored directory changes what [generate_tree] returns or raises; and
    whenever the walk returns, the directories it visited are the root and
    entries without such a segment, and no kept file, schema file or file
    line of the tree belongs to a path with such a segment.  The walk with
    its log returns whenever [generate_tree] does. *)
Theorem ignored_dirs_pruned {L : Str.Lowering}
    (fs : FS) (tree : DirListing) (root_path : Path) (out : string) :
  (forall path part,
     In part (PathOps.parts path) -> In part IGNORED_DIRS ->
     is_ignored fs path out = Ok true) /\
  generate_tree fs (prune tree) root_path out = generate_tree fs tree root_path out /\
  (forall st visited,
     os_walk (traced (visit fs root_path out)) tree (PathOps.str root_path) (init_state, [])
       = Ok (st, visited) ->
     generate_tree fs tree root_path out =
       Ok (String.concat nl (tree_lines st), files_to_dump st, schema_files st) /\
     (forall p part,
        In p (files_to_dump st) \/ In p (schema_files st) ->
        In part (PathOps.parts p) -> ~ In part IGNORED_DIRS) /\
     Forall2 (fun line p =>
                file_line_of root_path line p /\
                forall part, In part (PathOps.parts p) -> ~ In part IGNORED_DIRS)
             (filter is_file_line (tree_lines st)) (files_to_dump st) /\
     Forall (fun top =>
               top = PathOps.str root_path \/
               exists parent d,
                 top = PathOps.os_path_join parent d /\
                 forall part, In part (PathOps.parts (PathOps.parse parent // d)) ->
                              ~ In part IGNORED_DIRS)
            visited) /\
  (forall text kept schema,
     generate_tree fs tree root_path out = Ok (text, kept, schema) ->
     (forall p part,
        In p kept \/ In p schema ->
        In part (PathOps.parts p) -> ~ In part IGNORED_DIRS) /\
     exists st visited,
       os_walk (traced (visit fs root_path out)) tree (PathOps.str root_path)
         (init_state, []) = Ok (st, visited) /\
       text = String.concat nl (tree_lines st) /\
       kept = files_to_dump st /\ schema = schema_files st).
Proof.
  split; [intros path part; apply ignored_dir_segment|].
  split.
  { unfold generate_tree, generate_tree_loop.
    rewrite os_walk_prune; [reflexivity|].
    intros st top dirs files st' dirs'. apply visit_drops_ignored_dirs. }
  assert (Hkept : forall st, tree_consistent fs root_path out st ->
            forall p part,
              In p (files_to_dump st) \/ In p (schema_files st) ->
              In part (PathOps.parts p) -> ~ In part IGNORED_DIRS).
  { intros st [Hs [_ Hk]] p part Hp.
    assert (Hin : In p (files_to_dump st)).
    { destruct Hp as [Hp|Hp]; [exact Hp|].
      rewrite Hs in Hp. apply filter_In in Hp as [Hp _]. exact Hp. }
    rewrite Forall_forall in Hk.
    apply (not_ignored_no_ignored_dir fs p out (Hk p Hin)). }
  split.
  - intros st visited E.
    destruct (traced_walk_result fs tree root_path out st visited E)
      as [Hloop [Hst Hv]].
    split; [apply generate_tree_of_loop; exact Hloop|].
    split; [apply Hkept; exact Hst|]. split.
    + destruct Hst as [Hs [Hl Hk]].
      apply Forall2_with_right; [exact Hl|].
      eapply Forall_impl; [|exact Hk].
      intros p Hp. apply (not_ignored_no_ignored_dir fs p out Hp).
    + eapply Forall_impl; [|exact Hv].
      intros top [Htop | [parent [d [Htop Hd]]]]; [left; exact Htop|].
      right. exists parent, d. split; [exact Htop|].
      apply (not_ignored_no_ignored_dir fs _ out Hd).
  - intros text kept schema H.
    apply generate_tree_consistent in H as [st [E [-> [-> [-> Hst]]]]].
    split; [apply Hkept; exact Hst|].
    destruct (traced_walk_of_loop fs tree root_path out st E) as [visited Hv].
    exists st, visited. auto.
Qed.

Lemma ignored_dirs_pruned_witness :
  is_ignored (files_of_size 10) (PathOps.parse "proj/node_modules/pkg/index.js")
    "project_dump.txt" = Ok true.
Proof.
  destruct (ignored_dirs_pruned (files_of_size 10) NotWalked (PathOps.parse "proj")
              "project_dump.txt") as [H _].
  apply (H _ "node_modules").
  - vm_compute. auto.
  - vm_compute. auto.
Defined.

(** *** Determinism *)

Lemma is_ignored_ext {L : Str.Lowering} (fs1 fs2 : FS) (path : Path) (out : string) :
  fs1 path = fs2 path -> is_ignored fs1 path out = is_ignored fs2 path out.
Proof.
  intro E. unfold is_ignored, is_large, is_file, stat. rewrite E. reflexivity.
Qed.

Lemma visit_ext {L : Str.Lowering} (fs1 fs2 : FS) (root_path : Path) (out : string) :
  (forall p, fs1 p = fs2 p) ->
  forall st top dirs files,
    visit fs1 root_path out st top dirs files = visit fs2 root_path out st top dirs files.
Proof.
  intros E st top dirs files. unfold visit.
  rewrite (filterM_ext
             (fun d => ign <- is_ignored fs1 (PathOps.parse top // d) out ;; ret (negb ign))
             (fun d => ign <- is_ignored fs2 (PathOps.parse top // d) out ;; ret (negb ign)))
    by (intro d; rewrite (is_ignored_ext fs1 fs2) by apply E; reflexivity).
  destruct (filterM _ dirs) as [dirs'|e]; [|reflexivity].
  cbn [bind].
  rewrite (foldM_ext (visit_file fs1 out top (indent_of (level_of root_path top + 1)))
                     (visit_file fs2 out top (indent_of (level_of root_path top + 1))));
    [reflexivity|].
  intros s f. unfold visit_file.
  rewrite (is_ignored_ext fs1 fs2) by apply E. reflexivity.
Qed.

Lemma traced_ext {S : Type}
    (body1 body2 : S -> string -> list string -> list string -> result (S * list string)) :
  (forall st top dirs files, body1 st top dirs files = body2 st top dirs files) ->
  forall sl top dirs files,
    traced body1 sl top dirs files = traced body2 sl top dirs files.
Proof. intros E sl top dirs files. unfold traced. rewrite E. reflexivity. Qed.

Lemma schema_iteration_order {L : Str.Lowering} (keys : list string) (path : Path) :
  Permutation keys SCHEMA_HINT_NAMES ->
  looks_like_schema_file_iter keys path = looks_like_schema_file path.
Proof.
  intro HP. unfold looks_like_schema_file. rewrite !schema_rules.
  unfold any_key_in. rewrite (existsb_Permutation _ _ _ HP). reflexivity.
Qed.

(** C8: the traversal is a function of the path, the rule tables and the
    filesystem.  Two runs that see the same listing and the same [stat]
    outcomes end the same way: they return the same tree text, the same kept
    files and the same schema files, having visited the same directories,
    or they raise the same exception.  [is_ignored] reads the filesystem
    only through [stat] of the path it is asked about, and the order in
    which the set of schema hint names happens to be iterated changes
    nothing.  Where [path.is_file()] returns for every path, both runs
    return. *)
Theorem traversal_deterministic {L : Str.Lowering}
    (fs1 fs2 : FS) (tree : DirListing) (root_path : Path)
    (out : string) :
  (forall p, fs1 p = fs2 p) ->
  generate_tree fs1 tree root_path out = generate_tree fs2 tree root_path out /\
  walked_dirs fs1 tree root_path out = walked_dirs fs2 tree root_path out /\
  (forall fs p, fs p = fs1 p -> is_ignored fs p out = is_ignored fs2 p out) /\
  (forall keys p, Permutation keys SCHEMA_HINT_NAMES ->
                  looks_like_schema_file_iter keys p = looks_like_schema_file p) /\
  ((forall p, examined fs1 p) ->
   exists r, generate_tree fs1 tree root_path out = Ok r /\
             generate_tree fs2 tree root_path out = Ok r).
Proof.
  intro E.
  assert (Heq : generate_tree fs1 tree root_path out = generate_tree fs2 tree root_path out).
  { unfold generate_tree, generate_tree_loop.
    rewrite (os_walk_ext (visit fs1 root_path out) (visit fs2 root_path out))
      by (apply visit_ext; exact E).
    reflexivity. }
  split; [exact Heq|]. split; [|split; [|split]].
  - unfold walked_dirs.
    rewrite (os_walk_ext (traced (visit fs1 root_path out))
                         (traced (visit fs2 root_path out)))
      by (apply traced_ext, visit_ext; exact E).
    reflexivity.
  - intros fs p Hp. apply is_ignored_ext. rewrite Hp. apply E.
  - intros keys p. apply schema_iteration_order.
  - intro Hex. destruct (generate_tree_returns fs1 tree root_path out Hex) as [r Hr].
    exists r. rewrite <- Heq. split; exact Hr.
Qed.

Lemma traversal_deterministic_witness :
  generate_tree (files_of_size 10) (Scanned [("db", Scanned [] ["init.sql"])] ["app.py"])
    (PathOps.parse "proj") "project_dump.txt"
  = generate_tree (fun p => files_of_size 10 p)
      (Scanned [("db", Scanned [] ["init.sql"])] ["app.py"])
      (PathOps.parse "proj") "project_dump.txt".
Proof.
  apply (traversal_deterministic (files_of_size 10) (fun p => files_of_size 10 p)).
  intro p. reflexivity.
Defined.

(** C10: a regular file without extension that is not schema-like is
    ignored, whether or not an earlier rule matches it, because the empty
    suffix is not a code-like extension; so it is never among the kept
    files. *)
Theorem extensionless_files_ignored {L : Str.Lowering} (fs : FS) (path : Path) (out : string) :
  PathOps.suffix path = "" ->
  is_file fs path = Ok true ->
  looks_like_schema_file path = false ->
  ~ In "" ALLOWED_CODE_EXTENSIONS /\
  is_ignored fs path out = Ok true /\
  (forall tree root_path text kept schema,
     generate_tree fs tree root_path out = Ok (text, kept, schema) ->
     ~ In path kept /\ ~ In path schema).
Proof.
  intros Hsuf Hfile Hschema.
  assert (Hign : is_ignored fs path out = Ok true).
  { rewrite (is_ignored_examined fs path out true Hfile). unfold verdict.
    rewrite Hschema. unfold ext; rewrite Hsuf.
    replace (Str.mem (Str.lower "") ALLOWED_CODE_EXTENSIONS) with false
      by (lower_literals; reflexivity).
    cbn [andb negb]. rewrite !orb_true_r. reflexivity. }
  split; [not_in_table|].
  split; [exact Hign|].
  intros tree root_path text kept schema Hgen.
  apply generate_tree_consistent in Hgen as [st [E [-> [-> [-> [Hs [_ Hk]]]]]]].
  assert (Hnot : ~ In path (files_to_dump st)).
  { intro Hin. rewrite Forall_forall in Hk. specialize (Hk path Hin). congruence. }
  split; [exact Hnot|].
  rewrite Hs. intro Hin. apply filter_In in Hin as [Hin _]. contradiction.
Qed.

Lemma extensionless_files_ignored_witness :
  is_ignored (files_of_size 300) (PathOps.parse "proj/Makefile") "project_dump.txt" = Ok true.
Proof.
  apply (extensionless_files_ignored (files_of_size 300) (PathOps.parse "proj/Makefile")
           "project_dump.txt"); reflexivity.
Defined.

(** *** Indentation *)

(** C9 fails on the code.  Walking [app/src] when it holds a directory
    [app] that holds a directory [src]: the path of that inner directory
    lies two separators below the root, but [replace] removes the root
    string from it twice, leaving one separator, and the directory is drawn
    at the indentation of its parent. *)
Theorem repeated_root_indentation :
  let root_path := PathOps.parse "app/src" in
  let tree := Scanned [("app", Scanned [("src", Scanned [] [])] [])] [] in
  PathOps.str root_path = "app/src" /\
  walked_dirs only_dirs tree root_path "project_dump.txt"
    = Ok ["app/src"; "app/src/app"; "app/src/app/src"] /\
  Str.count sep "/app/src" = 2 /\
  Str.remove_all "app/src" "app/src/app/src" = "/" /\
  level_of root_path "app/src/app" = 1 /\
  level_of root_path "app/src/app/src" = 1 /\
  generate_tree_loop only_dirs tree root_path "project_dump.txt"
    = Ok (mkState ["📂 src/"; "    📂 app/"; "    📂 src/"] [] []).
Proof. cbv zeta. repeat split; vm_compute; reflexivity. Qed.

(** Where the indentation is the depth: when the string of the root path
    holds no separator (a root such as [proj] or [.]), removing it never
    removes a separator, and the level of a directory is the number of
    separators of its path. *)
Lemma prefix_take_no_sep (old s : string) :
  prefix old s = true -> Str.count sep old = 0 ->
  Str.count sep (substring 0 (String.length old) s) = 0.
Proof.
  revert s. induction old as [|c old IH]; intros s Hp Hc.
  - destruct s; reflexivity.
  - destruct s as [|a s]; [discriminate|].
    simpl in Hp. destruct (ascii_dec c a) as [->|]; [|discriminate].
    simpl in Hc. simpl.
    destruct (Ascii.eqb a sep); [discriminate|].
    simpl in *. apply IH; assumption.
Qed.

Lemma remove_from_keeps_sep (old : string) :
  Str.count sep old = 0 ->
  forall s skip,
    Str.count sep (substring 0 skip s) = 0 ->
    Str.count sep (Str.remove_from old skip s) = Str.count sep s.
Proof.
  intros Hold s. induction s as [|a s IH]; intros skip Hskip; [reflexivity|].
  destruct skip as [|k].
  - cbn [Str.remove_from].
    destruct old as [|c old'].
    + cbn [Str.count]. rewrite (IH 0); [reflexivity | destruct s; reflexivity].
    + destruct (prefix (String c old') (String a s)) eqn:Hp.
      * assert (Hp' := Hp). simpl in Hp'.
        destruct (ascii_dec c a) as [->|]; [|discriminate].
        assert (Hold' := Hold). cbn [Str.count] in Hold'.
        destruct (Ascii.eqb a sep) eqn:Ea; [discriminate|].
        cbn [Nat.add] in Hold'.
        cbn [Str.count]. rewrite Ea. cbn [Nat.add].
        apply IH. apply prefix_take_no_sep; assumption.
      * cbn [Str.count]. rewrite (IH 0); [reflexivity | destruct s; reflexivity].
  - cbn [Str.remove_from]. cbn [substring Str.count] in Hskip.
    cbn [Str.count].
    destruct (Ascii.eqb a sep); [discriminate|].
    apply IH. exact Hskip.
Qed.

Lemma level_of_single_segment_root (root_path : Path) (top : string) :
  Str.count sep (PathOps.str root_path) = 0 ->
  level_of root_path top = Str.count sep top.
Proof.
  intro H. unfold level_of, Str.remove_all.
  apply remove_from_keeps_sep; [exact H | destruct top; reflexivity].
Qed.

(** ** A run *)

(** The end-to-end scenario: the migration and the source file are kept, the
    migration is flagged, [node_modules] and the image are absent. *)
Example scenario_run :
  generate_tree_loop scenario_fs scenario_tree (PathOps.parse "proj") "project_dump.txt" =
  Ok (mkState
        [ "📂 proj/";
          "    📂 migrations/";
          "        🗄️ 001_init.sql";
          "    📂 src/";
          "        📄 app.py" ]
        [ mkPath "" ["proj"; "migrations"; "001_init.sql"];
          mkPath "" ["proj"; "src"; "app.py"] ]
        [ mkPath "" ["proj"; "migrations"; "001_init.sql"] ]).
Proof. vm_compute. reflexivity. Qed.

Lemma scenario_unique : unique_names scenario_tree.
Proof.
  unfold scenario_tree.
  constructor.
  - cbn [map fst]. repeat constructor; simpl; intuition discriminate.
  - repeat constructor; simpl; intuition discriminate.
Qed.

Lemma scenario_generate :
  generate_tree scenario_fs scenario_tree (PathOps.parse "proj") "project_dump.txt" =
  Ok (String.concat nl
        [ "📂 proj/";
          "    📂 migrations/";
          "        🗄️ 001_init.sql";
          "    📂 src/";
          "        📄 app.py" ],
      [ mkPath "" ["proj"; "migrations"; "001_init.sql"];
        mkPath "" ["proj"; "src"; "app.py"] ],
      [ mkPath "" ["proj"; "migrations"; "001_init.sql"] ]).
Proof. vm_compute. reflexivity. Qed.

(** * Further properties *)

(** ** The walk, directory by directory *)

Lemma append_state_assoc (a b c : walk_state) :
  append_state (append_state a b) c = append_state a (append_state b c).
Proof. unfold append_state; simpl; rewrite <- !app_assoc; reflexivity. Qed.

Lemma append_state_nil (st : walk_state) : append_state st (mkState [] [] []) = st.
Proof. destruct st; unfold append_state; simpl; rewrite !app_nil_r; reflexivity. Qed.

Lemma state_of_blocks_app {L : Str.Lowering} (root_path : Path) (a b : list block) :
  state_of_blocks root_path (a ++ b) =
  append_state (state_of_blocks root_path a) (state_of_blocks root_path b).
Proof.
  unfold state_of_blocks, append_state; simpl.
  rewrite !flat_map_app, filter_app; reflexivity.
Qed.

(** The state that the kept files [names] of [top] add, when the loop over
    the files returns. *)
Lemma foldM_visit_file {L : Str.Lowering} (fs : FS) (root_path : Path) (out top : string) :
  forall (files : list string) (st st' : walk_state),
    foldM (visit_file fs out top (indent_of (level_of root_path top + 1))) files st = Ok st' ->
    st' =
    (let names := filter (fun f => negb (ignored fs (PathOps.parse top // f) out)) files in
     let paths := map (fun f => PathOps.parse top // f) names in
     append_state st
       (mkState (map (file_line root_path top) names) paths
                (filter looks_like_schema_file paths))).
Proof.
  induction files as [|f files IH]; intros st st' H; cbn zeta.
  - cbn [foldM filter map ret] in *. injection H as <-.
    rewrite append_state_nil; reflexivity.
  - cbn [foldM] in H. apply bind_Ok in H as [s1 [E1 H]].
    apply IH in H. cbn zeta in H. subst st'.
    unfold visit_file in E1.
    destruct (is_ignored fs (PathOps.parse top // f) out) as [b|e] eqn:E;
      [|discriminate].
    cbn [bind] in E1. cbn [filter]. rewrite (ignored_Ok _ _ _ _ E).
    destruct b; cbn [negb] in *; injection E1 as <-; [reflexivity|].
    unfold append_state; cbn [tree_lines files_to_dump schema_files map filter].
    fold (mark_of (PathOps.parse top // f)). unfold file_line at 2.
    destruct (looks_like_schema_file (PathOps.parse top // f));
      cbn [tree_lines files_to_dump schema_files];
      rewrite <- ?app_assoc; reflexivity.
Qed.

(** One round of the loop over [os.walk], when it returns, has added the
    block of the directory and left in [dirs] the entries that are not
    ignored. *)
Lemma visit_block {L : Str.Lowering}
    (fs : FS) (root_path : Path) (out : string) (st : walk_state)
    (top : string) (depth : nat) (dirs files : list string)
    (st' : walk_state) (dirs' : list string) :
  visit fs root_path out st top dirs files = Ok (st', dirs') ->
  st' = append_state st
          (state_of_blocks root_path [mkBlock top depth (kept_names fs out top files)]) /\
  dirs' = filter (fun d => negb (ignored fs (PathOps.parse top // d) out)) dirs.
Proof.
  intro H. split; [|eapply visit_dirs; exact H].
  unfold visit in H. apply bind_Ok in H as [dirs0 [_ H]].
  apply bind_Ok in H as [st2 [E H]]. injection H as <- _.
  apply foldM_visit_file in E. cbn zeta in E. subst st2.
  unfold state_of_blocks, block_lines, block_paths, dir_lines, kept_names.
  cbn [flat_map b_top b_names]. rewrite !app_nil_r.
  destruct ((0 <? level_of root_path top)%nat || String.eqb top (PathOps.str root_path));
    [destruct (negb (String.eqb (PathOps.basename top) ""))|];
    unfold append_state; cbn [tree_lines files_to_dump schema_files app];
    rewrite <- ?app_assoc; reflexivity.
Qed.

Section Lookup.

Context {S : Type}.
Variable body : S -> string -> list string -> list string -> result (S * list string).

(** Among entries with distinct names, the walk goes down into the entry
    that bears the name. *)
Lemma descend_found (top n : string) (sub : DirListing) (s : S)
    (children : list (string * DirListing)) :
  NoDup (map fst children) ->
  In (n, sub) children ->
  (fix descend (cs : list (string * DirListing)) : result S :=
     match cs with
     | [] => ret s
     | (n', sub') :: cs' =>
         if String.eqb n' n
         then os_walk body sub' (PathOps.os_path_join top n) s
         else descend cs'
     end) children = os_walk body sub (PathOps.os_path_join top n) s.
Proof.
  induction children as [|[n' sub'] cs IH]; intros Hnd Hin; [destruct Hin|].
  cbn [map fst] in Hnd. inversion Hnd as [|? ? Hnot Hnd']; subst.
  destruct (String.eqb n' n) eqn:E.
  - apply String.eqb_eq in E; subst n'.
    destruct Hin as [Hin|Hin]; [injection Hin as ->; reflexivity|].
    exfalso. apply Hnot. apply (in_map fst) in Hin. exact Hin.
  - destruct Hin as [Hin|Hin].
    + injection Hin as -> _. rewrite String.eqb_refl in E; discriminate.
    + apply IH; assumption.
Qed.

End Lookup.

(** What the walk with its log returns: the blocks of the directories it
    visits, and their paths. *)
Lemma os_walk_traced_blocks {L : Str.Lowering} (fs : FS) (root_path : Path) (out : string) :
  forall t, unique_names t ->
  forall top depth st log r,
    os_walk (traced (visit fs root_path out)) t top (st, log) = Ok r ->
    r = (append_state st (state_of_blocks root_path (walk_blocks fs out t top depth)),
         (log ++ map b_top (walk_blocks fs out t top depth))%list).
Proof.
  intro t.
  induction t as [|children files IH] using DirListing_nested_ind;
    intros Hu top depth st log r H.
  - cbn [os_walk walk_blocks ret map] in *. injection H as <-.
    unfold state_of_blocks; cbn [flat_map filter].
    rewrite append_state_nil, app_nil_r; reflexivity.
  - inversion Hu as [|? ? Hnd Hsub]; subst.
    cbn [os_walk walk_blocks] in *.
    apply bind_Ok in H as [[[st1 log1] dirs'] [E1 H]].
    unfold traced in E1. cbn [fst snd] in E1.
    apply bind_Ok in E1 as [[st1' dirs1] [Ev E1]].
    injection E1 as <- <- <-.
    apply (visit_block fs root_path out st top depth) in Ev as [-> ->].
    change (mkBlock top depth (kept_names fs out top files) ::
            flat_map (fun c => match c with
                               | (n, sub) =>
                                   if ignored fs (PathOps.parse top // n) out then []
                                   else walk_blocks fs out sub
                                          (PathOps.os_path_join top n) (S depth)
                               end) children)
      with ([mkBlock top depth (kept_names fs out top files)] ++
            flat_map (fun c => match c with
                               | (n, sub) =>
                                   if ignored fs (PathOps.parse top // n) out then []
                                   else walk_blocks fs out sub
                                          (PathOps.os_path_join top n) (S depth)
                               end) children)%list.
    rewrite state_of_blocks_app, <- append_state_assoc, map_app, app_assoc.
    cbn [map b_top].
    revert H.
    generalize (append_state st
                  (state_of_blocks root_path
                     [mkBlock top depth (kept_names fs out top files)])).
    generalize (log ++ [top])%list.
    assert (Hin : forall c, In c children -> In c children) by auto.
    revert r Hin IH Hsub.
    generalize children at 1 3 4 6 7 8 as cs.
    induction cs as [|[n sub] cs IHcs]; intros r Hin IH Hsub log1 st1 H.
    + cbn [map filter foldM flat_map ret] in *. injection H as <-.
      unfold state_of_blocks at 1.
      cbn [flat_map filter]. rewrite append_state_nil, app_nil_r; reflexivity.
    + inversion IH as [|? ? IHsub IHrest]; subst.
      inversion Hsub as [|? ? Husub Hurest]; subst.
      cbn [map fst filter flat_map] in *.
      destruct (ignored fs (PathOps.parse top // n) out) eqn:E; cbn [negb] in *.
      * cbn [app]. apply IHcs;
          [intros c Hc; apply Hin; right; exact Hc | assumption..].
      * cbn [foldM] in H. apply bind_Ok in H as [[s2 l2] [E2 H]].
        rewrite (descend_found (traced (visit fs root_path out)) top n sub (st1, log1)
                   children Hnd) in E2
          by (apply Hin; left; reflexivity).
        cbn [snd] in IHsub. apply (IHsub Husub _ (S depth)) in E2.
        injection E2 as -> ->.
        apply IHcs in H; [|intros c Hc; apply Hin; right; exact Hc | assumption..].
        subst r.
        rewrite state_of_blocks_app, append_state_assoc, map_app, app_assoc.
        reflexivity.
Qed.

(** What the walk returns. *)
Lemma os_walk_blocks {L : Str.Lowering} (fs : FS) (root_path : Path) (out : string) :
  forall t, unique_names t ->
  forall top depth st st',
    os_walk (visit fs root_path out) t top st = Ok st' ->
    st' = append_state st (state_of_blocks root_path (walk_blocks fs out t top depth)).
Proof.
  intros t Hu top depth st st' H.
  pose proof (os_walk_traced (visit fs root_path out) t top st []) as Hrel.
  rewrite H in Hrel.
  destruct (os_walk (traced (visit fs root_path out)) t top (st, [])) as [[s l]|e] eqn:E;
    simpl in Hrel; [|contradiction].
  subst s. apply (os_walk_traced_blocks fs root_path out t Hu top depth) in E.
  injection E as -> _. reflexivity.
Qed.

(** *** Order of names *)

Lemma leb_iff (a b : string) :
  String.leb a b = true <-> a = b \/ OrderedTypeEx.String_as_OT.lt a b.
Proof.
  unfold String.leb.
  destruct (String.compare a b) eqn:E; split; intro H; try reflexivity.
  - left. apply OrderedTypeEx.String_as_OT.cmp_eq; exact E.
  - right. apply OrderedTypeEx.String_as_OT.cmp_lt; exact E.
  - discriminate.
  - destruct H as [H|H].
    + apply OrderedTypeEx.String_as_OT.cmp_eq in H.
      unfold OrderedTypeEx.String_as_OT.cmp in H. congruence.
    + apply OrderedTypeEx.String_as_OT.cmp_lt in H.
      unfold OrderedTypeEx.String_as_OT.cmp in H. congruence.
Qed.

Lemma leb_trans (a b c : string) :
  String.leb a b = true -> String.leb b c = true -> String.leb a c = true.
Proof.
  rewrite !leb_iff. intros [->|H1] [->|H2]; auto.
  right. eapply OrderedTypeEx.String_as_OT.lt_trans; eassumption.
Qed.

Lemma leb_false_flip (a b : string) : String.leb a b = false -> String.leb b a = true.
Proof.
  intro H. destruct (String.leb_total a b) as [E|E]; [congruence | exact E].
Qed.

Lemma insert_sorted_In (x y : string) (l : list string) :
  In y (Str.insert_sorted x l) <-> y = x \/ In y l.
Proof.
  induction l as [|z l IH]; simpl.
  - split; intros [H|H]; auto.
  - destruct (String.leb x z); simpl; [split; intros [H|H]; auto|].
    rewrite IH. split; intros [H|[H|H]]; auto.
Qed.

Lemma insert_sorted_ascending (x : string) (l : list string) :
  ascending l -> ascending (Str.insert_sorted x l).
Proof.
  unfold ascending. induction 1 as [|z l Hl IH Hz]; simpl.
  - repeat constructor.
  - destruct (String.leb x z) eqn:E.
    + constructor; [constructor; assumption|].
      constructor; [exact E|].
      eapply Forall_impl; [|exact Hz].
      intros w Hw. eapply leb_trans; eassumption.
    + constructor; [exact IH|].
      apply Forall_forall. intros w Hw. apply insert_sorted_In in Hw as [->|Hw].
      * apply leb_false_flip; exact E.
      * rewrite Forall_forall in Hz. apply Hz; exact Hw.
Qed.

Lemma sorted_ascending (l : list string) : ascending (Str.sorted l).
Proof.
  induction l as [|x l IH]; simpl; [constructor|].
  apply insert_sorted_ascending; exact IH.
Qed.

Lemma filter_ascending (f : string -> bool) (l : list string) :
  ascending l -> ascending (filter f l).
Proof.
  unfold ascending. induction 1 as [|z l Hl IH Hz]; simpl; [constructor|].
  destruct (f z); [|exact IH].
  constructor; [exact IH|].
  apply Forall_forall. intros w Hw. apply filter_In in Hw as [Hw _].
  rewrite Forall_forall in Hz. apply Hz; exact Hw.
Qed.

Lemma kept_names_spec {L : Str.Lowering} (fs : FS) (out top : string) (files : list string) :
  ascending (kept_names fs out top files) /\
  (forall f, In f (kept_names fs out top files) <->
             In f files /\ is_ignored fs (PathOps.parse top // f) out = Ok false).
Proof.
  split; [apply filter_ascending, sorted_ascending|].
  intro f. unfold kept_names. rewrite filter_In, negb_true_iff, ignored_false.
  split; intros [H1 H2]; split; try exact H2.
  - eapply Permutation_in; [apply sorted_Permutation | exact H1].
  - eapply Permutation_in; [apply Permutation_sym, sorted_Permutation | exact H1].
Qed.

Lemma walk_blocks_ascending {L : Str.Lowering} (fs : FS) (out : string) :
  forall t top depth,
    Forall (fun b => ascending (b_names b)) (walk_blocks fs out t top depth).
Proof.
  intro t.
  induction t as [|children files IH] using DirListing_nested_ind; intros top depth.
  - constructor.
  - cbn [walk_blocks]. constructor; [apply kept_names_spec|].
    apply Forall_flat_map.
    induction IH as [|[n sub] cs Hsub _ IHcs]; constructor; [|exact IHcs].
    destruct (ignored fs (PathOps.parse top // n) out); [constructor | apply Hsub].
Qed.

Lemma walk_blocks_lists {L : Str.Lowering} (fs : FS) (out : string) :
  forall t top depth p,
    In p (flat_map block_paths (walk_blocks fs out t top depth)) <->
    exists dir f, lists fs out t top dir f /\
                  is_ignored fs (PathOps.parse dir // f) out = Ok false /\
                  p = PathOps.parse dir // f.
Proof.
  intro t.
  induction t as [|children files IH] using DirListing_nested_ind; intros top depth p.
  - cbn [walk_blocks flat_map]. split; [intros [] | intros [dir [f [H _]]]; inversion H].
  - cbn [walk_blocks flat_map]. rewrite in_app_iff. split.
    + intros [Hp|Hp].
      * unfold block_paths in Hp; cbn [b_top b_names] in Hp.
        apply in_map_iff in Hp as [f [<- Hf]].
        apply kept_names_spec in Hf as [Hf Hign].
        exists top, f. split; [constructor; exact Hf | split; [exact Hign | reflexivity]].
      * apply in_flat_map in Hp as [b [Hb Hp]].
        apply in_flat_map in Hb as [[n sub] [Hc Hb]].
        destruct (ignored fs (PathOps.parse top // n) out) eqn:E; [destruct Hb|].
        rewrite Forall_forall in IH. specialize (IH (n, sub) Hc). cbn [snd] in IH.
        assert (Hp' : In p (flat_map block_paths
                             (walk_blocks fs out sub (PathOps.os_path_join top n) (S depth))))
          by (apply in_flat_map; exists b; auto).
        apply IH in Hp' as [dir [f [Hl [Hign ->]]]].
        exists dir, f. split; [|auto].
        eapply lists_below; [exact Hc | apply ignored_false; exact E | exact Hl].
    + intros [dir [f [Hl [Hign ->]]]].
      inversion Hl as [? ? ? ? Hf | ? ? ? n sub ? ? Hc Hn Hsub]; subst.
      * left. unfold block_paths; cbn [b_top b_names].
        apply in_map. apply kept_names_spec. auto.
      * right.
        rewrite Forall_forall in IH. specialize (IH (n, sub) Hc). cbn [snd] in IH.
        assert (Hp : In (PathOps.parse dir // f)
                       (flat_map block_paths
                          (walk_blocks fs out sub (PathOps.os_path_join top n) (S depth))))
          by (apply IH; exists dir, f; auto).
        apply in_flat_map in Hp as [b [Hb Hp]].
        apply in_flat_map. exists b. split; [|exact Hp].
        apply in_flat_map. exists (n, sub). split; [exact Hc|].
        apply ignored_false in Hn. rewrite Hn. exact Hb.
Qed.

Lemma generate_tree_loop_blocks {L : Str.Lowering}
    (fs : FS) (tree : DirListing) (root_path : Path)
    (out : string) (st : walk_state) :
  unique_names tree ->
  generate_tree_loop fs tree root_path out = Ok st ->
  st = state_of_blocks root_path (walk_blocks fs out tree (PathOps.str root_path) 0).
Proof.
  intros Hu H. unfold generate_tree_loop in H.
  apply (os_walk_blocks fs root_path out tree Hu _ 0) in H. exact H.
Qed.

(** What [generate_tree] returns, directory by directory. *)
Lemma generate_tree_blocks {L : Str.Lowering} (fs : FS) (tree : DirListing) (root_path : Path)
    (out : string) (text : string) (kept schema : list Path) :
  unique_names tree ->
  generate_tree fs tree root_path out = Ok (text, kept, schema) ->
  text = String.concat nl
           (flat_map (block_lines root_path)
              (walk_blocks fs out tree (PathOps.str root_path) 0)) /\
  kept = flat_map block_paths (walk_blocks fs out tree (PathOps.str root_path) 0) /\
  schema = filter looks_like_schema_file
             (flat_map block_paths (walk_blocks fs out tree (PathOps.str root_path) 0)) /\
  walked_dirs fs tree root_path out =
    Ok (map b_top (walk_blocks fs out tree (PathOps.str root_path) 0)).
Proof.
  intros Hu H. apply generate_tree_Ok in H as [st [E [-> [-> ->]]]].
  destruct (traced_walk_of_loop fs tree root_path out st E) as [visited Hv].
  apply (generate_tree_loop_blocks fs tree root_path out st Hu) in E. subst st.
  repeat split.
  unfold walked_dirs. rewrite Hv. cbn [bind ret snd].
  apply (os_walk_traced_blocks fs root_path out tree Hu _ 0) in Hv.
  apply (f_equal snd) in Hv. cbn [snd app] in Hv. rewrite Hv. reflexivity.
Qed.

(** X1. On a listing that names no subdirectory twice, what
    [generate_tree] returns is what the walk amounts to directory by
    directory: for each visited directory, top-down, its line when one is
    drawn and then the lines and paths of its kept files; the schema files
    are the schema-like ones among the kept files; and the directories
    visited are those blocks' directories, in that order. *)
Theorem traversal_by_directory {L : Str.Lowering}
    (fs : FS) (tree : DirListing) (root_path : Path)
    (out : string) (text : string) (kept schema : list Path) :
  unique_names tree ->
  generate_tree fs tree root_path out = Ok (text, kept, schema) ->
  let blocks := walk_blocks fs out tree (PathOps.str root_path) 0 in
  text = String.concat nl (flat_map (block_lines root_path) blocks) /\
  kept = flat_map block_paths blocks /\
  schema = filter looks_like_schema_file (flat_map block_paths blocks) /\
  walked_dirs fs tree root_path out = Ok (map b_top blocks).
Proof.
  intros Hu H blocks. apply generate_tree_blocks; assumption.
Qed.

Lemma traversal_by_directory_witness :
  walked_dirs scenario_fs scenario_tree (PathOps.parse "proj") "project_dump.txt" =
  Ok ["proj"; "proj/migrations"; "proj/src"].
Proof.
  destruct (traversal_by_directory scenario_fs scenario_tree (PathOps.parse "proj")
              "project_dump.txt" _ _ _ scenario_unique scenario_generate) as [_ [_ [_ H]]].
  rewrite H. vm_compute. reflexivity.
Defined.

(** X2. Within every visited directory the kept files are listed in
    ascending byte-wise order of their names: the kept files that
    [generate_tree] returns are the concatenation, directory after directory
    in the order of the walk, of the names kept in that directory, and each
    of these name lists ascends. *)
Theorem kept_files_in_name_order {L : Str.Lowering}
    (fs : FS) (tree : DirListing) (root_path : Path)
    (out : string) (text : string) (kept schema : list Path) :
  unique_names tree ->
  generate_tree fs tree root_path out = Ok (text, kept, schema) ->
  let blocks := walk_blocks fs out tree (PathOps.str root_path) 0 in
  kept = flat_map (fun b => map (fun f => PathOps.parse (b_top b) // f) (b_names b)) blocks /\
  walked_dirs fs tree root_path out = Ok (map b_top blocks) /\
  Forall (fun b => StronglySorted (fun x y => String.leb x y = true) (b_names b)) blocks.
Proof.
  intros Hu H blocks.
  destruct (generate_tree_blocks fs tree root_path out text kept schema Hu H)
    as [_ [Hk [_ Hw]]].
  split; [exact Hk|]. split; [exact Hw|].
  apply walk_blocks_ascending.
Qed.

Lemma kept_files_in_name_order_witness :
  Forall (fun b => StronglySorted (fun x y => String.leb x y = true) (b_names b))
         (walk_blocks scenario_fs "project_dump.txt" scenario_tree "proj" 0).
Proof.
  apply (kept_files_in_name_order scenario_fs scenario_tree (PathOps.parse "proj")
           "project_dump.txt" _ _ _ scenario_unique scenario_generate).
Defined.

(** X3. The kept files are exactly the files that are not ignored and lie
    in a directory reached from the root through entries that are not
    ignored. *)
Theorem kept_files_membership {L : Str.Lowering}
    (fs : FS) (tree : DirListing) (root_path : Path)
    (out : string) (text : string) (kept schema : list Path) :
  unique_names tree ->
  generate_tree fs tree root_path out = Ok (text, kept, schema) ->
  forall p,
    In p kept <->
    exists dir f, lists fs out tree (PathOps.str root_path) dir f /\
                  is_ignored fs (PathOps.parse dir // f) out = Ok false /\
                  p = PathOps.parse dir // f.
Proof.
  intros Hu Hg p.
  destruct (generate_tree_blocks fs tree root_path out text kept schema Hu Hg)
    as [_ [-> _]].
  apply walk_blocks_lists.
Qed.

Lemma kept_files_membership_witness :
  In (PathOps.parse "proj/src/app.py")
     [ mkPath "" ["proj"; "migrations"; "001_init.sql"];
       mkPath "" ["proj"; "src"; "app.py"] ] <->
  exists dir f, lists scenario_fs "project_dump.txt" scenario_tree "proj" dir f /\
                is_ignored scenario_fs (PathOps.parse dir // f) "project_dump.txt" = Ok false /\
                PathOps.parse "proj/src/app.py" = PathOps.parse dir // f.
Proof.
  apply (kept_files_membership scenario_fs scenario_tree (PathOps.parse "proj")
           "project_dump.txt"
           (String.concat nl (tree_lines
              (state_of_blocks (PathOps.parse "proj")
                 (walk_blocks scenario_fs "project_dump.txt" scenario_tree "proj" 0))))
           _ [mkPath "" ["proj"; "migrations"; "001_init.sql"]]
           scenario_unique).
  vm_compute. reflexivity.
Defined.

(** ** Strings and paths *)

Lemma rfind_lower_bound (c : ascii) (s : string) : (-1 <= Str.rfind c s)%Z.
Proof.
  induction s as [|x s IH]; simpl; [lia|].
  destruct (0 <=? Str.rfind c s)%Z eqn:E.
  - apply Z.leb_le in E. lia.
  - destruct (Ascii.eqb x c); lia.
Qed.

Lemma rfind_absent (c : ascii) (s : string) :
  Str.count c s = 0 -> Str.rfind c s = (-1)%Z.
Proof.
  induction s as [|x s IH]; simpl; [reflexivity|].
  destruct (Ascii.eqb x c); [discriminate|].
  intro H. rewrite (IH H). reflexivity.
Qed.

Lemma rfind_last (c : ascii) (a b : string) :
  Str.count c b = 0 ->
  Str.rfind c (a ++ String c b) = Z.of_nat (String.length a).
Proof.
  intro H. induction a as [|x a IH].
  - simpl. rewrite (rfind_absent c b H). simpl. rewrite Ascii.eqb_refl. reflexivity.
  - cbn [append Str.rfind String.length]. rewrite IH.
    destruct (0 <=? Z.of_nat (String.length a))%Z eqn:E; [lia|].
    apply Z.leb_gt in E. lia.
Qed.

Lemma basename_plain (s : string) : Str.count sep s = 0 -> PathOps.basename s = s.
Proof.
  intro H. unfold PathOps.basename. rewrite (rfind_absent sep s H). reflexivity.
Qed.

Lemma basename_joined (a d : string) :
  Str.count sep d = 0 -> PathOps.basename (a ++ os_sep ++ d) = d.
Proof.
  intro H. unfold PathOps.basename, os_sep.
  change ("/" ++ d) with (String sep d).
  rewrite (rfind_last sep a d H).
  replace (Z.to_nat (Z.of_nat (String.length a) + 1)) with (String.length a + 1) by lia.
  rewrite drop_app. reflexivity.
Qed.

Lemma no_sep_open_ended (s : string) :
  s <> "" -> Str.count sep s = 0 -> open_ended s.
Proof.
  intros Hne Hc. split; [exact Hne|].
  apply String.eqb_neq. intro E.
  pose proof (count_drop sep s (String.length s - 1) Hc) as H.
  rewrite E in H. discriminate.
Qed.

Lemma os_path_join_open_ended (top d : string) :
  open_ended top -> Str.count sep d = 0 ->
  PathOps.os_path_join top d = top ++ os_sep ++ d.
Proof.
  intros [Hne Hend] Hd. unfold PathOps.os_path_join.
  assert (Hp : prefix os_sep d = false).
  { destruct d as [|x d]; [reflexivity|].
    unfold os_sep. cbn [prefix].
    destruct (ascii_dec "/" x) as [<-|_]; [|reflexivity].
    simpl in Hd. discriminate. }
  rewrite Hp, Hend.
  apply String.eqb_neq in Hne. rewrite Hne. reflexivity.
Qed.

Lemma joined_open_ended (top d : string) :
  clean_name d -> open_ended (top ++ os_sep ++ d).
Proof.
  intros [Hne Hc]. split.
  - destruct top; discriminate.
  - apply String.eqb_neq. intro E.
    assert (Hlen : String.length (top ++ os_sep ++ d) - 1 =
                   String.length top + (1 + (String.length d - 1))).
    { rewrite !length_app. destruct d; [contradiction|]. simpl. lia. }
    rewrite Hlen, drop_app in E. cbn [os_sep append Str.drop Nat.add] in E.
    pose proof (count_drop sep d (String.length d - 1) Hc) as H.
    rewrite E in H. discriminate.
Qed.

Lemma segments_nonempty (s w : string) : In w (PathOps.segments s) -> w <> "".
Proof.
  unfold PathOps.segments. intro H. apply filter_In in H as [_ H].
  apply andb_true_iff in H as [H _]. apply negb_true_iff, String.eqb_neq in H. exact H.
Qed.

Lemma str_parse_nonempty (s : string) : PathOps.str (PathOps.parse s) <> "".
Proof.
  unfold PathOps.str, PathOps.parse. cbn [p_root p_tail].
  destruct (PathOps.root_of s) as [|c r]; [|discriminate].
  destruct (PathOps.segments s) as [|w ws] eqn:E; [discriminate|].
  assert (Hw : w <> "") by (apply (segments_nonempty s); rewrite E; left; reflexivity).
  cbn [append String.concat]. destruct ws; destruct w; try contradiction; discriminate.
Qed.

(** ** Indentation by depth *)

Lemma walk_blocks_depth {L : Str.Lowering} (fs : FS) (out : string) :
  forall t, clean_names t ->
  forall top depth,
    open_ended top -> Str.count sep top = depth -> PathOps.basename top <> "" ->
    Forall (fun b => Str.count sep (b_top b) = b_depth b /\
                     PathOps.basename (b_top b) <> "" /\
                     (b_depth b = depth -> b_top b = top) /\
                     depth <= b_depth b)
           (walk_blocks fs out t top depth).
Proof.
  intro t.
  induction t as [|children files IH] using DirListing_nested_ind;
    intros Hc top depth Hopen Hcount Hbase.
  - constructor.
  - inversion Hc as [|? ? Hch Hfiles]; subst.
    cbn [walk_blocks]. constructor.
    + cbn [b_top b_depth]. repeat split; auto.
    + apply Forall_flat_map. clear Hc Hfiles.
      induction IH as [|[n sub] cs Hsub _ IHcs]; [constructor|].
      inversion Hch as [|? ? [Hn Hcs] Hrest]; subst. cbn [fst snd] in *.
      constructor; [|apply IHcs; exact Hrest].
      destruct (ignored fs (PathOps.parse top // n) out); [constructor|].
      destruct Hn as [Hne Hnc].
      rewrite (os_path_join_open_ended top n Hopen Hnc).
      eapply Forall_impl;
        [|apply (Hsub Hcs (top ++ os_sep ++ n) (S (Str.count sep top)))].
      * intros b [H1 [H2 [H3 H4]]]. repeat split; auto; lia.
      * apply joined_open_ended; split; assumption.
      * rewrite !count_app, Hnc. cbn [os_sep Str.count]. rewrite Ascii.eqb_refl. lia.
      * rewrite (basename_joined top n Hnc). exact Hne.
Qed.

Lemma block_lines_by_depth {L : Str.Lowering} (root_path : Path) (b : block) :
  Str.count sep (PathOps.str root_path) = 0 ->
  Str.count sep (b_top b) = b_depth b ->
  PathOps.basename (b_top b) <> "" ->
  (b_depth b = 0 -> b_top b = PathOps.str root_path) ->
  block_lines root_path b = block_lines_at_depth b.
Proof.
  intros Hroot Hcount Hbase Hzero.
  unfold block_lines, block_lines_at_depth, dir_lines, file_line.
  rewrite (level_of_single_segment_root root_path (b_top b) Hroot), Hcount.
  apply String.eqb_neq in Hbase. rewrite Hbase. cbn [negb].
  destruct (b_depth b) as [|k] eqn:Ed.
  - rewrite (Hzero eq_refl), String.eqb_refl. reflexivity.
  - reflexivity.
Qed.

Lemma flat_map_ext_Forall {A B : Type} (f g : A -> list B) (l : list A) :
  Forall (fun x => f x = g x) l -> flat_map f l = flat_map g l.
Proof.
  induction 1 as [|x l Hx _ IH]; simpl; [reflexivity|].
  rewrite Hx, IH; reflexivity.
Qed.

Lemma scenario_clean : clean_names scenario_tree.
Proof.
  assert (Hname : forall n, Str.count sep n = 0 -> n <> "" -> clean_name n)
    by (intros n H1 H2; split; assumption).
  unfold scenario_tree.
  repeat first [ apply Hname; [reflexivity | discriminate]
               | apply clean_scanned | apply Forall_cons | apply Forall_nil
               | split; cbn [fst snd] ].
Qed.

(** X4. When the project directory is given by a string whose path has no
    separator (a name such as [proj], or [.]) and the listing has clean,
    distinct names, then in what [generate_tree] returns every visited
    directory is drawn, indented by four spaces for each level of its depth
    below the root, and its kept files follow one level deeper. *)
Theorem directories_drawn_by_depth {L : Str.Lowering}
    (fs : FS) (tree : DirListing) (s out : string)
    (text : string) (kept schema : list Path) :
  unique_names tree ->
  clean_names tree ->
  Str.count sep (PathOps.str (PathOps.parse s)) = 0 ->
  generate_tree fs tree (PathOps.parse s) out = Ok (text, kept, schema) ->
  let root_path := PathOps.parse s in
  let blocks := walk_blocks fs out tree (PathOps.str root_path) 0 in
  text = String.concat nl (flat_map block_lines_at_depth blocks) /\
  kept = flat_map block_paths blocks /\
  schema = filter looks_like_schema_file (flat_map block_paths blocks) /\
  Forall (fun b => level_of root_path (b_top b) = b_depth b) blocks.
Proof.
  intros Hu Hc Hroot Hgen. cbv zeta.
  set (root_path := PathOps.parse s) in *.
  set (blocks := walk_blocks fs out tree (PathOps.str root_path) 0).
  assert (Hne : PathOps.str root_path <> "") by apply str_parse_nonempty.
  assert (Hd : Forall (fun b => Str.count sep (b_top b) = b_depth b /\
                                PathOps.basename (b_top b) <> "" /\
                                (b_depth b = 0 -> b_top b = PathOps.str root_path) /\
                                0 <= b_depth b) blocks).
  { apply walk_blocks_depth.
    - exact Hc.
    - apply no_sep_open_ended; assumption.
    - exact Hroot.
    - rewrite (basename_plain _ Hroot). exact Hne. }
  destruct (generate_tree_blocks fs tree root_path out text kept schema Hu Hgen)
    as [Ht [Hk [Hs _]]].
  fold blocks in Ht, Hk, Hs.
  split; [|split; [exact Hk | split; [exact Hs|]]].
  - rewrite Ht.
    rewrite (flat_map_ext_Forall (block_lines root_path) block_lines_at_depth blocks);
      [reflexivity|].
    eapply Forall_impl; [|exact Hd].
    intros b [H1 [H2 [H3 _]]]. apply block_lines_by_depth; assumption.
  - eapply Forall_impl; [|exact Hd].
    intros b [H1 _]. rewrite level_of_single_segment_root by exact Hroot. exact H1.
Qed.

Lemma directories_drawn_by_depth_witness :
  String.concat nl
    [ "📂 proj/";
      "    📂 migrations/";
      "        🗄️ 001_init.sql";
      "    📂 src/";
      "        📄 app.py" ]
  = String.concat nl
      (flat_map block_lines_at_depth
         (walk_blocks scenario_fs "project_dump.txt" scenario_tree "proj" 0)).
Proof.
  destruct (directories_drawn_by_depth scenario_fs scenario_tree "proj" "project_dump.txt"
              _ _ _ scenario_unique scenario_clean eq_refl scenario_generate) as [H _].
  exact H.
Defined.

(** ** What the kept files are *)

Lemma kept_not_ignored {L : Str.Lowering}
    (fs : FS) (tree : DirListing) (root_path : Path) (out : string)
    (text : string) (kept schema : list Path) :
  generate_tree fs tree root_path out = Ok (text, kept, schema) ->
  forall p, In p kept -> is_ignored fs p out = Ok false.
Proof.
  intros Hgen p Hp.
  apply generate_tree_consistent in Hgen as [st [_ [_ [-> [_ [_ [_ Hk]]]]]]].
  rewrite Forall_forall in Hk. apply Hk; exact Hp.
Qed.

(** For a path that is kept, [path.is_file()] returned and no rule
    applied. *)
Lemma kept_verdict {L : Str.Lowering} (fs : FS) (path : Path) (out : string) :
  is_ignored fs path out = Ok false ->
  exists is_f, is_file fs path = Ok is_f /\ verdict is_f fs path out = false.
Proof.
  intro H. pose proof (kept_not_by_name fs path out H) as Hn.
  apply is_ignored_returned in H as [is_f [Hv Hf]].
  exists is_f. split; [apply Hf; exact Hn | symmetry; exact Hv].
Qed.

(** X6. Every kept file that [stat] reports as a regular file has at most
    2 MiB and is schema-like or has a code-like extension; and every kept
    path with a bulk-data extension is schema-like. *)
Theorem kept_files_bounded {L : Str.Lowering} (fs : FS) (tree : DirListing) (root_path : Path)
    (out : string) (text : string) (kept schema : list Path) :
  generate_tree fs tree root_path out = Ok (text, kept, schema) ->
  forall p, In p kept ->
    (forall st, stat fs p = Ok st -> st_is_reg st = true ->
       (st_size st <= 2 * 1024 * 1024)%Z /\
       (looks_like_schema_file p = true \/ In (ext p) ALLOWED_CODE_EXTENSIONS)) /\
    (In (ext p) BULK_DATA_EXTENSIONS -> looks_like_schema_file p = true).
Proof.
  intros Hgen p Hp.
  pose proof (kept_not_ignored _ _ _ _ _ _ _ Hgen p Hp) as H.
  apply kept_verdict in H as [is_f [Hfile H]]. unfold verdict in H.
  repeat (apply orb_false_iff in H; destruct H as [H ?]).
  split.
  - intros st Hst Hreg.
    assert (Hf : is_file fs p = Ok true) by (apply is_file_stat; exists st; auto).
    rewrite Hfile in Hf. injection Hf as ->. cbn [andb] in *.
    split.
    + match goal with Hl : large fs p = false |- _ =>
        rewrite large_stat, Hst in Hl; apply Z.ltb_ge in Hl; exact Hl end.
    + destruct (looks_like_schema_file p); [left; reflexivity|]. right.
      apply mem_In.
      match goal with Ha : negb false && negb _ = false |- _ =>
        cbn [negb andb] in Ha; apply negb_false_iff in Ha; exact Ha end.
  - intro Hb. apply mem_In in Hb.
    match goal with Hr : Str.mem (ext p) BULK_DATA_EXTENSIONS && _ = false |- _ =>
      rewrite Hb in Hr; cbn [andb] in Hr;
      apply orb_false_iff in Hr as [Hr _]; apply negb_false_iff in Hr; exact Hr end.
Qed.

Lemma kept_files_bounded_witness :
  (20 <= 2 * 1024 * 1024)%Z /\
  (looks_like_schema_file (PathOps.parse "proj/src/app.py") = true \/
   In (ext (PathOps.parse "proj/src/app.py")) ALLOWED_CODE_EXTENSIONS).
Proof.
  destruct (kept_files_bounded _ _ _ _ _ _ _ scenario_generate
              (PathOps.parse "proj/src/app.py")) as [H _].
  - right; left; reflexivity.
  - apply (H (mkStat true 20)); reflexivity.
Defined.

(** ** The rule tables *)

Lemma bulk_not_allowed (x : string) :
  Str.mem x BULK_DATA_EXTENSIONS = true -> Str.mem x ALLOWED_CODE_EXTENSIONS = false.
Proof.
  intro H. apply mem_In in H. simpl in H.
  repeat (destruct H as [<-|H]; [reflexivity|]). destruct H.
Qed.

Lemma ignored_ext_not_allowed (x : string) :
  Str.mem x IGNORED_EXTENSIONS = true -> Str.mem x ALLOWED_CODE_EXTENSIONS = false.
Proof.
  intro H. apply mem_In in H. simpl in H.
  repeat (destruct H as [<-|H]; [reflexivity|]). destruct H.
Qed.

(** X7. For a regular file the bulk-data list and the ignored-extension
    list never change the answer, because neither shares an extension with
    the code-like list: the file is ignored exactly when its name is the
    output name or an ignored name, a segment is an ignored directory, it is
    larger than 2 MiB, or it is neither schema-like nor code-like. *)
Theorem regular_file_rules {L : Str.Lowering} (fs : FS) (path : Path) (out : string) :
  is_file fs path = Ok true ->
  (is_ignored fs path out = Ok true <->
     PathOps.name path = out \/
     In (PathOps.name path) IGNORED_FILENAMES \/
     (exists part, In part (PathOps.parts path) /\ In part IGNORED_DIRS) \/
     large_file fs path \/
     (looks_like_schema_file path = false /\ ~ In (ext path) ALLOWED_CODE_EXTENSIONS)).
Proof.
  intro Hf.
  assert (Hrules : verdict true fs path out =
            String.eqb (PathOps.name path) out
            || Str.mem (PathOps.name path) IGNORED_FILENAMES
            || has_ignored_dir path
            || large fs path
            || (negb (looks_like_schema_file path)
                && negb (Str.mem (ext path) ALLOWED_CODE_EXTENSIONS))).
  { unfold verdict, ignored_by_name.
    pose proof (bulk_not_allowed (ext path)) as Hb.
    pose proof (ignored_ext_not_allowed (ext path)) as Hi.
    destruct (Str.mem (ext path) BULK_DATA_EXTENSIONS);
      destruct (Str.mem (ext path) IGNORED_EXTENSIONS);
      try rewrite (Hb eq_refl); try rewrite (Hi eq_refl);
      destruct (String.eqb (PathOps.name path) out),
        (Str.mem (PathOps.name path) IGNORED_FILENAMES), (has_ignored_dir path),
        (large fs path), (looks_like_schema_file path),
        (Str.mem (ext path) ALLOWED_CODE_EXTENSIONS); reflexivity. }
  rewrite (is_ignored_examined fs path out true Hf), Hrules. split.
  - intro H; injection H as H.
    apply orb_true_iff in H as [H|H];
      [apply orb_true_iff in H as [H|H];
        [apply orb_true_iff in H as [H|H];
          [apply orb_true_iff in H as [H|H]|]|]|].
    + left; apply String.eqb_eq; exact H.
    + right; left; apply mem_In; exact H.
    + right; right; left; apply has_ignored_dir_iff; exact H.
    + right; right; right; left. apply (large_rule_iff fs path true Hf). exact H.
    + right; right; right; right. apply andb_true_iff in H as [H1 H2].
      split; [apply negb_true_iff; exact H1|].
      intro Hin. apply mem_In in Hin. apply negb_true_iff in H2.
      exact (eq_true_false_abs _ Hin H2).
  - intros [H|[H|[H|[H|[H1 H2]]]]]; f_equal.
    + apply String.eqb_eq in H. rewrite H. reflexivity.
    + apply mem_In in H. rewrite H, !orb_true_r. reflexivity.
    + apply has_ignored_dir_iff in H. rewrite H, !orb_true_r. reflexivity.
    + apply (large_rule_iff fs path true Hf) in H. cbn [andb] in H.
      rewrite H, !orb_true_r. reflexivity.
    + rewrite H1.
      destruct (Str.mem (ext path) ALLOWED_CODE_EXTENSIONS) eqn:E;
        [exfalso; apply H2, mem_In; exact E|].
      cbn [negb andb]. rewrite !orb_true_r. reflexivity.
Qed.

Lemma regular_file_rules_witness :
  is_ignored (files_of_size 10) (PathOps.parse "src/logo.png") "project_dump.txt" = Ok true.
Proof.
  apply (regular_file_rules (files_of_size 10) (PathOps.parse "src/logo.png")
           "project_dump.txt"); [reflexivity|].
  do 4 right. split; [reflexivity | not_in_table].
Defined.

(** X8. A schema-like regular file of at most 2 MiB is kept whatever its
    extension, even a bulk-data or an ignored one, unless its name is the
    output name or an ignored name or a segment is an ignored directory. *)
Theorem schema_like_file_kept {L : Str.Lowering}
    (fs : FS) (path : Path) (out : string) (st : stat_result) :
  stat fs path = Ok st ->
  st_is_reg st = true ->
  (st_size st <= 2 * 1024 * 1024)%Z ->
  looks_like_schema_file path = true ->
  PathOps.name path <> out ->
  ~ In (PathOps.name path) IGNORED_FILENAMES ->
  (forall part, In part (PathOps.parts path) -> ~ In part IGNORED_DIRS) ->
  is_ignored fs path out = Ok false.
Proof.
  intros Hst Hreg Hsize Hschema Hout Hname Hdirs.
  assert (Hf : is_file fs path = Ok true) by (apply is_file_stat; exists st; auto).
  assert (Hl : large fs path = false)
    by (rewrite large_stat, Hst; apply Z.ltb_ge; exact Hsize).
  assert (E1 : String.eqb (PathOps.name path) out = false)
    by (apply String.eqb_neq; exact Hout).
  assert (E2 : Str.mem (PathOps.name path) IGNORED_FILENAMES = false).
  { destruct (Str.mem _ IGNORED_FILENAMES) eqn:E; [|reflexivity].
    exfalso; apply Hname, mem_In; exact E. }
  assert (E3 : has_ignored_dir path = false).
  { destruct (has_ignored_dir path) eqn:E; [|reflexivity].
    apply has_ignored_dir_iff in E as [part [H1 H2]]. exfalso; exact (Hdirs part H1 H2). }
  rewrite (is_ignored_examined fs path out true Hf).
  unfold verdict, ignored_by_name. rewrite Hl, Hschema, E1, E2, E3.
  cbn [negb andb orb]. rewrite !andb_false_r. reflexivity.
Qed.

Lemma schema_like_file_kept_witness :
  is_ignored (files_of_size 10) (PathOps.parse "db/backup.sqlite3") "project_dump.txt"
    = Ok false /\
  is_ignored (files_of_size 10) (PathOps.parse "migrations/seed.json") "project_dump.txt"
    = Ok false.
Proof.
  split.
  - apply (schema_like_file_kept (files_of_size 10) (PathOps.parse "db/backup.sqlite3")
             "project_dump.txt" (mkStat true 10)); try reflexivity.
    + vm_compute; discriminate.
    + vm_compute; discriminate.
    + not_in_table.
    + intros part Hp. vm_compute in Hp.
      destruct Hp as [<-|[<-|[]]]; not_in_table.
  - apply (schema_like_file_kept (files_of_size 10) (PathOps.parse "migrations/seed.json")
             "project_dump.txt" (mkStat true 10)); try reflexivity.
    + vm_compute; discriminate.
    + vm_compute; discriminate.
    + not_in_table.
    + intros part Hp. vm_compute in Hp.
      destruct Hp as [<-|[<-|[]]]; not_in_table.
Defined.

(** X9. For a path of which [path.is_file()] answers [False] (a directory
    or another entry that is not a regular file, or a path whose [stat]
    fails with an error pathlib takes for a missing path) the code-like list
    plays no role: it is ignored exactly when its name is the output name or
    an ignored name, a segment is an ignored directory, its extension is a
    bulk-data one and it is not schema-like or [stat] reports more than
    2 MiB, or its extension is an ignored one.  A directory whose name has
    no extension is therefore pruned only by the three name rules. *)
Theorem non_regular_path_rules {L : Str.Lowering} (fs : FS) (path : Path) (out : string) :
  is_file fs path = Ok false ->
  (is_ignored fs path out = Ok true <->
     PathOps.name path = out \/
     In (PathOps.name path) IGNORED_FILENAMES \/
     (exists part, In part (PathOps.parts path) /\ In part IGNORED_DIRS) \/
     (In (ext path) BULK_DATA_EXTENSIONS /\
      (looks_like_schema_file path = false \/ is_large fs path = Ok true)) \/
     In (ext path) IGNORED_EXTENSIONS) /\
  (PathOps.suffix path = "" ->
     (is_ignored fs path out = Ok true <->
        PathOps.name path = out \/
        In (PathOps.name path) IGNORED_FILENAMES \/
        (exists part, In part (PathOps.parts path) /\ In part IGNORED_DIRS))).
Proof.
  intro Hf.
  assert (Hmain : is_ignored fs path out = Ok true <->
     PathOps.name path = out \/
     In (PathOps.name path) IGNORED_FILENAMES \/
     (exists part, In part (PathOps.parts path) /\ In part IGNORED_DIRS) \/
     (In (ext path) BULK_DATA_EXTENSIONS /\
      (looks_like_schema_file path = false \/ is_large fs path = Ok true)) \/
     In (ext path) IGNORED_EXTENSIONS).
  { rewrite (is_ignored_examined fs path out false Hf), is_large_Ok.
    unfold verdict, ignored_by_name. cbn [andb negb].
    rewrite !orb_false_r. split.
    - intro H; injection H as H.
      apply orb_true_iff in H as [H|H];
        [apply orb_true_iff in H as [H|H];
          [apply orb_true_iff in H as [H|H];
            [apply orb_true_iff in H as [H|H]|]|]|].
      + left; apply String.eqb_eq; exact H.
      + right; left; apply mem_In; exact H.
      + right; right; left; apply has_ignored_dir_iff; exact H.
      + right; right; right; left. apply andb_true_iff in H as [H1 H2].
        split; [apply mem_In; exact H1|].
        apply orb_true_iff in H2 as [H2|H2];
          [left; apply negb_true_iff; exact H2 | right; rewrite H2; reflexivity].
      + right; right; right; right; apply mem_In; exact H.
    - intros [H|[H|[H|[[H1 H2]|H]]]]; f_equal.
      + apply String.eqb_eq in H. rewrite H. reflexivity.
      + apply mem_In in H. rewrite H, !orb_true_r. reflexivity.
      + apply has_ignored_dir_iff in H. rewrite H, !orb_true_r. reflexivity.
      + apply mem_In in H1. rewrite H1.
        assert (E : negb (looks_like_schema_file path) || large fs path = true).
        { destruct H2 as [H2|H2]; [rewrite H2; reflexivity|].
          injection H2 as ->. apply orb_true_r. }
        rewrite E. cbn [andb]. rewrite !orb_true_r. reflexivity.
      + apply mem_In in H. rewrite H, !orb_true_r. reflexivity. }
  split; [exact Hmain|].
  intro Hs. rewrite Hmain. unfold ext. rewrite Hs. lower_literals.
  split.
  - intros [H|[H|[H|[[H _]|H]]]]; auto;
      exfalso; revert H; not_in_table.
  - intros [H|[H|H]]; auto.
Qed.

Lemma non_regular_path_rules_witness :
  is_ignored only_dirs (PathOps.parse "proj/assets.zip") "project_dump.txt" = Ok true /\
  is_ignored vanished (PathOps.parse "proj/assets.zip") "project_dump.txt" = Ok true.
Proof.
  split.
  - destruct (non_regular_path_rules only_dirs (PathOps.parse "proj/assets.zip")
                "project_dump.txt" eq_refl) as [H _].
    apply H. do 4 right. vm_compute. do 16 right. left. reflexivity.
  - destruct (non_regular_path_rules vanished (PathOps.parse "proj/assets.zip")
                "project_dump.txt" eq_refl) as [H _].
    apply H. do 4 right. vm_compute. do 16 right. left. reflexivity.
Defined.

(** ** Letter case *)

Lemma contains_head (c : ascii) (key s : string) :
  Str.contains (String c key) s = true -> In c (list_ascii_of_string s).
Proof.
  induction s as [|a s IH]; simpl; [discriminate|].
  destruct (ascii_dec c a) as [->|Hne]; [left; reflexivity|].
  simpl. intro H. right. apply IH. exact H.
Qed.

Lemma lower_chars {L : Str.Lowering} (c : ascii) (s : string) :
  In c (list_ascii_of_string (Str.lower s)) -> Str.is_upper c = false.
Proof. apply Str.lower_no_capital. Qed.

Lemma capital_hint_absent {L : Str.Lowering} (c : ascii) (key name : string) :
  Str.is_upper c = true -> Str.contains (String c key) (Str.lower name) = false.
Proof.
  intro Hc. destruct (Str.contains (String c key) (Str.lower name)) eqn:E; [|reflexivity].
  apply contains_head, lower_chars in E. congruence.
Qed.

(** X11. A hint that begins with a capital letter never matches, because
    the file name is put in lower case before the hints are searched in it:
    the entry [DDL.sql] of [SCHEMA_HINT_NAMES] is without effect, and
    [looks_like_schema_file] answers the same with the eleven other hints
    alone. *)
Theorem capital_hint_without_effect {L : Str.Lowering} (path : Path) (name : string) :
  Str.contains "DDL.sql" (Str.lower name) = false /\
  looks_like_schema_file path =
  looks_like_schema_file_iter
    [ "schema.prisma"; "schema.sql"; "init.sql"; "migration.sql";
      "migration"; "migrations"; "entities"; "models"; "alembic.ini";
      "seeder"; "seed.sql" ] path.
Proof.
  assert (H : forall n, Str.contains "DDL.sql" (Str.lower n) = false)
    by (intro n; apply capital_hint_absent; reflexivity).
  split; [apply H|].
  unfold looks_like_schema_file. rewrite !schema_rules.
  unfold any_key_in, SCHEMA_HINT_NAMES. cbn [existsb].
  rewrite H, !orb_false_r. reflexivity.
Qed.

(** ** Parsing path strings *)

Lemma not_sep_match (c : ascii) :
  c <> sep -> Ascii.eqb c sep = false.
Proof. intro H. apply Ascii.eqb_neq; exact H. Qed.

(** [root_of] reads at most three characters. *)
Lemma root_of_cons (c : ascii) (r : string) :
  PathOps.root_of (String c r) =
  if Ascii.eqb c sep then
    match r with
    | EmptyString => "/"
    | String c2 r2 =>
        if Ascii.eqb c2 sep then
          match r2 with
          | EmptyString => "//"
          | String c3 _ => if Ascii.eqb c3 sep then "/" else "//"
          end
        else "/"
    end
  else "".
Proof.
  assert (Hother : forall (x : ascii) (A B : string),
            x <> sep ->
            match x with "/"%char => A | _ => B end = B).
  { intros x A B Hx.
    destruct x as [[] [] [] [] [] [] [] []]; try reflexivity.
    exfalso; apply Hx; reflexivity. }
  destruct (Ascii.eqb_spec c sep) as [->|Hc].
  - destruct r as [|c2 r2]; [reflexivity|].
    destruct (Ascii.eqb_spec c2 sep) as [->|Hc2].
    + destruct r2 as [|c3 r3]; [reflexivity|].
      destruct (Ascii.eqb_spec c3 sep) as [->|Hc3]; [reflexivity|].
      destruct c3 as [[] [] [] [] [] [] [] []]; try reflexivity.
      exfalso; apply Hc3; reflexivity.
    + destruct c2 as [[] [] [] [] [] [] [] []]; try reflexivity.
      exfalso; apply Hc2; reflexivity.
  - destruct c as [[] [] [] [] [] [] [] []]; try reflexivity.
    exfalso; apply Hc; reflexivity.
Qed.

Lemma root_of_values (s : string) :
  PathOps.root_of s = "" \/ PathOps.root_of s = "/" \/ PathOps.root_of s = "//".
Proof.
  destruct s as [|c r]; [left; reflexivity|].
  rewrite root_of_cons.
  destruct (Ascii.eqb c sep); [|auto].
  destruct r as [|c2 r2]; [auto|].
  destruct (Ascii.eqb c2 sep); [|auto].
  destruct r2 as [|c3 r3]; [auto|].
  destruct (Ascii.eqb c3 sep); auto.
Qed.

(** A name that does not begin with a separator is relative. *)
Lemma relative_root (d : string) : prefix os_sep d = false -> PathOps.root_of d = "".
Proof.
  destruct d as [|x d]; [reflexivity|].
  unfold os_sep. cbn [prefix]. intro H. rewrite root_of_cons.
  destruct (ascii_dec "/" x) as [<-|Hx].
  - destruct d; discriminate.
  - rewrite not_sep_match; [reflexivity | intro E; apply Hx; symmetry; exact E].
Qed.

Lemma no_sep_relative (d : string) : Str.count sep d = 0 -> prefix os_sep d = false.
Proof.
  destruct d as [|x d]; [reflexivity|].
  unfold os_sep. cbn [prefix]. intro H.
  destruct (ascii_dec "/" x) as [<-|_]; [|reflexivity].
  simpl in H. discriminate.
Qed.

Lemma segments_app_sep (a b : string) :
  PathOps.segments (a ++ os_sep ++ b) = (PathOps.segments a ++ PathOps.segments b)%list.
Proof.
  unfold PathOps.segments, os_sep. change ("/" ++ b) with (String sep b).
  rewrite split_app_sep, filter_app. reflexivity.
Qed.

Lemma segments_empty : PathOps.segments "" = [].
Proof. reflexivity. Qed.

Lemma segments_are_segments (s : string) : Forall segment (PathOps.segments s).
Proof.
  unfold PathOps.segments. apply Forall_forall. intros w Hw.
  apply filter_In in Hw as [Hin Hw].
  apply andb_true_iff in Hw as [H1 H2].
  apply negb_true_iff, String.eqb_neq in H1.
  apply negb_true_iff, String.eqb_neq in H2.
  pose proof (split_pieces sep s) as Hp. rewrite Forall_forall in Hp.
  repeat split; auto.
Qed.

Lemma segments_of_segment (w : string) : segment w -> PathOps.segments w = [w].
Proof.
  intros [H1 [H2 H3]]. unfold PathOps.segments. rewrite (split_plain _ _ H3).
  cbn [filter]. apply String.eqb_neq in H1, H2. rewrite H1, H2. reflexivity.
Qed.

Lemma segments_concat (t : list string) :
  Forall segment t -> PathOps.segments (String.concat os_sep t) = t.
Proof.
  induction 1 as [|w t Hw Ht IH]; [reflexivity|].
  destruct t as [|w' t'].
  - cbn [String.concat]. apply segments_of_segment; exact Hw.
  - change (String.concat os_sep (w :: w' :: t'))
      with (w ++ os_sep ++ String.concat os_sep (w' :: t')).
    rewrite segments_app_sep, IH, (segments_of_segment w Hw). reflexivity.
Qed.

Lemma append_assoc_string (a b c : string) : (a ++ b) ++ c = a ++ (b ++ c).
Proof. induction a as [|x a IH]; simpl; [reflexivity | rewrite IH; reflexivity]. Qed.

Lemma ends_with_sep (a : string) :
  a <> "" ->
  String.eqb (Str.drop (String.length a - 1) a) os_sep = true ->
  exists a', a = a' ++ os_sep.
Proof.
  induction a as [|x a IH]; [contradiction|].
  intros _ H. destruct a as [|y a].
  - change (Str.drop (String.length (String x "") - 1) (String x "")) with (String x "") in H.
    apply String.eqb_eq in H. exists "". exact H.
  - replace (String.length (String x (String y a)) - 1)
      with (S (String.length (String y a) - 1)) in H by (simpl; lia).
    cbn [Str.drop] in H.
    destruct (IH ltac:(discriminate) H) as [a' E].
    exists (String x a'). rewrite E. reflexivity.
Qed.

Lemma segments_join (top d : string) :
  prefix os_sep d = false ->
  PathOps.segments (PathOps.os_path_join top d) =
  (PathOps.segments top ++ PathOps.segments d)%list.
Proof.
  intro Hd. unfold PathOps.os_path_join. rewrite Hd.
  destruct (String.eqb_spec top "") as [->|Hne]; [reflexivity|].
  destruct (String.eqb (Str.drop (String.length top - 1) top) os_sep) eqn:E.
  - destruct (ends_with_sep top Hne E) as [a' ->].
    rewrite append_assoc_string, segments_app_sep.
    change (a' ++ os_sep) with (a' ++ os_sep ++ "").
    rewrite segments_app_sep, segments_empty, app_nil_r. reflexivity.
  - apply segments_app_sep.
Qed.

Lemma relative_head (x : ascii) (d : string) :
  prefix os_sep (String x d) = false -> Ascii.eqb x sep = false.
Proof.
  unfold os_sep. cbn [prefix]. intro H.
  destruct (ascii_dec "/" x) as [<-|Hx]; [destruct d; discriminate|].
  apply not_sep_match. intro E; apply Hx; symmetry; exact E.
Qed.

Lemma root_of_join (top d : string) :
  prefix os_sep d = false ->
  PathOps.root_of (PathOps.os_path_join top d) = PathOps.root_of top.
Proof.
  intro Hd. unfold PathOps.os_path_join. rewrite Hd.
  destruct top as [|c1 r1].
  - cbn [String.eqb]. apply relative_root; exact Hd.
  - cbn [String.eqb].
    destruct (String.eqb (Str.drop (String.length (String c1 r1) - 1) (String c1 r1)) os_sep)
      eqn:E; cbn [append]; rewrite !root_of_cons;
      (destruct (Ascii.eqb c1 sep) eqn:E1; [|reflexivity]);
      apply Ascii.eqb_eq in E1; subst c1;
      (destruct r1 as [|c2 r2];
       [|cbn [append];
         (destruct (Ascii.eqb c2 sep) eqn:E2; [|reflexivity]);
         apply Ascii.eqb_eq in E2; subst c2;
         (destruct r2 as [|c3 r3]; [|reflexivity])]);
      try (vm_compute in E; discriminate);
      cbn [append];
      (destruct d as [|x d']; [reflexivity|]);
      rewrite (relative_head x d' Hd); reflexivity.
Qed.

Lemma parse_join (top d : string) :
  prefix os_sep d = false ->
  PathOps.parse (PathOps.os_path_join top d) = PathOps.parse top // d.
Proof.
  intro Hd. unfold PathOps.parse, PathOps.div. cbn [p_root p_tail].
  rewrite (relative_root d Hd), (root_of_join top d Hd), (segments_join top d Hd).
  reflexivity.
Qed.

Lemma div_relative (p : Path) (d : string) :
  prefix os_sep d = false ->
  p // d = mkPath (p_root p) (p_tail p ++ PathOps.segments d).
Proof. intro Hd. unfold PathOps.div. rewrite (relative_root d Hd). reflexivity. Qed.

Lemma concat_head (w : string) (ws : list string) :
  exists rest, String.concat os_sep (w :: ws) = w ++ rest.
Proof.
  destruct ws as [|w' ws'].
  - exists "". cbn [String.concat]. induction w; simpl; [reflexivity | f_equal; assumption].
  - eexists. reflexivity.
Qed.

(** Printing a canonical path and parsing it gives the path back. *)
Lemma parse_str_canonical (r : string) (t : list string) :
  r = "" \/ r = "/" \/ r = "//" ->
  Forall segment t ->
  PathOps.parse (PathOps.str (mkPath r t)) = mkPath r t.
Proof.
  intros Hr Hseg. unfold PathOps.str. cbn [p_root p_tail].
  assert (Hhead : forall w ws, segment w ->
            exists x rest, String.concat os_sep (w :: ws) = String x rest /\
                           Ascii.eqb x sep = false).
  { intros w ws [H1 [_ H3]]. destruct (concat_head w ws) as [rest E].
    destruct w as [|x w']; [contradiction|].
    exists x, (w' ++ rest). split; [rewrite E; reflexivity|].
    simpl in H3. destruct (Ascii.eqb x sep); [discriminate | reflexivity]. }
  destruct Hr as [Hr|[Hr|Hr]]; subst r.
  - destruct t as [|w ws]; [reflexivity|].
    cbn [append]. unfold PathOps.parse.
    rewrite (segments_concat (w :: ws) Hseg). f_equal.
    inversion Hseg as [|? ? Hw _]; subst.
    destruct (Hhead w ws Hw) as [x [rest [E Hx]]].
    rewrite E, root_of_cons, Hx. reflexivity.
  - unfold PathOps.parse.
    change ("/" ++ String.concat os_sep t)
      with ("" ++ os_sep ++ String.concat os_sep t).
    rewrite segments_app_sep, segments_empty, (segments_concat _ Hseg). cbn [app].
    f_equal. cbn [append os_sep].
    rewrite root_of_cons, Ascii.eqb_refl.
    destruct t as [|w ws]; [reflexivity|].
    inversion Hseg as [|? ? Hw _]; subst.
    destruct (Hhead w ws Hw) as [x [rest [E Hx]]].
    rewrite E, Hx. reflexivity.
  - unfold PathOps.parse.
    change ("//" ++ String.concat os_sep t)
      with ("" ++ os_sep ++ "" ++ os_sep ++ String.concat os_sep t).
    rewrite !segments_app_sep, segments_empty, (segments_concat _ Hseg). cbn [app].
    f_equal. cbn [append os_sep].
    rewrite root_of_cons, Ascii.eqb_refl.
    destruct t as [|w ws]; [reflexivity|].
    inversion Hseg as [|? ? Hw _]; subst.
    destruct (Hhead w ws Hw) as [x [rest [E Hx]]].
    rewrite E, Hx. reflexivity.
Qed.

Lemma parse_str_parse (s : string) :
  PathOps.parse (PathOps.str (PathOps.parse s)) = PathOps.parse s.
Proof.
  unfold PathOps.parse at 2 3.
  apply parse_str_canonical; [apply root_of_values | apply segments_are_segments].
Qed.

(** ** The kept files lie under the project directory *)

Lemma strip_prefix_app (pre rest : list string) :
  strip_prefix pre (pre ++ rest) = Some rest.
Proof.
  induction pre as [|x pre IH]; [destruct rest; reflexivity|].
  cbn [app strip_prefix]. rewrite String.eqb_refl. exact IH.
Qed.

Lemma relative_to_under (r : string) (base rest : list string) :
  relative_to (mkPath r (base ++ rest)) (mkPath r base) = Ok (mkPath "" rest).
Proof.
  unfold relative_to. cbn [p_root p_tail].
  rewrite String.eqb_refl, strip_prefix_app. reflexivity.
Qed.

Lemma walk_blocks_under {L : Str.Lowering}
    (fs : FS) (out : string) (r : string) (base : list string) :
  forall t, clean_names t ->
  forall top depth,
    (exists extra, PathOps.parse top = mkPath r (base ++ extra)) ->
    Forall (fun b => (exists extra, PathOps.parse (b_top b) = mkPath r (base ++ extra)) /\
                     Forall clean_name (b_names b))
           (walk_blocks fs out t top depth).
Proof.
  intro t.
  induction t as [|children files IH] using DirListing_nested_ind;
    intros Hc top depth Htop.
  - constructor.
  - inversion Hc as [|? ? Hch Hfiles]; subst.
    cbn [walk_blocks]. constructor.
    + cbn [b_top b_names]. split; [exact Htop|].
      apply Forall_forall. intros f Hf.
      apply kept_names_spec in Hf as [Hf _].
      rewrite Forall_forall in Hfiles. apply Hfiles; exact Hf.
    + apply Forall_flat_map. clear Hc Hfiles.
      induction IH as [|[n sub] cs Hsub _ IHcs]; [constructor|].
      inversion Hch as [|? ? [Hn Hcs] Hrest]; subst. cbn [fst snd] in *.
      constructor; [|apply IHcs; exact Hrest].
      destruct (ignored fs (PathOps.parse top // n) out); [constructor|].
      apply Hsub; [exact Hcs|].
      destruct Htop as [extra Htop]. destruct Hn as [_ Hn].
      rewrite (parse_join top n (no_sep_relative n Hn)).
      rewrite (div_relative _ n (no_sep_relative n Hn)), Htop. cbn [p_root p_tail].
      exists (extra ++ PathOps.segments n)%list. rewrite app_assoc. reflexivity.
Qed.

Lemma block_paths_under (r : string) (base : list string) (blocks : list block) :
  Forall (fun b => (exists extra, PathOps.parse (b_top b) = mkPath r (base ++ extra)) /\
                   Forall clean_name (b_names b)) blocks ->
  Forall (fun p => exists rest, p = mkPath r (base ++ rest))
         (flat_map block_paths blocks).
Proof.
  intro H. apply Forall_flat_map. eapply Forall_impl; [|exact H].
  intros b [[extra Hb] Hnames]. unfold block_paths.
  apply Forall_forall. intros p Hp. apply in_map_iff in Hp as [f [<- Hf]].
  rewrite Forall_forall in Hnames. destruct (Hnames f Hf) as [_ Hc].
  rewrite (div_relative _ f (no_sep_relative f Hc)), Hb. cbn [p_root p_tail].
  exists (extra ++ PathOps.segments f)%list. rewrite app_assoc. reflexivity.
Qed.

Lemma kept_under_root {L : Str.Lowering} (fs : FS) (tree : DirListing) (s out : string) :
  clean_names tree ->
  Forall (fun p => exists rest,
            p = mkPath (p_root (PathOps.parse s)) (p_tail (PathOps.parse s) ++ rest))
         (flat_map block_paths
            (walk_blocks fs out tree (PathOps.str (PathOps.parse s)) 0)).
Proof.
  intro Hc. apply block_paths_under. apply walk_blocks_under; [exact Hc|].
  exists []. rewrite parse_str_parse, app_nil_r. destruct (PathOps.parse s); reflexivity.
Qed.

(** *** The output file *)

Lemma name_div_segment (p : Path) (w : string) :
  segment w -> PathOps.name (p // w) = w.
Proof.
  intro Hw. pose proof Hw as [_ [_ Hc]].
  rewrite (div_relative p w (no_sep_relative w Hc)), (segments_of_segment w Hw).
  unfold PathOps.name. cbn [p_tail]. apply last_last.
Qed.

(** X5. No kept file is named as the output name or by an entry of
    [IGNORED_FILENAMES], whatever its extension, size or directory.  When
    the output name is a plain file name (not empty, not [.], without
    separator), the output file [root_path / output_filename] is therefore
    neither kept nor listed as a schema file: the report does not dump its
    previous self. *)
Theorem kept_files_exclude_names {L : Str.Lowering}
    (fs : FS) (tree : DirListing) (root_path : Path)
    (out : string) (text : string) (kept schema : list Path) :
  generate_tree fs tree root_path out = Ok (text, kept, schema) ->
  (forall p, In p kept ->
     PathOps.name p <> out /\ ~ In (PathOps.name p) IGNORED_FILENAMES) /\
  (segment out -> ~ In (root_path // out) kept /\ ~ In (root_path // out) schema).
Proof.
  intros Hgen.
  assert (Hnames : forall p, In p kept ->
            PathOps.name p <> out /\ ~ In (PathOps.name p) IGNORED_FILENAMES).
  { intros p Hp.
    pose proof (kept_not_ignored _ _ _ _ _ _ _ Hgen p Hp) as H.
    apply kept_not_by_name, ignored_by_name_false in H as [H1 [H2 _]].
    split; [exact H1|]. intro Hin. apply mem_In in Hin. congruence. }
  split; [exact Hnames|].
  intro Hseg.
  assert (Hk : ~ In (root_path // out) kept).
  { intro Hin. destruct (Hnames _ Hin) as [H _]. apply H, name_div_segment. exact Hseg. }
  split; [exact Hk|].
  intro Hin. apply Hk.
  apply generate_tree_consistent in Hgen as [st [_ [_ [-> [-> [Hs _]]]]]].
  rewrite Hs in Hin. apply filter_In in Hin as [Hin _]. exact Hin.
Qed.

Lemma kept_files_exclude_names_witness :
  ~ In (PathOps.parse "proj" // "project_dump.txt")
       [ mkPath "" ["proj"; "migrations"; "001_init.sql"];
         mkPath "" ["proj"; "src"; "app.py"] ].
Proof.
  destruct (kept_files_exclude_names _ _ _ _ _ _ _ scenario_generate) as [_ H].
  apply H. repeat split; discriminate.
Defined.

(** With an output name that holds a separator the first rule of
    [is_ignored] never applies, since no name holds one: the output file of
    an earlier run is kept like any other file. *)
Example output_name_with_directory :
  generate_tree (files_of_size 10) (Scanned [] ["dump.md"]) (PathOps.parse "proj")
    "./dump.md"
  = Ok ("📂 proj/" ++ nl ++ "    📄 dump.md", [PathOps.parse "proj" // "./dump.md"], []).
Proof. vm_compute. reflexivity. Qed.

(** *** Relative paths *)

(** X12. With distinct, clean names in the listing, every kept file lies
    under the project directory the user named: its root is the project's,
    its segments extend the project's, and [relative_to] the project
    directory succeeds on it and returns the segments added. *)
Theorem kept_files_under_project {L : Str.Lowering}
    (fs : FS) (tree : DirListing) (s out : string)
    (text : string) (kept schema : list Path) :
  unique_names tree ->
  clean_names tree ->
  generate_tree fs tree (PathOps.parse s) out = Ok (text, kept, schema) ->
  forall p, In p kept \/ In p schema ->
    exists rest,
      p = mkPath (p_root (PathOps.parse s)) (p_tail (PathOps.parse s) ++ rest) /\
      relative_to p (PathOps.parse s) = Ok (mkPath "" rest).
Proof.
  intros Hu Hc Hgen p Hp.
  destruct (generate_tree_blocks fs tree (PathOps.parse s) out text kept schema Hu Hgen)
    as [_ [-> [-> _]]].
  assert (Hin : In p (flat_map block_paths
                        (walk_blocks fs out tree (PathOps.str (PathOps.parse s)) 0))).
  { destruct Hp as [Hp|Hp]; [exact Hp | apply filter_In in Hp as [Hp _]; exact Hp]. }
  pose proof (kept_under_root fs tree s out Hc) as H.
  rewrite Forall_forall in H. destruct (H p Hin) as [rest ->].
  exists rest. split; [reflexivity|].
  destruct (PathOps.parse s) as [r base]. apply relative_to_under.
Qed.

Lemma kept_files_under_project_witness :
  relative_to (PathOps.parse "proj/src/app.py") (PathOps.parse "proj")
    = Ok (mkPath "" ["src"; "app.py"]).
Proof.
  destruct (kept_files_under_project scenario_fs scenario_tree "proj" "project_dump.txt"
              _ _ _ scenario_unique scenario_clean scenario_generate
              (PathOps.parse "proj/src/app.py")) as [rest [E H]].
  - left. right. left. reflexivity.
  - rewrite H. injection E as E. rewrite <- E. reflexivity.
Defined.

(** ** The prompts of [main] *)

Lemma project_dir_loop_accepts (env : Env) (good : string) (rest : list string)
    (files : list (Path * string)) :
  env_is_dir env (PathOps.parse good) = true ->
  forall (bad : list string) (fuel : nat) (stdout : list string),
    List.length bad < fuel ->
    Forall (fun l => env_is_dir env (PathOps.parse l) = false) bad ->
    project_dir_loop env fuel (mkWorld (bad ++ good :: rest) stdout files) =
    (Ok (PathOps.parse good),
     mkWorld rest (stdout ++ rejections bad ++ [DIR_PROMPT]) files).
Proof.
  intros Hgood bad.
  induction bad as [|l bad IH]; intros fuel stdout Hfuel Hbad.
  - destruct fuel as [|fuel]; [inversion Hfuel|].
    cbn [project_dir_loop app]. unfold io_bind, input. cbn [w_stdin w_stdout w_files].
    rewrite Hgood. reflexivity.
  - destruct fuel as [|fuel]; [inversion Hfuel|].
    inversion Hbad as [|? ? Hl Hbad']; subst.
    cbn [project_dir_loop app]. unfold io_bind at 1, input. cbn [w_stdin w_stdout w_files].
    rewrite Hl. unfold io_bind at 1, print at 1. cbn [w_stdin w_stdout w_files].
    rewrite IH; [|simpl in Hfuel; lia | exact Hbad'].
    unfold rejections. cbn [flat_map]. rewrite <- !app_assoc. reflexivity.
Qed.



(** ** Running [main] *)

Lemma append_nil_right (s : string) : s ++ "" = s.
Proof. induction s as [|a s IH]; simpl; [reflexivity | rewrite IH; reflexivity]. Qed.

Lemma io_bind_run {A B : Type} (m : IO A) (k : A -> IO B) (w w' : World) (a : A) :
  m w = (Ok a, w') -> io_bind m k w = k a w'.
Proof. intro H. unfold io_bind. rewrite H. reflexivity. Qed.


Lemma f_write_run (s : string) (i o : list string) (p : Path) (c : string)
    (fs : list (Path * string)) :
  f_write s (mkWorld i o ((p, c) :: fs)) = (Ok tt, mkWorld i o ((p, c ++ s) :: fs)).
Proof. reflexivity. Qed.

Lemma print_run (s : string) (i o : list string) (fs : list (Path * string)) :
  print s (mkWorld i o fs) = (Ok tt, mkWorld i (o ++ [s ++ nl]) fs).
Proof. reflexivity. Qed.

Lemma for_each_writes {A : Type} (body : A -> IO unit) (text : A -> string)
    (i o : list string) (p : Path) (fs : list (Path * string)) :
  forall l : list A,
    (forall x c, In x l ->
       body x (mkWorld i o ((p, c) :: fs)) = (Ok tt, mkWorld i o ((p, c ++ text x) :: fs))) ->
    forall c,
      for_each l body (mkWorld i o ((p, c) :: fs)) =
      (Ok tt, mkWorld i o ((p, c ++ concat_all (map text l)) :: fs)).
Proof.
  induction l as [|x l IH]; intros Hbody c.
  - cbn [for_each map concat_all fold_right]. rewrite append_nil_right. reflexivity.
  - cbn [for_each].
    rewrite (io_bind_run _ _ _ _ _ (Hbody x c (or_introl eq_refl))).
    rewrite IH by (intros y c' Hy; apply Hbody; right; exact Hy).
    cbn [map concat_all fold_right]. rewrite append_assoc_string. reflexivity.
Qed.

Lemma for_each_prints {A : Type} (body : A -> IO unit) (line : A -> string)
    (i : list string) (fs : list (Path * string)) :
  forall l : list A,
    (forall x o, In x l ->
       body x (mkWorld i o fs) = (Ok tt, mkWorld i (o ++ [line x]) fs)) ->
    forall o,
      for_each l body (mkWorld i o fs) = (Ok tt, mkWorld i (o ++ map line l) fs).
Proof.
  induction l as [|x l IH]; intros Hbody o.
  - cbn [for_each map]. rewrite app_nil_r. reflexivity.
  - cbn [for_each].
    rewrite (io_bind_run _ _ _ _ _ (Hbody x o (or_introl eq_refl))).
    rewrite IH by (intros y o' Hy; apply Hbody; right; exact Hy).
    cbn [map]. rewrite <- app_assoc. reflexivity.
Qed.

Lemma relative_str_Ok (project_path p rel : Path) :
  relative_to p project_path = Ok rel -> relative_str project_path p = PathOps.str rel.
Proof. intro H. unfold relative_str. rewrite H. reflexivity. Qed.

Lemma schema_line_run (project_path p : Path) (i o : list string) (q : Path)
    (c : string) (fs : list (Path * string)) :
  (exists rel, relative_to p project_path = Ok rel) ->
  (rel <~ lift (relative_to p project_path) ;; f_write ("- " ++ PathOps.str rel ++ nl))
    (mkWorld i o ((q, c) :: fs)) =
  (Ok tt, mkWorld i o ((q, c ++ ("- " ++ relative_str project_path p ++ nl)) :: fs)).
Proof.
  intros [rel H]. rewrite (relative_str_Ok _ _ _ H).
  unfold io_bind, lift. rewrite H. reflexivity.
Qed.

Lemma file_section_run (env : Env) (project_path p : Path) (i o : list string)
    (q : Path) (c : string) (fs : list (Path * string)) :
  (exists rel, relative_to p project_path = Ok rel) ->
  (relative_path <~ lift (relative_to p project_path) ;;
   f_write (Str.repeat "="%char 20 ++ " FILE: " ++ PathOps.str relative_path ++ " "
            ++ Str.repeat "="%char 20 ++ nl ++ nl) ;;;
   io_try (content <~ lift (env_read_text env p) ;;
           f_write content ;;;
           f_write (nl ++ nl))
          (fun e => f_write ("[Could not read file: " ++ env_str env e ++ "]" ++ nl ++ nl)))
    (mkWorld i o ((q, c) :: fs)) =
  (Ok tt, mkWorld i o ((q, c ++ file_section env project_path p) :: fs)).
Proof.
  intros [rel H]. unfold file_section. rewrite (relative_str_Ok _ _ _ H).
  unfold io_bind at 1, lift at 1. rewrite H.
  rewrite (io_bind_run _ _ _ _ _ (f_write_run _ _ _ _ _ _)).
  unfold io_try, io_bind, lift.
  destruct (env_read_text env p) as [content|e].
  - rewrite !f_write_run. rewrite !append_assoc_string. reflexivity.
  - rewrite f_write_run. rewrite !append_assoc_string. reflexivity.
Qed.

(** The body of the [with] block writes the report, whatever the reads
    give, as soon as [relative_to] succeeds on the paths it is given. *)
Lemma write_report_run (env : Env) (project_path : Path) (tree_structure : string)
    (kept schema : list Path) (i o : list string) (q : Path) (c : string)
    (fs : list (Path * string)) :
  Forall (fun p => exists rel, relative_to p project_path = Ok rel) kept ->
  Forall (fun p => exists rel, relative_to p project_path = Ok rel) schema ->
  write_report env project_path tree_structure kept schema (mkWorld i o ((q, c) :: fs)) =
  (Ok tt,
   mkWorld i o ((q, c ++ report_text env project_path tree_structure kept schema) :: fs)).
Proof.
  intros Hkept Hschema. unfold write_report, report_text.
  do 5 rewrite (io_bind_run _ _ _ _ _ (f_write_run _ _ _ _ _ _)).
  assert (Hsec : forall c',
    match schema with
    | [] => f_write ("(none detected)" ++ nl)
    | _ :: _ =>
        for_each schema (fun p =>
          rel <~ lift (relative_to p project_path) ;;
          f_write ("- " ++ PathOps.str rel ++ nl))
    end (mkWorld i o ((q, c') :: fs)) =
    (Ok tt, mkWorld i o ((q, c' ++ schema_section project_path schema) :: fs))).
  { intro c'. destruct schema as [|p0 schema']; [reflexivity|].
    unfold schema_section.
    apply (for_each_writes _ (fun p => "- " ++ relative_str project_path p ++ nl)).
    intros x c'' Hx. apply schema_line_run.
    rewrite Forall_forall in Hschema. apply Hschema; exact Hx. }
  rewrite (io_bind_run _ _ _ _ _ (Hsec _)).
  do 2 rewrite (io_bind_run _ _ _ _ _ (f_write_run _ _ _ _ _ _)).
  rewrite (for_each_writes _ (file_section env project_path)).
  - rewrite !append_assoc_string. reflexivity.
  - intros x c' Hx. apply file_section_run.
    rewrite Forall_forall in Hkept. apply Hkept; exact Hx.
Qed.

Lemma input_run (prompt line : string) (rest o : list string) (fs : list (Path * string)) :
  input prompt (mkWorld (line :: rest) o fs) = (Ok line, mkWorld rest (o ++ [prompt]) fs).
Proof. reflexivity. Qed.

Lemma summary_line_run (project_path p : Path) (i o : list string)
    (fs : list (Path * string)) :
  (exists rel, relative_to p project_path = Ok rel) ->
  (rel <~ lift (relative_to p project_path) ;; print ("  - " ++ PathOps.str rel))
    (mkWorld i o fs) =
  (Ok tt, mkWorld i (o ++ [("  - " ++ relative_str project_path p) ++ nl]) fs).
Proof.
  intros [rel H]. rewrite (relative_str_Ok _ _ _ H).
  unfold io_bind, lift. rewrite H. reflexivity.
Qed.

Lemma print_summary_run (env : Env) (project_path output_path : Path)
    (kept schema : list Path) (i o : list string) (fs : list (Path * string)) :
  Forall (fun p => exists rel, relative_to p project_path = Ok rel) schema ->
  print_summary env project_path output_path kept schema (mkWorld i o fs) =
  (Ok tt, mkWorld i (o ++ summary env project_path output_path kept schema) fs).
Proof.
  intro Hschema. unfold print_summary, summary.
  do 2 rewrite (io_bind_run _ _ _ _ _ (print_run _ _ _ _)).
  destruct schema as [|p0 schema'].
  - rewrite print_run. rewrite <- !app_assoc. reflexivity.
  - rewrite (io_bind_run _ _ _ _ _ (print_run _ _ _ _)).
    rewrite (for_each_prints _ (fun p => ("  - " ++ relative_str project_path p) ++ nl)).
    + rewrite <- !app_assoc. reflexivity.
    + intros x o' Hx. apply summary_line_run.
      rewrite Forall_forall in Hschema. apply Hschema; exact Hx.
Qed.

(** [main] up to its [try] block, once a directory and an output name were
    answered. *)
Lemma main_prompts {L : Str.Lowering} (env : Env) (bad : list string) (good answer : string)
    (rest stdout : list string) (files : list (Path * string)) :
  Forall (fun l => env_is_dir env (PathOps.parse l) = false) bad ->
  env_is_dir env (PathOps.parse good) = true ->
  main env (mkWorld (bad ++ good :: answer :: rest) stdout files) =
  io_try (try_block env (PathOps.parse good) (output_filename_of answer))
         (fun e => print (failure_note_text env e))
         (mkWorld rest
            (stdout ++ rejections bad ++ [DIR_PROMPT] ++ [NAME_PROMPT]
             ++ banner env (PathOps.parse good))
            files).
Proof.
  intros Hbad Hgood. unfold main.
  assert (Hask : ask_project_dir env (mkWorld (bad ++ good :: answer :: rest) stdout files) =
                 (Ok (PathOps.parse good),
                  mkWorld (answer :: rest) (stdout ++ rejections bad ++ [DIR_PROMPT]) files)).
  { unfold ask_project_dir. cbn [w_stdin].
    apply project_dir_loop_accepts; [exact Hgood | | exact Hbad].
    rewrite List.length_app. simpl. lia. }
  rewrite (io_bind_run _ _ _ _ _ Hask).
  rewrite (io_bind_run _ _ _ _ _ (input_run _ _ _ _ _)).
  cbv zeta.
  do 4 rewrite (io_bind_run _ _ _ _ _ (print_run _ _ _ _)).
  unfold banner, failure_note_text. rewrite <- !app_assoc. reflexivity.
Qed.

Lemma generate_tree_relative {L : Str.Lowering} (fs : FS) (tree : DirListing) (s out : string)
    (text : string) (kept schema : list Path) :
  unique_names tree ->
  clean_names tree ->
  generate_tree fs tree (PathOps.parse s) out = Ok (text, kept, schema) ->
  Forall (fun p => exists rel, relative_to p (PathOps.parse s) = Ok rel) kept /\
  Forall (fun p => exists rel, relative_to p (PathOps.parse s) = Ok rel) schema.
Proof.
  intros Hu Hc Hgen.
  destruct (generate_tree_blocks fs tree (PathOps.parse s) out text kept schema Hu Hgen)
    as [_ [-> [-> _]]].
  assert (H : Forall (fun p => exists rel, relative_to p (PathOps.parse s) = Ok rel)
                (flat_map block_paths
                   (walk_blocks fs out tree (PathOps.str (PathOps.parse s)) 0))).
  { eapply Forall_impl; [|apply (kept_under_root fs tree s out Hc)].
    intros p [rest ->]. exists (mkPath "" rest).
    destruct (PathOps.parse s) as [r base]. apply relative_to_under. }
  split; [exact H|].
  apply Forall_forall. intros p Hp. apply filter_In in Hp as [Hp _].
  rewrite Forall_forall in H. apply H; exact Hp.
Qed.


(** X14. Once a directory and an output name are answered and
    [generate_tree] has returned, [main] writes one file,
    [project_path / output_filename] (the default name when the answer is
    empty), whenever it can be opened and the listing has distinct, clean
    names: its content is the report in closed form, with one section for
    every kept file in the order of [generate_tree], a file that cannot be
    read being noted in its section without ending the run; [main] returns
    normally and leaves the remaining input unread. *)
Theorem main_writes_report {L : Str.Lowering}
    (env : Env) (bad : list string) (good answer : string)
    (rest stdout : list string) (files : list (Path * string))
    (tree : string) (kept schema : list Path) :
  Forall (fun l => env_is_dir env (PathOps.parse l) = false) bad ->
  env_is_dir env (PathOps.parse good) = true ->
  unique_names (env_scan env (PathOps.parse good)) ->
  clean_names (env_scan env (PathOps.parse good)) ->
  generate_tree (env_stat env) (env_scan env (PathOps.parse good)) (PathOps.parse good)
    (output_filename_of answer) = Ok (tree, kept, schema) ->
  env_open env (PathOps.parse good // output_filename_of answer) = Ok tt ->
  main env (mkWorld (bad ++ good :: answer :: rest) stdout files) =
  (Ok tt,
   mkWorld rest
     (stdout ++ rejections bad ++ [DIR_PROMPT] ++ [NAME_PROMPT]
      ++ banner env (PathOps.parse good)
      ++ summary env (PathOps.parse good)
           (PathOps.parse good // output_filename_of answer) kept schema)
     ((PathOps.parse good // output_filename_of answer,
       report_text env (PathOps.parse good) tree kept schema) :: files)).
Proof.
  intros Hbad Hgood Hu Hc Hg Hopen.
  destruct (generate_tree_relative _ _ _ _ _ _ _ Hu Hc Hg) as [Hk Hs].
  rewrite (main_prompts env bad good answer rest stdout files Hbad Hgood).
  unfold io_try, try_block.
  unfold io_bind at 1, lift at 1. rewrite Hg.
  unfold io_bind at 1, open_w at 1. rewrite Hopen. cbn [w_stdin w_stdout w_files].
  rewrite (io_bind_run _ _ _ _ _ (write_report_run env _ tree kept schema _ _ _ "" _ Hk Hs)).
  rewrite (print_summary_run env _ _ kept schema _ _ _ Hs).
  rewrite <- !app_assoc. reflexivity.
Qed.

Lemma main_writes_report_witness :
  main scenario_env (mkWorld ["nowhere"; "proj"; ""; "unread"] [] []) =
  (Ok tt,
   mkWorld ["unread"]
     ([] ++ rejections ["nowhere"] ++ [DIR_PROMPT] ++ [NAME_PROMPT]
      ++ banner scenario_env (PathOps.parse "proj")
      ++ summary scenario_env (PathOps.parse "proj")
           (PathOps.parse "proj" // "project_dump.txt")
           [ mkPath "" ["proj"; "migrations"; "001_init.sql"];
             mkPath "" ["proj"; "src"; "app.py"] ]
           [ mkPath "" ["proj"; "migrations"; "001_init.sql"] ])
     [(PathOps.parse "proj" // "project_dump.txt",
       report_text scenario_env (PathOps.parse "proj")
         (String.concat nl
            [ "📂 proj/";
              "    📂 migrations/";
              "        🗄️ 001_init.sql";
              "    📂 src/";
              "        📄 app.py" ])
         [ mkPath "" ["proj"; "migrations"; "001_init.sql"];
           mkPath "" ["proj"; "src"; "app.py"] ]
         [ mkPath "" ["proj"; "migrations"; "001_init.sql"] ])]).
Proof.
  apply (main_writes_report scenario_env ["nowhere"] "proj" "" ["unread"] [] []).
  - repeat constructor.
  - reflexivity.
  - exact scenario_unique.
  - exact scenario_clean.
  - exact scenario_generate.
  - reflexivity.
Defined.

(** X15. When [generate_tree] raises, or when it returns and the output
    file cannot be opened, [main] writes no file, prints the exception after
    the banner and returns normally.  In the first case the output file is
    not even opened. *)
Theorem main_reports_failure {L : Str.Lowering}
    (env : Env) (bad : list string) (good answer : string)
    (rest stdout : list string) (files : list (Path * string)) (e : exn) :
  Forall (fun l => env_is_dir env (PathOps.parse l) = false) bad ->
  env_is_dir env (PathOps.parse good) = true ->
  generate_tree (env_stat env) (env_scan env (PathOps.parse good)) (PathOps.parse good)
    (output_filename_of answer) = Raise e \/
  ((exists r,
      generate_tree (env_stat env) (env_scan env (PathOps.parse good)) (PathOps.parse good)
        (output_filename_of answer) = Ok r) /\
   env_open env (PathOps.parse good // output_filename_of answer) = Raise e) ->
  main env (mkWorld (bad ++ good :: answer :: rest) stdout files) =
  (Ok tt,
   mkWorld rest
     (stdout ++ rejections bad ++ [DIR_PROMPT] ++ [NAME_PROMPT]
      ++ banner env (PathOps.parse good) ++ [failure_note env e])
     files).
Proof.
  intros Hbad Hgood Hfail.
  rewrite (main_prompts env bad good answer rest stdout files Hbad Hgood).
  unfold io_try, try_block.
  destruct Hfail as [Hg | [[[[tree kept] schema] Hg] Hopen]].
  - unfold io_bind at 1, lift at 1. rewrite Hg.
    rewrite print_run. unfold failure_note. rewrite <- !app_assoc. reflexivity.
  - unfold io_bind at 1, lift at 1. rewrite Hg.
    unfold io_bind at 1, open_w at 1. rewrite Hopen.
    rewrite print_run. unfold failure_note. rewrite <- !app_assoc. reflexivity.
Qed.

Lemma main_reports_failure_witness :
  main read_only_env (mkWorld ["proj"; "dump.txt"] [] []) =
  (Ok tt,
   mkWorld []
     ([] ++ rejections [] ++ [DIR_PROMPT] ++ [NAME_PROMPT]
      ++ banner read_only_env (PathOps.parse "proj")
      ++ [failure_note read_only_env (OSError EROFS)])
     []) /\
  main locked_env (mkWorld ["proj"; "dump.txt"] [] []) =
  (Ok tt,
   mkWorld []
     ([] ++ rejections [] ++ [DIR_PROMPT] ++ [NAME_PROMPT]
      ++ banner locked_env (PathOps.parse "proj")
      ++ [failure_note locked_env (OSError EACCES)])
     []).
Proof.
  split.
  - apply (main_reports_failure read_only_env [] "proj" "dump.txt" [] [] [] (OSError EROFS)).
    + constructor.
    + reflexivity.
    + right. split; [eexists; vm_compute; reflexivity | reflexivity].
  - apply (main_reports_failure locked_env [] "proj" "dump.txt" [] [] [] (OSError EACCES)).
    + constructor.
    + reflexivity.
    + left. vm_compute. reflexivity.
Defined.












(** ** The filesystem root as project directory *)

Lemma remove_single_char (c : ascii) (s : string) (skip : nat) :
  Str.count c (Str.remove_from (String c "") skip s) = 0.
Proof.
  revert skip. induction s as [|a s IH]; intro skip; [reflexivity|].
  destruct skip as [|k]; cbn [Str.remove_from]; [|apply IH].
  cbn [prefix]. destruct (ascii_dec c a) as [<-|Hne].
  - destruct s; apply IH.
  - cbn [Str.count]. rewrite IH.
    assert (E : Ascii.eqb a c = false)
      by (apply Ascii.eqb_neq; intro H; apply Hne; symmetry; exact H).
    rewrite E. reflexivity.
Qed.

Lemma root_dir_lines (top : string) : dir_lines (PathOps.parse "/") top = [].
Proof.
  unfold dir_lines, level_of.
  change (PathOps.str (PathOps.parse "/")) with (String sep "").
  unfold Str.remove_all. rewrite remove_single_char. cbn [Nat.ltb Nat.leb orb].
  destruct (String.eqb_spec top (String sep "")) as [->|_]; reflexivity.
Qed.

(** X17. When the project directory is the filesystem root [/], removing
    the root string removes every separator: every directory is at level 0,
    and in what [generate_tree] returns no directory line is drawn at all,
    the tree consisting of the lines of the kept files, each indented by
    four spaces. *)
Theorem filesystem_root_draws_no_directory {L : Str.Lowering}
    (fs : FS) (tree : DirListing) (out : string)
    (text : string) (kept schema : list Path) :
  unique_names tree ->
  generate_tree fs tree (PathOps.parse "/") out = Ok (text, kept, schema) ->
  let blocks := walk_blocks fs out tree "/" 0 in
  (forall top, level_of (PathOps.parse "/") top = 0) /\
  text = String.concat nl
           (flat_map (fun b => map (fun f => "    " ++ mark_of (PathOps.parse (b_top b) // f)
                                             ++ " " ++ f) (b_names b)) blocks) /\
  kept = flat_map block_paths blocks /\
  schema = filter looks_like_schema_file (flat_map block_paths blocks).
Proof.
  intros Hu Hgen blocks.
  assert (Hlevel : forall top, level_of (PathOps.parse "/") top = 0).
  { intro top. unfold level_of.
    change (PathOps.str (PathOps.parse "/")) with (String sep "").
    apply remove_single_char. }
  split; [exact Hlevel|].
  destruct (generate_tree_blocks fs tree (PathOps.parse "/") out text kept schema Hu Hgen)
    as [Ht [Hk [Hs _]]].
  change (PathOps.str (PathOps.parse "/")) with "/" in Ht, Hk, Hs.
  fold blocks in Ht, Hk, Hs.
  split; [|split; assumption].
  rewrite Ht. f_equal.
  apply flat_map_ext. intro b.
  unfold block_lines, file_line. rewrite root_dir_lines, Hlevel. reflexivity.
Qed.

Lemma filesystem_root_draws_no_directory_witness :
  String.concat nl [ "    🗄️ 001_init.sql"; "    📄 app.py" ]
  = String.concat nl
      (flat_map (fun b => map (fun f => "    " ++ mark_of (PathOps.parse (b_top b) // f)
                                        ++ " " ++ f) (b_names b))
         (walk_blocks scenario_fs "project_dump.txt" scenario_tree "/" 0)).
Proof.
  assert (Hgen :
    generate_tree scenario_fs scenario_tree (PathOps.parse "/") "project_dump.txt" =
    Ok (String.concat nl [ "    🗄️ 001_init.sql"; "    📄 app.py" ],
        [ mkPath "/" ["migrations"; "001_init.sql"]; mkPath "/" ["src"; "app.py"] ],
        [ mkPath "/" ["migrations"; "001_init.sql"] ])).
  { vm_compute. reflexivity. }
  destruct (filesystem_root_draws_no_directory scenario_fs scenario_tree "project_dump.txt"
              _ _ _ scenario_unique Hgen) as [_ [H _]].
  exact H.
Defined.
